(** * RaceSpace: the telemetry pipeline of the analysis server

    The repository holds two copies of the server module.  Both define
    [extractTrackPointsFromTelemetry], [smoothTrackPoints],
    [findProblemAreas] and [analyzeTelemetryWithAI]; they are embedded here
    as [Server1] (the copy with the synthetic narrative) and [Server2] (the
    copy with the guarded normalisation), each under the names of the source.
    The routes are embedded as [Api1] and [Api2]; the second copy has the
    store of the users, the middleware [auth], the rate limiter and the
    routes [/register], [/login] and [/analyze].

    Conventions of the embedding.
    - A JavaScript number is a value of [num]: a rational, [NaN] or one
      of the two infinities.  The sum, the difference, the product and
      the quotient of two numbers and the decimal literals of the code
      are rounded to binary64 by [fl]: to the nearest number, to the even
      one of two, to an infinity from [2^1024] on.  Zero carries no sign;
      every zero divisor met in the code is a difference [max - min] of
      equal values or an array length, both [+0].  The numbers of an
      input are not restricted to binary64 numbers: what is proved of
      all rationals holds of these.  The narrative of the first copy is
      the exception: [Math.sin] is a parameter with rational values and
      [getRandom] is computed on them without rounding; what is proved of
      the narrative does not depend on its digits.
    - A telemetry cell is [undefined] (absent property), [null] or a number,
      as in the data model of the specification; cells that hold text,
      booleans or dates are not represented.
    - A JavaScript object is the list of its own properties in the order
      of [Object.keys]; reading a property that is absent gives [undefined].
    - A header is a string of bytes and [toLowerCase] is that of the
      ASCII letters.  JavaScript lowers other letters too, and some of
      them to ASCII (the Kelvin sign to k); the statements on the checks
      of the detector are made for headers in ASCII.
    - [Papa.parse] and [JSON.parse] are library code: their verdicts on the
      uploaded text are part of the input ([parsers]).
    - [try]/[catch] is the [result] monad.
    - Counters and instants are integers of [Z]; the code prints and reads
      them in decimal, which binary64 does exactly below [2^53].
    - [bcrypt], [jwt], [crypto.randomUUID], [multer], [fs], the clock and
      [Math.random] are library code: what they return is part of the
      input of a route (its request and its world).
    - A handler runs from one [await] to the next without interruption.
      [POST /register] tests the address, awaits [bcrypt.hash] and then
      writes: it is embedded in these two parts, and the stores that the
      routes can produce ([reachable]) include those of registrations
      that overlap.  [POST /analyze] has consulted the limiter before its
      [await] and changes the user of the token after it; it is embedded
      in one piece, at the moment of the change. *)

From Stdlib Require Import QArith ZArith NArith List String Ascii Bool Arith Lia Lqa.
From Stdlib Require Import Qround Qpower.
Import ListNotations.

Open Scope string_scope.
Open Scope nat_scope.

(** ** JavaScript numbers *)

Module JS.

Inductive num : Type :=
| NaN
| NInf
| Fin (q : Q)
| PInf.

Definition Qlt_bool (a b : Q) : bool := negb (Qle_bool b a).

Definition num_neg (a : num) : num :=
  match a with
  | NaN => NaN
  | NInf => PInf
  | Fin q => Fin (- q)
  | PInf => NInf
  end.

(** *** Rounding to binary64 *)

(** The integer nearest to [x]; of two, the even one. *)
Definition rhe (x : Q) : Z :=
  let f := Qfloor x in
  match Qcompare (x - inject_Z f) (1 # 2) with
  | Lt => f
  | Gt => (f + 1)%Z
  | Eq => if Z.even f then f else (f + 1)%Z
  end.

(** [floor (log2 q)] for [0 < q]. *)
Definition ilog2 (q : Q) : Z :=
  let e := (Z.log2 (Qnum q) - Z.log2 (Zpos (Qden q)))%Z in
  if Qle_bool (2 ^ e) q then e else (e - 1)%Z.

Definition two_1024 : Q := Eval vm_compute in (2 ^ 1024)%Q.

(** The spacing [2^u] of the binary64 numbers around a positive [q]: 53
    bits above the exponent of [q], and [2^-1074] for the subnormal
    numbers. *)
Definition quantum (q : Q) : Z := Z.max (ilog2 q - 52) (-1074).

Definition on_grid (q : Q) : Q :=
  inject_Z (rhe (q / 2 ^ quantum q)) * 2 ^ quantum q.

Definition round_pos (q : Q) : num :=
  let v := on_grid q in
  if Qle_bool two_1024 v then PInf else Fin (Qred v).

(** The binary64 number nearest to [q], the even one of two, and an
    infinity from [2^1024] on: the rounding of every arithmetic operation
    and of every decimal literal. *)
Definition fl (q : Q) : num :=
  match Qcompare q 0 with
  | Eq => Fin 0
  | Gt => round_pos q
  | Lt => num_neg (round_pos (- q))
  end.

Definition num_add (a b : num) : num :=
  match a, b with
  | NaN, _ | _, NaN => NaN
  | Fin x, Fin y => fl (x + y)
  | PInf, NInf | NInf, PInf => NaN
  | PInf, _ | _, PInf => PInf
  | NInf, _ | _, NInf => NInf
  end.

Definition num_sub (a b : num) : num := num_add a (num_neg b).

(** Sign of a number as the multiplication and division rules see it;
    zero counts as [+0]. *)
Definition negative (a : num) : bool :=
  match a with
  | NInf => true
  | Fin q => Qlt_bool q 0
  | _ => false
  end.

Definition is_zero (a : num) : bool :=
  match a with
  | Fin q => Qeq_bool q 0
  | _ => false
  end.

Definition signed_inf (neg : bool) : num := if neg then NInf else PInf.

Definition num_mul (a b : num) : num :=
  match a, b with
  | NaN, _ | _, NaN => NaN
  | Fin x, Fin y => fl (x * y)
  | _, _ =>
      if is_zero a || is_zero b then NaN
      else signed_inf (xorb (negative a) (negative b))
  end.

Definition num_div (a b : num) : num :=
  match a, b with
  | NaN, _ | _, NaN => NaN
  | Fin x, Fin y =>
      if Qeq_bool y 0 then
        if Qeq_bool x 0 then NaN else signed_inf (Qlt_bool x 0)
      else fl (x / y)
  | Fin _, _ => Fin 0
  | _, Fin _ => signed_inf (xorb (negative a) (negative b))
  | _, _ => NaN
  end.

(** [a < b]; false as soon as one side is [NaN]. *)
Definition num_lt (a b : num) : bool :=
  match a, b with
  | NaN, _ | _, NaN => false
  | Fin x, Fin y => Qlt_bool x y
  | NInf, NInf => false
  | NInf, _ => true
  | _, PInf => match a with PInf => false | _ => true end
  | _, _ => false
  end.

Definition num_gt (a b : num) : bool := num_lt b a.

Definition of_nat (n : nat) : num := Fin (inject_Z (Z.of_nat n)).
Definition of_Z (z : Z) : num := Fin (inject_Z z).

(** [Math.min(...l)] and [Math.max(...l)]: the neutral elements are the
    infinities and one [NaN] argument makes the result [NaN]. *)
Definition min2 (a b : num) : num :=
  match a, b with
  | NaN, _ | _, NaN => NaN
  | _, _ => if num_lt b a then b else a
  end.

Definition max2 (a b : num) : num :=
  match a, b with
  | NaN, _ | _, NaN => NaN
  | _, _ => if num_lt a b then b else a
  end.

Definition Math_min (l : list num) : num := fold_left min2 l PInf.
Definition Math_max (l : list num) : num := fold_left max2 l NInf.

(** ** Cells *)

Inductive jsval : Type :=
| VUndef
| VNull
| VNum (n : num).

(** [ToNumber]. *)
Definition ToNumber (v : jsval) : num :=
  match v with
  | VUndef => NaN
  | VNull => Fin 0
  | VNum n => n
  end.

(** [ToBoolean]: [undefined], [null], [0] and [NaN] are falsy. *)
Definition truthy (v : jsval) : bool :=
  match v with
  | VUndef | VNull => false
  | VNum NaN => false
  | VNum (Fin q) => negb (Qeq_bool q 0)
  | VNum _ => true
  end.

(** [v || 0] *)
Definition or_zero (v : jsval) : num :=
  if truthy v then ToNumber v else Fin 0.

(** [v != null] *)
Definition not_nullish (v : jsval) : bool :=
  match v with
  | VUndef | VNull => false
  | VNum _ => true
  end.

(** [a > b] and [a < b] on cells. *)
Definition js_gt (a : jsval) (b : num) : bool := num_gt (ToNumber a) b.
Definition js_lt (a : jsval) (b : num) : bool := num_lt (ToNumber a) b.

(** ** Strings *)

(** [toLowerCase] on the ASCII letters. *)
Definition lower_ascii (c : ascii) : ascii :=
  let n := nat_of_ascii c in
  if (65 <=? n) && (n <=? 90) then ascii_of_nat (n + 32) else c.

Fixpoint toLowerCase (s : string) : string :=
  match s with
  | EmptyString => EmptyString
  | String c r => String (lower_ascii c) (toLowerCase r)
  end.

(** [s.includes(k)] *)
Fixpoint includes (s k : string) : bool :=
  prefix k s ||
  match s with
  | EmptyString => false
  | String _ r => includes r k
  end.

(** ** Objects *)

Definition obj : Type := list (string * jsval).

Definition Object_keys (o : obj) : list string := map fst o.

Fixpoint get_prop (o : obj) (k : string) : jsval :=
  match o with
  | [] => VUndef
  | (k', v) :: r => if String.eqb k' k then v else get_prop r k
  end.

(** [o[c]] where [c] is the result of a [headers.find(...)]: a header, or
    [undefined], which as a property key is the string "undefined". *)
Definition get (o : obj) (c : option string) : jsval :=
  match c with
  | Some h => get_prop o h
  | None => get_prop o "undefined"
  end.

(** ** Exceptions *)

Inductive result (A : Type) : Type :=
| Ok (a : A)
| Throw (message : string).
Arguments Ok {A} a.
Arguments Throw {A} message.

Definition bind {A B : Type} (r : result A) (k : A -> result B) : result B :=
  match r with
  | Ok a => k a
  | Throw m => Throw m
  end.

Fixpoint mapM {A B : Type} (f : A -> result B) (l : list A) : result (list B) :=
  match l with
  | [] => Ok []
  | a :: r => bind (f a) (fun b => bind (mapM f r) (fun bs => Ok (b :: bs)))
  end.

End JS.

Import JS.

Arguments fl : simpl never.

(** ** Data of the pipeline *)

(** One element of [dataPoints] that is an object: its numeric cells, and
    the nested [position] object of the [{telemetry: [...]}] format.  The
    key [position] itself matches none of the keyword tests below, so it is
    kept out of [cells]. *)
Record row : Type := mkRow {
  cells : obj;
  position : option obj
}.

(** An element of a parsed array: [null], on which every property read
    throws, or an object. *)
Inductive elem : Type :=
| ENull
| ERow (r : row).

(** What [JSON.parse] returned: an array, an object whose [telemetry]
    property is an array, [null], or any other value. *)
Inductive json : Type :=
| JArray (items : list elem)
| JTelemetry (items : list elem)
| JNull
| JOther.

Inductive format : Type := csv | json_format.

(** The verdicts of the two parsers on the uploaded text:
    [Papa.parse(text, {header, dynamicTyping, skipEmptyLines}).data] and
    [JSON.parse(text)]. *)
Record parsers : Type := mkParsers {
  papa_data : list obj;
  json_parse : result json
}.

Definition point : Type := (jsval * jsval)%type.

Record problem : Type := mkProblem {
  pos : num * num;
  description : string;
  severity : string;
  timeLost : option string
}.

Inductive extraction : Type :=
| Valid (trackPoints : list point) (dataPoints : list elem)
| Invalid (reason : string).

Definition csv_row (o : obj) : elem := ERow (mkRow o None).

(** ** Array helpers *)

(** [l.filter((a, i) => f a i)] *)
Fixpoint filteri_from {A : Type} (f : A -> nat -> bool) (i : nat) (l : list A) : list A :=
  match l with
  | [] => []
  | a :: r =>
      if f a i then a :: filteri_from f (S i) r else filteri_from f (S i) r
  end.

Definition filteri {A : Type} (f : A -> nat -> bool) (l : list A) : list A :=
  filteri_from f 0 l.

(** [l.slice(lo, hi)] for [0 <= lo] and [0 <= hi]. *)
Definition slice {A : Type} (lo hi : nat) (l : list A) : list A :=
  firstn (hi - lo) (skipn lo l).

(** [l.filter(f)] where [f] may throw. *)
Fixpoint filterM {A : Type} (f : A -> result bool) (l : list A) : result (list A) :=
  match l with
  | [] => Ok []
  | a :: r =>
      bind (f a) (fun keep =>
      bind (filterM f r) (fun r' => Ok (if keep then a :: r' else r')))
  end.

(** [e[k]] on an array element. *)
Definition elem_prop (e : elem) (k : string) : result jsval :=
  match e with
  | ENull => Throw ("Cannot read properties of null (reading '" ++ k ++ "')")
  | ERow r => Ok (get_prop (cells r) k)
  end.

(** [e.position?.k] *)
Definition elem_position (e : elem) (k : string) : result jsval :=
  match e with
  | ENull => Throw "Cannot read properties of null (reading 'position')"
  | ERow r =>
      match position r with
      | Some p => Ok (get_prop p k)
      | None => Ok VUndef
      end
  end.

(** A header found by [find] used as a condition: [undefined] and the
    empty string are falsy. *)
Definition found (c : option string) : bool :=
  match c with
  | Some h => negb (String.eqb h "")
  | None => false
  end.

(** ** Number formatting *)

Fixpoint digits_fuel (fuel : nat) (n : N) (acc : string) : string :=
  match fuel with
  | O => acc
  | S f =>
      let acc' := String (ascii_of_N (48 + N.modulo n 10)) acc in
      if N.eqb (N.div n 10) 0 then acc' else digits_fuel f (N.div n 10) acc'
  end.

(** Decimal digits of a natural number. *)
Definition string_of_N (n : N) : string := digits_fuel (S (N.size_nat n)) n "".

Definition string_of_Z (z : Z) : string :=
  match z with
  | Zneg p => "-" ++ string_of_N (Npos p)
  | _ => string_of_N (Z.to_N z)
  end.

(** [s.padStart(n, '0')] *)
Definition padStart0 (n : nat) (s : string) : string :=
  string_of_list_ascii (repeat "0"%char (n - String.length s)) ++ s.

(** [x.toFixed(d)] for a number below [10^21] in magnitude, on its exact
    value: the integer [n] nearest to [x * 10^d], the larger one on a
    tie, printed with [d] decimals. *)
Definition toFixed_Q (d : nat) (q : Q) : string :=
  let a := if Qlt_bool q 0 then Qopp q else q in
  let n := Z.to_N (Qfloor (a * inject_Z (10 ^ Z.of_nat d) + (1 # 2))) in
  let s := padStart0 (S d) (string_of_N n) in
  let k := String.length s - d in
  (if Qlt_bool q 0 then "-" else "") ++
  substring 0 k s ++ (if d =? 0 then "" else "." ++ substring k d s).

Definition toFixed (d : nat) (x : num) : string :=
  match x with
  | NaN => "NaN"
  | PInf => "Infinity"
  | NInf => "-Infinity"
  | Fin q => toFixed_Q d q
  end.

(** [l.map((a, i) => f i a)] *)
Fixpoint mapi_from {A B : Type} (f : nat -> A -> B) (i : nat) (l : list A) : list B :=
  match l with
  | [] => []
  | a :: r => f i a :: mapi_from f (S i) r
  end.

Definition mapi {A B : Type} (f : nat -> A -> B) (l : list A) : list B :=
  mapi_from f 0 l.

(** ** Parts that the two copies share word for word *)

(** The two [headers.find] predicates of the extractor. *)
Definition is_xPos (h : string) : bool :=
  includes (toLowerCase h) "position_x" ||
  includes (toLowerCase h) "x_pos" ||
  String.eqb h "x" ||
  includes (toLowerCase h) "worldpositionx".

Definition is_yPos (h : string) : bool :=
  includes (toLowerCase h) "position_z" ||
  includes (toLowerCase h) "z_pos" ||
  String.eqb h "z" ||
  includes (toLowerCase h) "worldpositionz".

(** [Math.max(1, Math.floor(n / 200))] *)
Definition sampleRate (n : nat) : nat := Nat.max 1 (n / 200).

(** The rows kept by [.filter((_, i) => i % sampleRate === 0)]. *)
Definition sampled (data : list obj) : list obj :=
  filteri (fun _ i => i mod sampleRate (List.length data) =? 0) data.

(** The CSV branch once both columns are found: sample, project, drop the
    pairs with a [null] or [undefined] coordinate. *)
Definition csvTrackPoints (data : list obj) (xPos yPos : string) : list point :=
  filter (fun p : point => not_nullish (fst p) && not_nullish (snd p))
    (map (fun r => (get_prop r xPos, get_prop r yPos)) (sampled data)).

(** The body of the [try] block up to the smoothing step: the points
    before smoothing and [dataPoints]. *)
Definition extract_raw (P : parsers) (fmt : format) : result (list point * list elem) :=
  match fmt with
  | csv =>
      let data := papa_data P in
      match data with
      | [] => Ok ([], [])
      | first :: _ =>
          let headers := Object_keys first in
          let xPos := find is_xPos headers in
          let yPos := find is_yPos headers in
          match xPos, yPos with
          | Some x, Some y =>
              if found xPos && found yPos
              then Ok (csvTrackPoints data x y, map csv_row data)
              else Ok ([], [])
          | _, _ => Ok ([], [])
          end
      end
  | json_format =>
      bind (json_parse P) (fun data =>
      match data with
      | JArray items =>
          bind (filterM (fun e =>
                  bind (elem_prop e "x") (fun x =>
                  if not_nullish x
                  then bind (elem_prop e "z") (fun z => Ok (not_nullish z))
                  else Ok false)) items) (fun kept =>
          bind (mapM (fun e =>
                  bind (elem_prop e "x") (fun x =>
                  bind (elem_prop e "z") (fun z => Ok (x, z)))) kept) (fun pts =>
          Ok (pts, items)))
      | JTelemetry items =>
          bind (filterM (fun e =>
                  bind (elem_position e "x") (fun x =>
                  if not_nullish x
                  then bind (elem_position e "z") (fun z => Ok (not_nullish z))
                  else Ok false)) items) (fun kept =>
          bind (mapM (fun e =>
                  bind (elem_position e "x") (fun x =>
                  bind (elem_position e "z") (fun z => Ok (x, z)))) kept) (fun pts =>
          Ok (pts, items)))
      | JNull => Throw "Cannot read properties of null (reading 'telemetry')"
      | JOther => Ok ([], [])
      end)
  end.

(** The average written by both smoothers for one window. *)
Definition sum_x (window : list point) : num :=
  fold_left (fun sum p => num_add sum (ToNumber (fst p))) window (Fin 0).

Definition sum_z (window : list point) : num :=
  fold_left (fun sum p => num_add sum (ToNumber (snd p))) window (Fin 0).

Definition average (window : list point) : point :=
  (VNum (num_div (sum_x window) (of_nat (List.length window))),
   VNum (num_div (sum_z window) (of_nat (List.length window)))).

(** [Math.max(0, i - w)] *)
Definition window_start (i w : nat) : nat :=
  Z.to_nat (Z.max 0 (Z.of_nat i - Z.of_nat w)).

(** The keyword search of the detector. *)
Definition getColumn (headers : list string) (keywords : list string) : option string :=
  find (fun h => existsb (fun k => includes (toLowerCase h) k) keywords) headers.

(** [dataPoints.map(p => p[c] || 0)] *)
Definition column_values (dataPoints : list elem) (c : option string) : result (list num) :=
  mapM (fun e =>
    match e with
    | ENull => Throw "Cannot read properties of null"
    | ERow r => Ok (or_zero (get (cells r) c))
    end) dataPoints.

Definition rows_of (dataPoints : list elem) : list row :=
  flat_map (fun e => match e with ENull => [] | ERow r => [r] end) dataPoints.

Definition empty_row : row := mkRow [] None.

(** [i % 10 !== 0] decides [continue]. *)
Definition evaluated (i : nat) : bool := i mod 10 =? 0.

(** [Object.keys(dataPoints[0])] *)
Definition keys_of (e : elem) : result (list string) :=
  match e with
  | ENull => Throw "Cannot convert undefined or null to object"
  | ERow r => Ok (Object_keys (cells r))
  end.

Definition catch_empty {A : Type} (r : result (list A)) : list A :=
  match r with
  | Ok l => l
  | Throw _ => []
  end.

(** ** The request *)

(** [telemetryData] as the sequence of its UTF-16 code units. *)
Definition text : Type := list nat.

(** [telemetryData.substring(0, 20).includes('{') ? 'json' : 'csv'] *)
Definition sniff (telemetryData : text) : format :=
  if existsb (Nat.eqb 123) (firstn 20 telemetryData) then json_format else csv.

(** The object returned by [analyzeTelemetryWithAI]: [{valid: true, data}]
    or [{valid: false, reason}]. *)
Inductive analysis (R : Type) : Type :=
| Report (data : R)
| Rejected (reason : string).
Arguments Report {R} data.
Arguments Rejected {R} reason.

(** ** The second copy of the server *)

Module Server2.

Definition smoothTrackPoints_w (points : list point) (windowSize : nat) : list point :=
  if List.length points <? windowSize then points
  else
    mapi (fun i _ =>
      let window :=
        slice (window_start i windowSize)
              (Nat.min (List.length points) (i + windowSize + 1)) points in
      average window) points.

(** [windowSize = 5] is the default argument; no caller passes another. *)
Definition smoothTrackPoints (points : list point) : list point :=
  smoothTrackPoints_w points 5.

Definition extractTrackPointsFromTelemetry (P : parsers) (fmt : format) : extraction :=
  match extract_raw P fmt with
  | Ok (trackPoints, dataPoints) => Valid (smoothTrackPoints trackPoints) dataPoints
  | Throw message => Invalid ("Error extracting track data: " ++ message)
  end.

Record columns : Type := mkColumns {
  speed : option string;
  throttle : option string;
  brake : option string;
  gear : option string;
  posX : option string;
  posY : option string
}.

Definition resolve (headers : list string) : columns :=
  {| speed := getColumn headers ["speed"; "velocity"; "kmh"; "mph"];
     throttle := getColumn headers ["throttle"; "gas"];
     brake := getColumn headers ["brake"];
     gear := getColumn headers ["gear"];
     posX := getColumn headers ["position_x"; "x_pos"; "x"; "worldpositionx"];
     posY := getColumn headers ["position_z"; "z_pos"; "z"; "worldpositionz"] |}.

Definition getNorm (value : jsval) (allVals : list num) : num :=
  let min := Math_min allVals in
  let max := Math_max allVals in
  if num_gt max min
  then num_mul (num_div (num_sub (ToNumber value) min) (num_sub max min)) (of_Z 100)
  else of_Z 50.

Definition speedDrop_at (c : columns) (rows : list row) (i : nat) : num :=
  num_sub (ToNumber (get (cells (nth (i - 1) rows empty_row)) (speed c)))
          (ToNumber (get (cells (nth i rows empty_row)) (speed c))).

Definition position_at (c : columns) (allX allY : list num) (rows : list row) (i : nat)
  : num * num :=
  let curr := cells (nth i rows empty_row) in
  (getNorm (get curr (posX c)) allX, getNorm (get curr (posY c)) allY).

Definition harsh_braking (position : num * num) (speedDrop : num) : problem :=
  {| pos := position;
     description := "Harsh braking detected";
     severity := "high";
     timeLost := Some (toFixed 2 (num_mul speedDrop (fl (5 # 100))) ++ "s") |}.

Definition overlap (position : num * num) : problem :=
  {| pos := position;
     description := "Overlapping throttle and brake";
     severity := "medium";
     timeLost := Some "0.2s" |}.

Definition late_upshift (position : num * num) : problem :=
  {| pos := position;
     description := "Late upshift detected";
     severity := "low";
     timeLost := Some "0.1s" |}.

(** One turn of the [for] loop: the problems pushed at index [i]. *)
Definition iteration (c : columns) (allX allY : list num) (rows : list row) (i : nat)
  : list problem :=
  let curr := cells (nth i rows empty_row) in
  if negb (evaluated i) then []
  else
    let speedDrop := speedDrop_at c rows i in
    let brake := get curr (brake c) in
    let throttle := get curr (throttle c) in
    let gear := get curr (gear c) in
    let position := position_at c allX allY rows i in
    (if js_gt brake (fl (8 # 10)) && num_gt speedDrop (of_Z 20)
     then [harsh_braking position speedDrop] else []) ++
    (if js_gt brake (fl (2 # 10)) && js_gt throttle (fl (5 # 10))
     then [overlap position] else []) ++
    (if found (Server2.gear c) && js_gt (get curr (speed c)) (of_Z 200)
        && js_lt gear (of_Z 5)
     then [late_upshift position] else []).

(** The [for] loop over [1 <= i < dataPoints.length - 1], given columns. *)
Definition scan (c : columns) (allX allY : list num) (rows : list row) (n : nat)
  : list problem :=
  flat_map (iteration c allX allY rows) (seq 1 (n - 2)).

Definition findProblemAreas_try (dataPoints : list elem) : result (list problem) :=
  match dataPoints with
  | [] => Ok []
  | first :: _ =>
      bind (keys_of first) (fun headers =>
      let c := resolve headers in
      bind (column_values dataPoints (posX c)) (fun allX =>
      bind (column_values dataPoints (posY c)) (fun allY =>
      Ok (scan c allX allY (rows_of dataPoints) (List.length dataPoints)))))
  end.

Definition findProblemAreas (dataPoints : list elem) (fmt : format) : list problem :=
  catch_empty (findProblemAreas_try dataPoints).

(** *** The report *)

(** The object parsed from the reply: [lapAnalysis] with its two members
    and [brakingPoints] when they are present, the other members as text. *)
Record ai_analysis : Type := mkAiAnalysis {
  lapAnalysis : option (string * string);
  cornerAnalysis : string;
  ai_brakingPoints : option (list (string * string));
  ai_sectors : string;
  ai_recommendations : string
}.

(** The answer of the completion endpoint as the code meets it: [fetch]
    rejects, the response is not [ok], [response.json()] rejects, reading
    and parsing [choices[0].message.content] throws, or an object comes out. *)
Inductive ai_outcome : Type :=
| FetchRejects (message : string)
| NotOk (statusText : string)
| BodyRejects (message : string)
| ContentThrows (message : string)
| Analysed (a : ai_analysis).

(** What the function reads from its surroundings: the endpoint, and the
    clock through [Date.now()] and [new Date().toISOString()].  The prompt
    is only sent to the endpoint, whose answer is given here, and is left
    out. *)
Record world : Type := mkWorld {
  ai : ai_outcome;
  now : Z;
  isoDate : string
}.

(** [data] of a successful analysis.  The three statistics computed from
    [dataPoints] are kept as numbers; their formatting into text is left out. *)
Record result2 : Type := mkResult2 {
  id : Z;
  date : string;
  r_track : string;
  r_carClass : string;
  r_game : string;
  status : string;
  speedAnalysis : string;
  brakingPoints : list (string * string);
  lapTime : string;
  topSpeed : num;
  avgSpeed : num;
  throttleUsage : num;
  brakingPointCount : nat;
  improvement : string;
  trackPoints : list point;
  errors : list problem;
  sectors : string;
  recommendations : string
}.

(** [p.speed || 0] and [p.throttle || 0], read by literal property name. *)
Definition literal_values (k : string) (dataPoints : list elem) : result (list num) :=
  mapM (fun e => bind (elem_prop e k) (fun v => Ok (or_zero v))) dataPoints.

Definition sum_num (l : list num) : num := fold_left num_add l (Fin 0).

Definition build_result (w : world) (a : ai_analysis) (track carClass game : string)
    (trackPoints : list point) (dataPoints : list elem) (problems : list problem)
  : result result2 :=
  match lapAnalysis a with
  | None => Throw "Cannot read properties of undefined (reading 'currentTime')"
  | Some (currentTime, potentialImprovement) =>
      bind (literal_values "speed" dataPoints) (fun speeds =>
      bind (literal_values "throttle" dataPoints) (fun throttles =>
      match ai_brakingPoints a with
      | None => Throw "Cannot convert undefined or null to object"
      | Some bp =>
          Ok {| id := now w;
                date := isoDate w;
                r_track := track;
                r_carClass := carClass;
                r_game := game;
                status := "completed";
                speedAnalysis := cornerAnalysis a;
                brakingPoints := bp;
                lapTime := currentTime;
                topSpeed := Math_max speeds;
                avgSpeed := num_div (sum_num speeds) (of_nat (List.length dataPoints));
                throttleUsage :=
                  num_mul (num_div (sum_num throttles) (of_nat (List.length dataPoints)))
                          (of_Z 100);
                brakingPointCount := List.length bp;
                improvement := potentialImprovement;
                trackPoints := trackPoints;
                errors := problems;
                sectors := ai_sectors a;
                recommendations := ai_recommendations a |}
      end))
  end.

(** The [try] block around the call of the endpoint. *)
Definition call_ai (w : world) (track carClass game : string)
    (trackPoints : list point) (dataPoints : list elem) (problems : list problem)
  : result result2 :=
  match ai w with
  | FetchRejects message => Throw message
  | NotOk statusText => Throw ("DeepSeek API error: " ++ statusText)
  | BodyRejects message => Throw message
  | ContentThrows message => Throw message
  | Analysed a => build_result w a track carClass game trackPoints dataPoints problems
  end.

Definition analyzeTelemetryWithAI (w : world) (telemetryData : text) (P : parsers)
    (track carClass game : string) : analysis result2 :=
  let fileExtension := sniff telemetryData in
  match extractTrackPointsFromTelemetry P fileExtension with
  | Invalid reason => Rejected reason
  | Valid trackPoints dataPoints =>
      let problems := findProblemAreas dataPoints fileExtension in
      match call_ai w track carClass game trackPoints dataPoints problems with
      | Ok data => Report data
      | Throw message => Rejected ("AI analysis failed: " ++ message)
      end
  end.

End Server2.

(** ** The first copy of the server

    In this copy the body of an older detector is left behind
    [findProblemAreas], outside any function; it is never called and is not
    part of the embedding. *)

Module Server1.

Definition smoothTrackPoints_w (points : list point) (windowSize : nat) : list point :=
  if List.length points <? windowSize then points
  else
    map (fun i =>
      let lo := window_start i windowSize in
      let hi := Nat.min (List.length points) (i + windowSize) in
      let window := map (fun j => nth j points (VUndef, VUndef)) (seq lo (hi - lo)) in
      average window) (seq 0 (List.length points)).

Definition smoothTrackPoints (points : list point) : list point :=
  smoothTrackPoints_w points 5.

Definition extractTrackPointsFromTelemetry (P : parsers) (fmt : format) : extraction :=
  match extract_raw P fmt with
  | Ok (trackPoints, dataPoints) =>
      Valid (if 0 <? List.length trackPoints
             then smoothTrackPoints trackPoints else trackPoints) dataPoints
  | Throw message => Invalid ("Error extracting track data: " ++ message)
  end.

Record columns : Type := mkColumns {
  speed : option string;
  throttle : option string;
  brake : option string;
  gear : option string;
  posX : option string;
  posY : option string;
  sector : option string;
  time : option string
}.

Definition resolve (headers : list string) : columns :=
  {| speed := getColumn headers ["speed"; "velocity"; "kmh"; "mph"];
     throttle := getColumn headers ["throttle"; "gas"];
     brake := getColumn headers ["brake"];
     gear := getColumn headers ["gear"];
     posX := getColumn headers ["position_x"; "x_pos"; "x"; "worldpositionx"];
     posY := getColumn headers ["position_z"; "z_pos"; "z"; "worldpositionz"];
     sector := getColumn headers ["sector"; "section"];
     time := getColumn headers ["laptime"; "time"; "timestamp"] |}.

Definition getNorm (value : jsval) (allVals : list num) : num :=
  let min := Math_min allVals in
  let max := Math_max allVals in
  num_mul (num_div (num_sub (ToNumber value) min) (num_sub max min)) (of_Z 100).

Definition speedDrop_at (c : columns) (rows : list row) (i : nat) : num :=
  num_sub (ToNumber (get (cells (nth (i - 1) rows empty_row)) (speed c)))
          (ToNumber (get (cells (nth i rows empty_row)) (speed c))).

Definition position_at (c : columns) (allX allY : list num) (rows : list row) (i : nat)
  : num * num :=
  let curr := cells (nth i rows empty_row) in
  (getNorm (get curr (posX c)) allX, getNorm (get curr (posY c)) allY).

Definition harsh_braking (position : num * num) : problem :=
  {| pos := position;
     description := "Harsh braking detected";
     severity := "high";
     timeLost := None |}.

Definition overlap (position : num * num) : problem :=
  {| pos := position;
     description := "Overlapping throttle and brake";
     severity := "medium";
     timeLost := None |}.

Definition late_upshift (position : num * num) : problem :=
  {| pos := position;
     description := "Late upshift detected";
     severity := "low";
     timeLost := None |}.

Definition iteration (c : columns) (allX allY : list num) (rows : list row) (i : nat)
  : list problem :=
  let curr := cells (nth i rows empty_row) in
  if negb (evaluated i) then []
  else
    let speedDrop := speedDrop_at c rows i in
    let brake := get curr (brake c) in
    let throttle := get curr (throttle c) in
    let gear := get curr (gear c) in
    let position := position_at c allX allY rows i in
    (if js_gt brake (fl (8 # 10)) && num_gt speedDrop (of_Z 20)
     then [harsh_braking position] else []) ++
    (if js_gt brake (fl (2 # 10)) && js_gt throttle (fl (5 # 10))
     then [overlap position] else []) ++
    (if js_gt (get curr (speed c)) (of_Z 200) && js_lt gear (of_Z 5)
     then [late_upshift position] else []).

Definition scan (c : columns) (allX allY : list num) (rows : list row) (n : nat)
  : list problem :=
  flat_map (iteration c allX allY rows) (seq 1 (n - 2)).

Definition findProblemAreas_try (dataPoints : list elem) : result (list problem) :=
  match dataPoints with
  | [] => Ok []
  | first :: _ =>
      bind (keys_of first) (fun headers =>
      let c := resolve headers in
      bind (column_values dataPoints (posX c)) (fun allX =>
      bind (column_values dataPoints (posY c)) (fun allY =>
      Ok (scan c allX allY (rows_of dataPoints) (List.length dataPoints)))))
  end.

Definition findProblemAreas (dataPoints : list elem) (fmt : format) : list problem :=
  catch_empty (findProblemAreas_try dataPoints).

(** *** The report *)

Record mistake : Type := mkMistake {
  mistake_description : string;
  solution : string;
  mistake_timeLost : string
}.

Record sector_report : Type := mkSector {
  number : nat;
  sector_time : string;
  mistakes : list mistake
}.

Record turn_speed : Type := mkTurn {
  entry : string;
  exit : string
}.

Record narrative : Type := mkNarrative {
  lapTime : string;
  topSpeed : string;
  throttleUsage : string;
  speedAnalysis : list (string * turn_speed);
  brakingPoints : list (string * string);
  trackLine : list point;
  errors : list problem;
  sectors : list sector_report;
  recommendations : list string
}.

(** The object parsed from the reply of the endpoint: the two members of
    [trackMap] the code reads, when they are truthy, and the rest as text. *)
Record ai_reply : Type := mkReply {
  reply_trackLine : option (list point);
  reply_errors : option (list problem);
  reply_rest : string
}.

Inductive report : Type :=
| FromAI (trackLine : list point) (errors : list problem) (rest : string)
| Synthetic (n : narrative).

(** The answer of the completion endpoint as the code meets it: [fetch]
    rejects (network error, timeout); the response is not [ok]; reading the
    body with [response.json()] rejects; parsing [content] or writing into
    the parsed value throws; or an object comes out. *)
Inductive ai_outcome : Type :=
| FetchRejects (message : string)
| NotOk
| BodyRejects (message : string)
| ContentThrows
| Replied (r : ai_reply).

(** What the function can reach in its surroundings: whether
    [process.env.DEEPSEEK_API_KEY] is set, the endpoint, and the clock,
    which this copy never reads.  The prompt is only sent to the endpoint,
    whose answer is given here, and is left out. *)
Record world : Type := mkWorld {
  DEEPSEEK_API_KEY : bool;
  ai : ai_outcome;
  now : Z
}.

(** [telemetryHash]: the decimal code units at the indices 0, 100, ...
    below [Math.min(telemetryData.length, 1000)], concatenated. *)
Definition telemetryHash (telemetryData : text) : string :=
  concat ""
    (map (fun i => string_of_N (N.of_nat (nth i telemetryData 0)))
       (filter (fun i => i <? Nat.min (List.length telemetryData) 1000)
          (map (fun k => 100 * k) (seq 0 10)))).

(** [telemetryHash.split('').reduce((a, b) => a + b.charCodeAt(0), 0)] *)
Definition seed_of (telemetryData : text) : Z :=
  fold_left (fun a b => (a + Z.of_nat (nat_of_ascii b))%Z)
    (list_ascii_of_string (telemetryHash telemetryData)) 0%Z.

Section Narrative.

(** [Math.sin] restricted to the integers it is applied to. *)
Variable Math_sin : Z -> Q.

Variable seed : Z.
Variable problems : list problem.
Variable trackPoints : list point.
Variable track : string.

(** [getRandom(min, max)]: no state is kept between two calls. *)
Definition getRandom (min max : Q) : Q :=
  let x := (Math_sin (seed + Z.of_nat (List.length problems)) * 10000)%Q in
  (min + (x - inject_Z (Qfloor x)) * (max - min))%Q.

(** [`${Math.floor(a + getRandom(lo, hi))}`] *)
Definition floor_str (a lo hi : Q) : string :=
  string_of_Z (Qfloor (a + getRandom lo hi)%Q).

Definition synthetic_lapTime : string :=
  floor_str 1 0 2 ++ ":" ++ floor_str 30 0 30 ++ "." ++
  padStart0 3 (string_of_Z (Qfloor (getRandom 0 999))).

Definition sectorCount : nat :=
  if includes track "Nürburgring" then 4 else if includes track "Spa" then 3 else 2.

Definition turnCount : nat :=
  if includes track "Nürburgring" then 16 else if includes track "Spa" then 19 else 10.

Definition synthetic_mistake (i j : nat) : mistake :=
  {| mistake_description :=
       "Hamowanie " ++ floor_str 5 0 20 ++ "m " ++
       (if Qlt_bool (5 # 10) (getRandom 0 1) then "za późno" else "za wcześnie") ++
       " w zakręcie " ++ string_of_N (N.of_nat (i * 2 + j));
     solution :=
       "Hamuj od " ++ floor_str 80 0 50 ++ "m z " ++ floor_str 70 0 20 ++ "% siły";
     mistake_timeLost := toFixed_Q 2 ((1 # 10) + getRandom 0 (5 # 10))%Q ++ "s" |}.

Definition synthetic_sector (i : nat) : sector_report :=
  let sectorTime := toFixed_Q 3 (20 + getRandom 0 15)%Q ++ "s" in
  let mistakeCount := Z.to_nat (Qfloor (getRandom 0 3)) in
  {| number := i;
     sector_time := sectorTime;
     mistakes := map (synthetic_mistake i) (seq 0 mistakeCount) |}.

Definition turn_key (i : nat) : string := "turn" ++ string_of_N (N.of_nat i).

Definition synthetic_turn (i : nat) : string * turn_speed :=
  (turn_key i,
   {| entry := floor_str 120 0 80 ++ " km/h";
      exit := floor_str 140 0 70 ++ " km/h" |}).

Definition synthetic_braking (i : nat) : string * string :=
  (turn_key i,
   floor_str 80 0 50 ++ "m (" ++
   (if Qlt_bool (7 # 10) (getRandom 0 1) then "za późno" else "optymalnie") ++ ")").

Definition turn_str : string :=
  floor_str 1 0 (inject_Z (Z.of_nat turnCount)).

Definition all_recommendations : list string :=
  [ "Zwiększ prędkość w zakręcie " ++ turn_str ++ " o 10-15km/h";
    "Utrzymuj " ++ floor_str 70 0 20 ++ "% gazu w sekcji " ++
      (if includes track "Spa" then "Eau Rouge" else "technicznej");
    "Popraw punkt hamowania w zakręcie " ++ turn_str ++ " o 5-10m";
    "Zoptymalizuj linię w zakręcie " ++ turn_str;
    "Unikaj nakładania się hamulca i gazu w zakręcie " ++ turn_str ].

Definition pt (x z : Z) : point := (VNum (of_Z x), VNum (of_Z z)).

Definition default_trackLine : list point :=
  [pt 0 0; pt 10 5; pt 20 10; pt 30 15; pt 40 20; pt 50 25;
   pt 60 30; pt 70 35; pt 80 40; pt 90 45; pt 100 50].

Definition default_errors : list problem :=
  [ {| pos := (of_Z 30, of_Z 15);
       description := "Hamowanie 20m za późno (Turn " ++ floor_str 1 0 3 ++ ")";
       severity := "high"; timeLost := None |};
    {| pos := (of_Z 60, of_Z 30);
       description := "Za mało gazu w wyjściu z zakrętu (Turn " ++ floor_str 4 0 3 ++ ")";
       severity := "medium"; timeLost := None |};
    {| pos := (of_Z 90, of_Z 45);
       description := "Niewłaściwa linia jazdy (Turn " ++ floor_str 7 0 3 ++ ")";
       severity := "low"; timeLost := None |} ].

(** The analysis generated by the server itself. *)
Definition synthetic : narrative :=
  {| lapTime := synthetic_lapTime;
     topSpeed := floor_str 240 0 50 ++ " km/h";
     throttleUsage := floor_str 70 0 20 ++ "%";
     speedAnalysis := map synthetic_turn (seq 1 turnCount);
     brakingPoints := map synthetic_braking (seq 1 turnCount);
     trackLine :=
       if 10 <? List.length trackPoints then trackPoints else default_trackLine;
     errors := if 0 <? List.length problems then problems else default_errors;
     sectors := map synthetic_sector (seq 1 sectorCount);
     recommendations :=
       firstn (Z.to_nat (3 + Qfloor (getRandom 0 2))) all_recommendations |}.

(** The [if (process.env.DEEPSEEK_API_KEY)] block: [Ok (Some data)] is the
    [return] inside it, [Ok None] falls out of the block, [Throw] leaves the
    enclosing [try]. *)
Definition call_ai (w : world) : result (option report) :=
  if DEEPSEEK_API_KEY w then
    match ai w with
    | FetchRejects message => Throw message
    | NotOk => Ok None
    | BodyRejects message => Throw message
    | ContentThrows => Ok None
    | Replied r =>
        Ok (Some (FromAI
          (if 10 <? List.length trackPoints then trackPoints
           else match reply_trackLine r with Some l => l | None => [] end)
          (if 0 <? List.length problems then problems
           else match reply_errors r with Some l => l | None => [] end)
          (reply_rest r)))
    end
  else Ok None.

Definition analyse_valid (w : world) : analysis report :=
  match call_ai w with
  | Ok (Some data) => Report data
  | Ok None => Report (Synthetic synthetic)
  | Throw message => Rejected ("Błąd analizy: " ++ message)
  end.

End Narrative.

Definition analyzeTelemetryWithAI (Math_sin : Z -> Q) (w : world)
    (telemetryData : text) (P : parsers) (track carClass game : string)
  : analysis report :=
  let fileExtension := sniff telemetryData in
  match extractTrackPointsFromTelemetry P fileExtension with
  | Invalid reason => Rejected reason
  | Valid trackPoints dataPoints =>
      let problems := findProblemAreas dataPoints fileExtension in
      analyse_valid Math_sin (seed_of telemetryData) problems trackPoints track w
  end.

End Server1.

(** ** The store and the routes of the second copy *)

Module Api2.

(** A [Map] with string keys, in insertion order. *)
Definition Map (V : Type) : Type := list (string * V).

Fixpoint Map_get {V : Type} (m : Map V) (k : string) : option V :=
  match m with
  | [] => None
  | (k', v) :: r => if String.eqb k' k then Some v else Map_get r k
  end.

Fixpoint Map_set {V : Type} (m : Map V) (k : string) (v : V) : Map V :=
  match m with
  | [] => [(k, v)]
  | (k', v') :: r =>
      if String.eqb k' k then (k, v) :: r else (k', v') :: Map_set r k v
  end.

(** [[...m.values()]] *)
Definition Map_values {V : Type} (m : Map V) : list V := map snd m.

(** *** Rate limiting *)

Definition RATE_LIMIT_WINDOW : Z := 60 * 1000.
Definition MAX_REQUESTS : nat := 5.

(** [rateLimiter(ip)] at the instant [now = Date.now()]: the verdict and
    the map [analysisRateLimit] afterwards. *)
Definition rateLimiter (analysisRateLimit : Map (list Z)) (now : Z) (ip : string)
  : bool * Map (list Z) :=
  let userRequests :=
    match Map_get analysisRateLimit ip with
    | Some l => l
    | None => []
    end in
  let recentRequests :=
    filter (fun time => (now - time <? RATE_LIMIT_WINDOW)%Z) userRequests in
  if MAX_REQUESTS <=? List.length recentRequests then (false, analysisRateLimit)
  else (true, Map_set analysisRateLimit ip (recentRequests ++ [now])%list).

(** *** Users *)

Record stats : Type := mkStats {
  sessions : Z;
  tracks : Z;
  cars : Z;
  totalTime : string;
  improvement : string
}.

Record user : Type := mkUser {
  id : string;
  email : string;
  name : string;
  password : string;
  avatar : string;
  createdAt : string;
  user_stats : stats;
  history : list Server2.result2
}.

(** [{ password: _, ...userWithoutPassword } = user] *)
Record account : Type := mkAccount {
  account_id : string;
  account_email : string;
  account_name : string;
  account_avatar : string;
  account_createdAt : string;
  account_stats : stats;
  account_history : list Server2.result2
}.

Definition userWithoutPassword (u : user) : account :=
  {| account_id := id u;
     account_email := email u;
     account_name := name u;
     account_avatar := avatar u;
     account_createdAt := createdAt u;
     account_stats := user_stats u;
     account_history := history u |}.

(** The two maps of the module. *)
Record store : Type := mkStore {
  analysisRateLimit : Map (list Z);
  users : Map user
}.

Inductive body : Type :=
| Error (error : string)
| Data (data : Server2.result2)
| Account (u : account) (token : string).

Record response : Type := mkResponse {
  status : nat;
  payload : body
}.

(** *** [parseInt] *)

(** White space, as far as it is ASCII. *)
Definition is_space (c : ascii) : bool :=
  let n := nat_of_ascii c in
  ((9 <=? n) && (n <=? 13)) || (n =? 32).

Fixpoint skip_spaces (s : string) : string :=
  match s with
  | String c r => if is_space c then skip_spaces r else s
  | EmptyString => s
  end.

Definition digit_value (radix : N) (c : ascii) : option N :=
  let n := N_of_ascii c in
  let d :=
    if ((48 <=? n) && (n <=? 57))%N then Some (n - 48)%N
    else if ((97 <=? n) && (n <=? 122))%N then Some (n - 87)%N
    else if ((65 <=? n) && (n <=? 90))%N then Some (n - 55)%N
    else None in
  match d with
  | Some v => if (v <? radix)%N then Some v else None
  | None => None
  end.

(** The value of the longest prefix of digits, started at [acc]; [None]
    when there is no digit. *)
Fixpoint parse_digits (radix : N) (s : string) (acc : option N) : option N :=
  match s with
  | String c r =>
      match digit_value radix c with
      | Some d =>
          parse_digits radix r
            (Some (match acc with Some a => a * radix + d | None => d end)%N)
      | None => acc
      end
  | EmptyString => acc
  end.

Definition strip_hex (s : string) : option string :=
  match s with
  | String "0" (String "x" r) => Some r
  | String "0" (String "X" r) => Some r
  | _ => None
  end.

(** [parseInt(s)] with no radix; [None] is [NaN]. *)
Definition parseInt (s : string) : option Z :=
  let s := skip_spaces s in
  let (neg, s) :=
    match s with
    | String "-" r => (true, r)
    | String "+" r => (false, r)
    | _ => (false, s)
    end in
  let digits :=
    match strip_hex s with
    | Some r => parse_digits 16 r None
    | None => parse_digits 10 s None
    end in
  match digits with
  | Some n => Some (if neg then (- Z.of_N n)%Z else Z.of_N n)
  | None => None
  end.

(** [parseInt(s) || 0] *)
Definition parseInt_or_0 (s : string) : Z :=
  match parseInt s with
  | Some n => n
  | None => 0%Z
  end.

(** *** [auth] *)

(** What the [Authorization] header gives: no token; a token that
    [jwt.verify] refuses; a token whose payload carries [id]. *)
Inductive credentials : Type :=
| NoToken
| BadToken
| Token (id : string).

(** The middleware [auth]: the response it sends, or the user it puts in
    [req.user] before calling [next()], with the key it was found under. *)
Definition auth (users : Map user) (c : credentials) : response + string * user :=
  match c with
  | NoToken => inl (mkResponse 401 (Error "Authentication required"))
  | BadToken => inl (mkResponse 401 (Error "Invalid token"))
  | Token key =>
      match Map_get users key with
      | None => inl (mkResponse 401 (Error "User not found"))
      | Some u => inr (key, u)
      end
  end.

(** *** [POST /register] *)

Record register_request : Type := mkRegister {
  register_email : string;
  register_password : string;
  register_name : string;
  register_avatar : option string
}.

(** What the libraries return during one registration: [bcrypt.hash],
    [crypto.randomUUID], [encodeURIComponent(name)], the clock and
    [jwt.sign]. *)
Record register_world : Type := mkRegisterWorld {
  hashed : result string;
  uuid : string;
  encoded_name : string;
  register_date : string;
  register_token : string
}.

Definition new_stats : stats :=
  {| sessions := 0; tracks := 0; cars := 0;
     totalTime := "0h 0m"; improvement := "+0.0s" |}.

(** [avatar || `https://avatars.dicebear.com/api/initials/${...}.svg`] *)
Definition avatar_or_default (a : option string) (encoded : string) : string :=
  match a with
  | Some s =>
      if String.eqb s ""
      then "https://avatars.dicebear.com/api/initials/" ++ encoded ++ ".svg"
      else s
  | None => "https://avatars.dicebear.com/api/initials/" ++ encoded ++ ".svg"
  end.

(** The handler runs in two parts.  Up to [await bcrypt.hash] it tests
    whether the address is taken. *)
Definition register_check (st : store) (req : register_request) : bool :=
  existsb (fun u => String.eqb (email u) (register_email req)) (Map_values (users st)).

(** When the hash is there it goes on with the store of that moment, in
    which other requests may have been handled in between, and does not
    look at the addresses again. *)
Definition register_write (st : store) (w : register_world) (req : register_request)
  : response * store :=
  match hashed w with
  | Throw _ => (mkResponse 500 (Error "Registration failed"), st)
  | Ok hashedPassword =>
      let user :=
        {| id := uuid w;
           email := register_email req;
           name := register_name req;
           password := hashedPassword;
           avatar := avatar_or_default (register_avatar req) (encoded_name w);
           createdAt := register_date w;
           user_stats := new_stats;
           history := [] |} in
      (mkResponse 201 (Account (userWithoutPassword user) (register_token w)),
       mkStore (analysisRateLimit st) (Map_set (users st) (id user) user))
  end.

(** A registration during which no other request is handled. *)
Definition register (st : store) (w : register_world) (req : register_request)
  : response * store :=
  if register_check st req
  then (mkResponse 400 (Error "Email already registered"), st)
  else register_write st w req.

(** *** [POST /login] *)

Record login_request : Type := mkLogin {
  login_email : string;
  login_password : string
}.

(** [bcrypt.compare(password, hash)], which may throw, and [jwt.sign]. *)
Record login_world : Type := mkLoginWorld {
  compare : string -> string -> result bool;
  login_token : string
}.

Definition login (st : store) (w : login_world) (req : login_request) : response :=
  match find (fun u => String.eqb (email u) (login_email req)) (Map_values (users st)) with
  | None => mkResponse 401 (Error "Invalid credentials")
  | Some user =>
      match compare w (login_password req) (password user) with
      | Throw _ => mkResponse 500 (Error "Login failed")
      | Ok false => mkResponse 401 (Error "Invalid credentials")
      | Ok true => mkResponse 200 (Account (userWithoutPassword user) (login_token w))
      end
  end.

(** *** [POST /analyze] *)

(** What [upload.single('telemetry')] and the file system give: the
    upload is refused (file type, size); no file came; a file came, with
    the outcome of [fs.readFileSync], the verdicts of the parsers on its
    content and the message of [fs.unlinkSync] when that throws. *)
Inductive upload : Type :=
| UploadError
| NoFile
| File (read : result text) (P : parsers) (unlink : option string).

Record analyze_request : Type := mkAnalyze {
  authorization : credentials;
  ip : string;
  req_file : upload;
  req_track : option string;
  req_carClass : option string;
  req_game : option string
}.

(** The clock at the call of the limiter, the surroundings of the
    analysis and [Math.random()]. *)
Record analyze_world : Type := mkAnalyzeWorld {
  limiter_now : Z;
  analysis_world : Server2.world;
  random : Q
}.

(** [!field]: absent or empty. *)
Definition missing (field : option string) : bool :=
  match field with
  | Some s => String.eqb s ""
  | None => true
  end.

Definition field_value (field : option string) : string :=
  match field with
  | Some s => s
  | None => ""
  end.

(** The update of [req.user] after an analysis. *)
Definition record_analysis (u : user) (track carClass : string) (random : Q)
    (data : Server2.result2) : user :=
  let s := user_stats u in
  let totalTime := parseInt_or_0 (totalTime s) in
  {| id := id u;
     email := email u;
     name := name u;
     password := password u;
     avatar := avatar u;
     createdAt := createdAt u;
     user_stats :=
       {| sessions := (sessions s + 1)%Z;
          tracks :=
            if existsb (fun h => String.eqb (Server2.r_track h) track) (history u)
            then tracks s else (tracks s + 1)%Z;
          cars :=
            if existsb (fun h => String.eqb (Server2.r_carClass h) carClass) (history u)
            then cars s else (cars s + 1)%Z;
          totalTime :=
            string_of_Z (totalTime + 1) ++ "h " ++
            string_of_Z (Qfloor (random * 60)) ++ "m";
          improvement := improvement s |};
     history := data :: history u |}.

(** The route: [auth], then the upload, then the handler.  [req.user] is
    the object stored under the key of the token; the handler changes it
    in place and stores it again under its own [id]. *)
Definition analyze (st : store) (w : analyze_world) (req : analyze_request)
  : response * store :=
  match auth (users st) (authorization req) with
  | inl refused => (refused, st)
  | inr (key, user) =>
      match req_file req with
      | UploadError => (mkResponse 500 (Error "Something went wrong!"), st)
      | NoFile | File _ _ _ =>
          let (allowed, limits) :=
            rateLimiter (analysisRateLimit st) (limiter_now w) (ip req) in
          let st := mkStore limits (users st) in
          if negb allowed then
            (mkResponse 429
               (Error "Too many analysis requests. Please wait before trying again."),
             st)
          else
            match req_file req with
            | UploadError | NoFile =>
                (mkResponse 400 (Error "No telemetry file uploaded"), st)
            | File read P unlink =>
                if missing (req_track req) || missing (req_carClass req)
                   || missing (req_game req)
                then (mkResponse 400 (Error "Missing required fields"), st)
                else
                  let track := field_value (req_track req) in
                  let carClass := field_value (req_carClass req) in
                  let game := field_value (req_game req) in
                  match read with
                  | Throw message =>
                      (mkResponse 500 (Error ("Analysis failed: " ++ message)), st)
                  | Ok fileContent =>
                      let result :=
                        Server2.analyzeTelemetryWithAI (analysis_world w)
                          fileContent P track carClass game in
                      match unlink with
                      | Some message =>
                          (mkResponse 500 (Error ("Analysis failed: " ++ message)), st)
                      | None =>
                          match result with
                          | Rejected reason => (mkResponse 400 (Error reason), st)
                          | Report data =>
                              let user' :=
                                record_analysis user track carClass (random w) data in
                              (mkResponse 200 (Data data),
                               mkStore limits
                                 (Map_set (Map_set (users st) key user')
                                          (id user') user'))
                          end
                      end
                  end
            end
      end
  end.

End Api2.

(** ** The route of the first copy *)

Module Api1.

Inductive body : Type :=
| Failure (reason : string)
| Data (data : Server1.report).

Record response : Type := mkResponse {
  status : nat;
  payload : body
}.

(** [req.file] with the outcome of [fs.readFileSync], the verdicts of the
    parsers on the content and the message of [fs.unlinkSync] when that
    throws. *)
Inductive upload : Type :=
| NoFile
| File (read : result text) (P : parsers) (unlink : option string).

Record analyze_request : Type := mkAnalyze {
  req_file : upload;
  req_track : option string;
  req_carClass : option string;
  req_game : option string
}.

Definition field_value (field : option string) : string :=
  match field with
  | Some s => s
  | None => ""
  end.

(** [analyzeTelemetryWithAI] called with the fields of [req.body] as they
    are.  [track] is read by the server's own analysis only, where
    [track.includes] throws when the field is absent; [carClass] and [game]
    go into the prompt only. *)
Definition analyzeTelemetryWithAI (Math_sin : Z -> Q) (w : Server1.world)
    (telemetryData : text) (P : parsers) (track carClass game : option string)
  : analysis Server1.report :=
  match track with
  | Some t =>
      Server1.analyzeTelemetryWithAI Math_sin w telemetryData P t
        (field_value carClass) (field_value game)
  | None =>
      let fileExtension := sniff telemetryData in
      match Server1.extractTrackPointsFromTelemetry P fileExtension with
      | Invalid reason => Rejected reason
      | Valid trackPoints dataPoints =>
          let problems := Server1.findProblemAreas dataPoints fileExtension in
          match Server1.call_ai problems trackPoints w with
          | Ok (Some data) => Report data
          | Ok None =>
              Rejected
                "Błąd analizy: Cannot read properties of undefined (reading 'includes')"
          | Throw message => Rejected ("Błąd analizy: " ++ message)
          end
      end
  end.

(** [result.reason || 'Unknown error'] *)
Definition reason_or_unknown (reason : string) : string :=
  if String.eqb reason "" then "Unknown error" else reason.

Definition analyze (Math_sin : Z -> Q) (w : Server1.world) (req : analyze_request)
  : response :=
  match req_file req with
  | NoFile => mkResponse 400 (Failure "No telemetry file uploaded.")
  | File read P unlink =>
      match read with
      | Throw message => mkResponse 500 (Failure message)
      | Ok rawData =>
          let result :=
            analyzeTelemetryWithAI Math_sin w rawData P
              (req_track req) (req_carClass req) (req_game req) in
          match unlink with
          | Some message => mkResponse 500 (Failure message)
          | None =>
              match result with
              | Report data => mkResponse 200 (Data data)
              | Rejected reason => mkResponse 500 (Failure (reason_or_unknown reason))
              end
          end
      end
  end.

End Api1.

(** ** Definitions used to state the properties *)

(** The points of [points] whose index lies in [[lo, hi)], in index order. *)
Definition window_points (points : list point) (lo hi : nat) : list point :=
  map (fun j => nth j points (VUndef, VUndef))
      (filter (fun j => (lo <=? j) && (j <? hi)) (seq 0 (List.length points))).

(** The x's and the z's of a list of points, as numbers. *)
Definition xs (points : list point) : list num :=
  map (fun p => ToNumber (fst p)) points.

Definition zs (points : list point) : list num :=
  map (fun p => ToNumber (snd p)) points.

(** The sum of a list of numbers in binary64: added from left to right,
    each addition rounded. *)
Definition total (l : list num) : num := fold_left num_add l (Fin 0).

(** Their mean in binary64: the sum over the count, rounded once more. *)
Definition mean (l : list num) : num := num_div (total l) (of_nat (List.length l)).

Definition mean_point (points : list point) : point :=
  (VNum (mean (xs points)), VNum (mean (zs points))).

(** The arithmetic mean of finite numbers, as the rational that it is. *)
Definition value_of (a : num) : Q :=
  match a with
  | Fin q => q
  | _ => 0%Q
  end.

Definition arithmetic_mean (l : list num) : Q :=
  (fold_right Qplus 0 (map value_of l) / inject_Z (Z.of_nat (List.length l)))%Q.

(** Eight points at the same place, 250.3 to the right. *)
Definition parked : list point := repeat (VNum (fl (2503 # 10)), VNum (of_Z 4)) 8.

(** The order of the numbers; [NaN] is not comparable. *)
Definition num_le (a b : num) : Prop :=
  match a, b with
  | NaN, _ | _, NaN => False
  | NInf, _ => True
  | _, PInf => True
  | Fin x, Fin y => (x <= y)%Q
  | _, _ => False
  end.

(** Row [i] of a CSV table has both coordinates. *)
Definition has_point (data : list obj) (xPos yPos : string) (i : nat) : bool :=
  not_nullish (get_prop (nth i data []) xPos) &&
  not_nullish (get_prop (nth i data []) yPos).

(** The indices kept by the stride. *)
Definition sampled_indices (n : nat) : list nat :=
  filter (fun i => i mod sampleRate n =? 0) (seq 0 n).

Definition is_harsh (p : problem) : bool :=
  String.eqb (description p) "Harsh braking detected".

Definition is_overlap (p : problem) : bool :=
  String.eqb (description p) "Overlapping throttle and brake".

Definition is_late (p : problem) : bool :=
  String.eqb (description p) "Late upshift detected".

(** The values of a column over all rows; an absent or [null] cell, a
    zero and a [NaN] count as 0. *)
Definition column_of (rows : list row) (c : option string) : list num :=
  map (fun r => or_zero (get (cells r) c)) rows.

(** The cell of row [i] in a column. *)
Definition cell (rows : list row) (i : nat) (c : option string) : jsval :=
  get (cells (nth i rows empty_row)) c.

(** [a == b] on numbers. *)
Definition num_eqb (a b : num) : bool :=
  match a, b with
  | Fin x, Fin y => Qeq_bool x y
  | PInf, PInf | NInf, NInf => true
  | _, _ => false
  end.

(** The position of the specification on one axis:
    [(value - min) / (max - min) * 100] against the least and the
    greatest value of the column, and 50 where they are equal. *)
Definition normalized (value : jsval) (vals : list num) : num :=
  let min := Math_min vals in
  let max := Math_max vals in
  if num_eqb max min then of_Z 50
  else num_mul (num_div (num_sub (ToNumber value) min) (num_sub max min)) (of_Z 100).

(** The three conditions of the specification at row [i]:
    [brake > 0.8] and [speed(prev) - speed(curr) > 20];
    [brake > 0.2] and [throttle > 0.5]; [speed > 200] and [gear < 5]. *)
Definition harsh_at (speed brake : option string) (rows : list row) (i : nat) : bool :=
  js_gt (cell rows i brake) (fl (8 # 10)) &&
  num_gt (num_sub (ToNumber (cell rows (i - 1) speed)) (ToNumber (cell rows i speed)))
         (of_Z 20).

Definition overlap_at (brake throttle : option string) (rows : list row) (i : nat)
  : bool :=
  js_gt (cell rows i brake) (fl (2 # 10)) && js_gt (cell rows i throttle) (fl (5 # 10)).

Definition late_at (speed gear : option string) (rows : list row) (i : nat) : bool :=
  js_gt (cell rows i speed) (of_Z 200) && js_lt (cell rows i gear) (of_Z 5).


(** A header written in ASCII, where [toLowerCase] is the map of the
    letters A to Z. *)
Definition ascii_text (h : string) : Prop :=
  Forall (fun ch => nat_of_ascii ch < 128) (list_ascii_of_string h).


(** The length of a track line read as being about 200: at most half as
    much again. *)
Definition about_200 (n : nat) : Prop := n <= 200 + 200 / 2.

(** The least positive binary64 number and a bound on the coordinates
    below which no difference of two of them overflows. *)
Definition least_positive : Q := Eval vm_compute in Qred (2 ^ (-1074))%Q.
Definition two_1022 : Q := Eval vm_compute in (2 ^ 1022)%Q.

(** A multiple of [2^-1074], as every binary64 number is, of magnitude at
    most [2^1022]. *)
Definition moderate (q : Q) : Prop :=
  (exists k : Z, q == inject_Z k * least_positive)%Q /\
  (- two_1022 <= q)%Q /\ (q <= two_1022)%Q.

(** A cell that holds such a number or [null]. *)
Definition finite_cell (v : jsval) : Prop :=
  v = VNull \/ exists q, v = VNum (Fin q) /\ moderate q.

(** A number between 0 and 100. *)
Definition percent (n : num) : Prop :=
  exists q, n = Fin q /\ (0 <= q)%Q /\ (q <= 100)%Q.

(** The endpoint gives no usable reply and the code goes on to its own
    analysis: no key is configured, the response is not [ok], or its
    content cannot be parsed. *)
Definition falls_through (w : Server1.world) : Prop :=
  Server1.DEEPSEEK_API_KEY w = false \/
  Server1.ai w = Server1.NotOk \/
  Server1.ai w = Server1.ContentThrows.

(** A point whose two coordinates are numbers. *)
Definition numeric_point (p : point) : Prop :=
  exists a b, p = (VNum a, VNum b).

(** A row with both coordinates of the flat format. *)
Definition has_xz (r : row) : bool :=
  not_nullish (get_prop (cells r) "x") && not_nullish (get_prop (cells r) "z").

(** [r.position?.k] *)
Definition position_prop (r : row) (k : string) : jsval :=
  match position r with
  | Some p => get_prop p k
  | None => VUndef
  end.

(** A row with both coordinates of the nested format. *)
Definition has_position (r : row) : bool :=
  not_nullish (position_prop r "x") && not_nullish (position_prop r "z").

(** A point with finite coordinates inside the box [[a, b] x [c, d]]. *)
Definition in_box (a b c d : Q) (p : point) : Prop :=
  exists x z, p = (VNum (Fin x), VNum (Fin z)) /\
              (a <= x)%Q /\ (x <= b)%Q /\ (c <= z)%Q /\ (z <= d)%Q.

(** A decimal digit as a character. *)
Definition digit_char (d : nat) : ascii := ascii_of_N (48 + N.of_nat d).

(** What a problem says, apart from where and how much. *)
Definition kind (p : problem) : string * string := (description p, severity p).

(** *** Runs of requests *)

Section Requests.

Import Api2.

(** Calls [(now, ip)] of the limiter, handled one after the other: the
    verdicts and the map at the end. *)
Fixpoint limiter_run (m : Map (list Z)) (calls : list (Z * string))
  : list bool * Map (list Z) :=
  match calls with
  | [] => ([], m)
  | (now, ip) :: rest =>
      let (verdict, m') := rateLimiter m now ip in
      let (verdicts, m'') := limiter_run m' rest in
      (verdict :: verdicts, m'')
  end.

(** The clock does not go back: each call is at or after [lo] and after
    the call before it. *)
Fixpoint clock_from (lo : Z) (calls : list (Z * string)) : Prop :=
  match calls with
  | [] => True
  | (now, _) :: rest => (lo <= now)%Z /\ clock_from now rest
  end.

(** Of the calls [log] that were let through, those of [ip] less than a
    window before [now]. *)
Definition allowed_in_window (log : list (Z * string)) (now : Z) (ip : string)
  : list Z :=
  map fst (filter (fun c => String.eqb (snd c) ip &&
                            (now - fst c <? RATE_LIMIT_WINDOW)%Z) log).

(** The verdicts by the rule: a call is let through when fewer than
    [MAX_REQUESTS] calls of its address were let through in the window that
    ends with it. *)
Fixpoint window_rule (log : list (Z * string)) (calls : list (Z * string)) : list bool :=
  match calls with
  | [] => []
  | (now, ip) :: rest =>
      let verdict :=
        List.length (allowed_in_window log now ip) <? MAX_REQUESTS in
      verdict :: window_rule (if verdict then log ++ [(now, ip)] else log)%list rest
  end.

(** The instants kept for an address, and those of a list that lie less
    than a window before [now]. *)
Definition entries (m : Map (list Z)) (ip : string) : list Z :=
  match Map_get m ip with Some l => l | None => [] end.

Definition in_window (now : Z) (l : list Z) : list Z :=
  filter (fun time => (now - time <? RATE_LIMIT_WINDOW)%Z) l.

(** Requests to [POST /analyze] handled one after the other. *)
Fixpoint analyze_run (st : store) (calls : list (analyze_world * analyze_request))
  : list response * store :=
  match calls with
  | [] => ([], st)
  | (w, req) :: rest =>
      let (r, st') := analyze st w req in
      let (rs, st'') := analyze_run st' rest in
      (r :: rs, st'')
  end.

(** A request that gets past [auth] and the upload: its token names a
    stored user and the upload is not refused. *)
Definition passes_middleware (users : Map user) (req : analyze_request) : Prop :=
  (exists key, authorization req = Token key /\ Map_get users key <> None) /\
  req_file req <> UploadError.

Definition limiter_call (c : analyze_world * analyze_request) : Z * string :=
  (limiter_now (fst c), ip (snd c)).

(** The stores that the routes produce when every request is handled
    from its start to its end before the next one, from the empty maps of
    the start of the server; [POST /login] does not write. *)
Inductive sequential : store -> Prop :=
| sequential_start : sequential (mkStore [] [])
| sequential_register (st : store) (w : register_world) (req : register_request) :
    sequential st -> sequential (snd (register st w req))
| sequential_analyze (st : store) (w : analyze_world) (req : analyze_request) :
    sequential st -> sequential (snd (analyze st w req)).

(** The server between two turns of the event loop: the store, and the
    registrations that have passed the test of the address and wait for
    [bcrypt.hash].  A registration that finds its address taken writes
    nothing. *)
Inductive running : list register_request -> store -> Prop :=
| running_start : running [] (mkStore [] [])
| running_check (pending : list register_request) (st : store)
    (req : register_request) :
    running pending st -> register_check st req = false ->
    running (req :: pending) st
| running_write (earlier later : list register_request) (st : store)
    (w : register_world) (req : register_request) :
    running (earlier ++ req :: later)%list st ->
    running (earlier ++ later)%list (snd (register_write st w req))
| running_analyze (pending : list register_request) (st : store)
    (w : analyze_world) (req : analyze_request) :
    running pending st -> running pending (snd (analyze st w req)).

(** The stores that the routes can produce. *)
Definition reachable (st : store) : Prop := exists pending, running pending st.





End Requests.

(** A request that [POST /analyze] of the second copy hands to the
    analysis: the token names a stored user, the limiter lets the call
    through, a file came and can be read and removed, and the three
    fields are there. *)
Definition analysed (st : Api2.store) (w : Api2.analyze_world)
    (req : Api2.analyze_request) (content : text) (P : parsers) : Prop :=
  (exists key, Api2.authorization req = Api2.Token key /\
               Api2.Map_get (Api2.users st) key <> None) /\
  fst (Api2.rateLimiter (Api2.analysisRateLimit st) (Api2.limiter_now w)
         (Api2.ip req)) = true /\
  Api2.req_file req = Api2.File (Ok content) P None /\
  Api2.missing (Api2.req_track req) = false /\
  Api2.missing (Api2.req_carClass req) = false /\
  Api2.missing (Api2.req_game req) = false.

(** ** Sample inputs *)

(** A CSV table of 399 rows with the columns [x] and [z]. *)
Definition table_399 : parsers :=
  mkParsers (repeat [("x", VNum (of_Z 1)); ("z", VNum (of_Z 2))] 399)
            (Throw "Unexpected token x in JSON at position 0").

(** One sample of a flat JSON array. *)
Definition sample (x z speed : Z) (brake : Q) : row :=
  mkRow [("x", VNum (of_Z x)); ("z", VNum (of_Z z));
         ("speed", VNum (of_Z speed)); ("brake", VNum (fl brake))] None.

(** Twelve samples at the same place; at index 10 the brake is at 0.9 and
    the speed falls from 250 to 220. *)
Definition standstill : list elem :=
  (map (fun _ => ERow (sample 5 7 250 0)) (seq 0 10) ++
   [ERow (sample 5 7 220 (9 # 10)); ERow (sample 5 7 220 0)])%list.

(** Twelve samples with a constant [x] and a growing [z]; the sample at
    index 10 has no [z]. *)
Definition gap_in_z : list elem :=
  (map (fun i => ERow (sample 5 (Z.of_nat i) 250 0)) (seq 0 10) ++
   [ERow (mkRow [("x", VNum (of_Z 5)); ("speed", VNum (of_Z 220));
                 ("brake", VNum (fl (9 # 10)))] None);
    ERow (sample 5 11 220 0)])%list.

(** Seven points on a line. *)
Definition ramp : list point :=
  map (fun i => (VNum (of_nat i), VNum (of_nat (2 * i)))) (seq 0 7).

(** The text [{"foo":1}] and what the parsers make of it. *)
Definition quote : string := String (ascii_of_nat 34) EmptyString.

Definition foo_text : text :=
  map nat_of_ascii (list_ascii_of_string ("{" ++ quote ++ "foo" ++ quote ++ ":1}")).

Definition foo_parsed : parsers := mkParsers [] (Ok JOther).

(** A text that is sniffed as JSON and that [JSON.parse] refuses. *)
Definition broken_text : text :=
  map nat_of_ascii (list_ascii_of_string "{x").

Definition broken_parsed : parsers :=
  mkParsers [] (Throw "Unexpected token x in JSON at position 1").

(** A CSV text of two lines and its table. *)
Definition small_text : text :=
  (map nat_of_ascii (list_ascii_of_string "x,z,speed,brake") ++
   [10] ++ map nat_of_ascii (list_ascii_of_string "1,2,250,0"))%list.

Definition small_parsed : parsers :=
  mkParsers [cells (sample 1 2 250 0)] (Throw "Unexpected token x in JSON at position 0").

(** A stand-in for [Math.sin]. *)
Definition flat_sine : Z -> Q := fun _ => 0%Q.

(** A reading with a speed that is no whole number. *)
Definition reading (x z : Z) (speed brake : Q) : row :=
  mkRow [("x", VNum (of_Z x)); ("z", VNum (of_Z z));
         ("speed", VNum (fl speed)); ("brake", VNum (fl brake))] None.

(** The speeds of a run of 22 readings: 250, from index 10 on 228.5, then
    20.3 at index 19 and 0.3 from index 20 on. *)
Definition run_speed (i : nat) : Q :=
  if i <? 10 then 250
  else if i <? 19 then 2285 # 10
  else if i =? 19 then 203 # 10
  else 3 # 10.

(** The run, along a line, with the brake at 0.9 at the indices 10 and
    20. *)
Definition braking_run : list row :=
  map (fun i => reading (Z.of_nat i) (2 * Z.of_nat i) (run_speed i)
                  (if (i =? 10) || (i =? 20) then 9 # 10 else 0))
      (seq 0 22).

(** A CSV table with the columns [speed] and [brake] only. *)
Definition speed_and_brake (speed : Z) (brake : Q) : row :=
  mkRow [("speed", VNum (of_Z speed)); ("brake", VNum (fl brake))] None.

(** Twelve such rows; at index 10 the brake is at 0.9 and the speed falls
    from 250 to 220. *)
Definition blind : list row :=
  (repeat (speed_and_brake 250 0) 10 ++
   [speed_and_brake 220 (9 # 10); speed_and_brake 220 0])%list.

Definition blind_table : parsers :=
  mkParsers (map cells blind) (Throw "Unexpected token s in JSON at position 0").

(** A JSON array of 400 samples. *)
Definition long_array : list row := repeat (sample 1 2 250 0) 400.

(** A JSON array with a [null] among its samples. *)
Definition holed_array : parsers :=
  mkParsers [] (Ok (JArray [ERow (sample 1 2 250 0); ENull; ERow (sample 3 4 250 0)])).

Section SampleRequests.

Import Api2.

(** A registration. *)
Definition alice : register_request :=
  mkRegister "alice@example.com" "correct horse" "Alice" None.

Definition alice_world : register_world :=
  mkRegisterWorld (Ok "$2b$10$N9qo8uLOickgx2ZMRZoMye") "7d9f0a52" "Alice"
                  "2025-01-01T00:00:00.000Z" "token-of-alice".

(** A second registration with the address of the first. *)
Definition mallory : register_request :=
  mkRegister "alice@example.com" "battery staple" "Mallory" None.

Definition mallory_world : register_world :=
  mkRegisterWorld (Ok "$2b$10$7uWqg1zVbJ8hTtR5sYk3cO") "1b2c3d4e" "Mallory"
                  "2025-01-01T00:00:01.000Z" "token-of-mallory".


(** [bcrypt.compare] for the two passwords and hashes of above. *)
Definition either_login : login_world :=
  mkLoginWorld
    (fun password hash =>
       Ok (String.eqb password "correct horse" &&
           String.eqb hash "$2b$10$N9qo8uLOickgx2ZMRZoMye" ||
           String.eqb password "battery staple" &&
           String.eqb hash "$2b$10$7uWqg1zVbJ8hTtR5sYk3cO"))
    "another-token".

(** A reply of the endpoint with every member that the code reads. *)
Definition full_reply : Server2.ai_analysis :=
  Server2.mkAiAnalysis (Some ("1:45.300", "0.8s")) "Late apex in turn 3"
    (Some [("turn1", "Brake 10 m later")]) "S1 fine" "Brake later".

(** A report. *)
Definition a_report : Server2.result2 :=
  {| Server2.id := 1700000000000;
     Server2.date := "2025-01-02T00:00:00.000Z";
     Server2.r_track := "Spa";
     Server2.r_carClass := "GT3";
     Server2.r_game := "ACC";
     Server2.status := "completed";
     Server2.speedAnalysis := "Late apex in turn 3";
     Server2.brakingPoints := [("turn1", "Brake 10 m later")];
     Server2.lapTime := "1:45.300";
     Server2.topSpeed := of_Z 250;
     Server2.avgSpeed := of_Z 250;
     Server2.throttleUsage := of_Z 0;
     Server2.brakingPointCount := 1;
     Server2.improvement := "0.8s";
     Server2.trackPoints := [];
     Server2.errors := [];
     Server2.sectors := "S1 fine";
     Server2.recommendations := "Brake later" |}.

Definition an_analysis : analyze_world :=
  mkAnalyzeWorld 1000
    (Server2.mkWorld (Server2.Analysed full_reply) 1700000000000
       "2025-01-02T00:00:00.000Z")
    (1 # 2).

(** An upload of the CSV text of above by the user of the token. *)
Definition an_upload (key : string) : analyze_request :=
  mkAnalyze (Token key) "10.0.0.1" (File (Ok small_text) small_parsed None)
            (Some "Spa") (Some "GT3") (Some "ACC").

(** The store after the registration and one analysis. *)
Definition after_registration : store :=
  snd (register (mkStore [] []) alice_world alice).

(** The store after both registrations, the second of which tested the
    address before the first one wrote. *)
Definition after_overlap : store :=
  snd (register_write after_registration mallory_world mallory).


End SampleRequests.

(** A CSV table whose speed column is named [Speed_kmh]. *)
Definition kmh_table : parsers :=
  mkParsers
    (repeat [("x", VNum (of_Z 1)); ("z", VNum (of_Z 2));
             ("Speed_kmh", VNum (of_Z 250))] 3)
    (Throw "Unexpected token x in JSON at position 0").

Definition kmh_text : text :=
  map nat_of_ascii (list_ascii_of_string "x,z,Speed_kmh").

Definition blind_text : text :=
  map nat_of_ascii (list_ascii_of_string "speed,brake").

Definition replying : Server2.world :=
  Server2.mkWorld (Server2.Analysed full_reply) 1700000000000
    "2025-01-02T00:00:00.000Z".

(** A JSON array of pairs, which has no brace. *)
Definition pairs_text : text :=
  map nat_of_ascii (list_ascii_of_string "[[1,2],[3,4],[5,6],[7,8]]").

(** ** Rounding *)

Section Rounding.

Local Open Scope Q_scope.

Lemma rhe_cases (x : Q) :
  (rhe x = Qfloor x /\ x - inject_Z (Qfloor x) <= 1 # 2) \/
  (rhe x = (Qfloor x + 1)%Z /\ 1 # 2 <= x - inject_Z (Qfloor x)).
Proof.
  unfold rhe. destruct (Qcompare_spec (x - inject_Z (Qfloor x)) (1 # 2)) as [E|L|G].
  - destruct (Z.even (Qfloor x)); [left|right]; split; try reflexivity; lra.
  - left. split; [reflexivity|lra].
  - right. split; [reflexivity|lra].
Qed.

Lemma rhe_comp (x y : Q) : x == y -> rhe x = rhe y.
Proof.
  intros E. unfold rhe. rewrite (Qfloor_comp x y E).
  assert (H : x - inject_Z (Qfloor y) == y - inject_Z (Qfloor y)) by lra.
  now rewrite (Qcompare_comp _ _ H _ _ (Qeq_refl _)).
Qed.

Lemma rhe_Z (n : Z) : rhe (inject_Z n) = n.
Proof.
  unfold rhe. rewrite Qfloor_Z.
  destruct (Qcompare_spec (inject_Z n - inject_Z n) (1 # 2)) as [E|L|G];
    try reflexivity; exfalso; lra.
Qed.

Lemma rhe_mono (x y : Q) : x <= y -> (rhe x <= rhe y)%Z.
Proof.
  intros H. pose proof (Qfloor_resp_le x y H) as F.
  destruct (Z.eq_dec (Qfloor x) (Qfloor y)) as [E|N].
  - unfold rhe. rewrite E.
    destruct (Qcompare_spec (x - inject_Z (Qfloor y)) (1 # 2)) as [Ex|Lx|Gx];
    destruct (Qcompare_spec (y - inject_Z (Qfloor y)) (1 # 2)) as [Ey|Ly|Gy];
      try destruct (Z.even (Qfloor y)); try lia; exfalso; lra.
  - destruct (rhe_cases x) as [[-> _]|[-> _]], (rhe_cases y) as [[-> _]|[-> _]]; lia.
Qed.

Lemma rhe_nonneg (x : Q) : 0 <= x -> (0 <= rhe x)%Z.
Proof. intros H. change 0%Z with (rhe (inject_Z 0)). now apply rhe_mono. Qed.

(** ** Powers of two *)

Lemma pow2_pos (e : Z) : 0 < 2 ^ e.
Proof. now apply Qpower_0_lt. Qed.

Lemma pow2_plus (a b : Z) : 2 ^ (a + b) == 2 ^ a * 2 ^ b.
Proof. apply Qpower_plus. discriminate. Qed.

Lemma pow2_le (a b : Z) : (a <= b)%Z -> 2 ^ a <= 2 ^ b.
Proof. intros H. apply Qpower_le_compat_l; [exact H|discriminate]. Qed.

Lemma pow2_lt (a b : Z) : (a < b)%Z -> 2 ^ a < 2 ^ b.
Proof. intros H. apply Qpower_lt_compat_l; [exact H|reflexivity]. Qed.

Lemma pow2_lt_inv (a b : Z) : 2 ^ a < 2 ^ b -> (a < b)%Z.
Proof. intros H. apply (Qpower_lt_compat_l_inv 2); [exact H|reflexivity]. Qed.

Lemma pow2_Z (n : Z) : (0 <= n)%Z -> inject_Z (2 ^ n) == 2 ^ n.
Proof. intros H. now rewrite Zpower_Qpower. Qed.

(** ** The exponent *)

Lemma ilog2_spec (q : Q) : 0 < q -> 2 ^ ilog2 q <= q /\ q < 2 ^ (ilog2 q + 1).
Proof.
  intros Hq. destruct q as [n d]. unfold ilog2. cbn [Qnum Qden].
  assert (Hn : (0 < n)%Z) by (unfold Qlt in Hq; simpl in Hq; lia).
  destruct (Z.log2_spec n Hn) as [N1 N2].
  destruct (Z.log2_spec (Z.pos d) eq_refl) as [D1 D2].
  pose proof (Z.log2_nonneg n) as Ln. pose proof (Z.log2_nonneg (Z.pos d)) as Ld.
  set (ln := Z.log2 n) in *. set (ld := Z.log2 (Z.pos d)) in *.
  assert (Q1 : 2 ^ ln <= inject_Z n).
  { rewrite <- pow2_Z by exact Ln. now rewrite <- Zle_Qle. }
  assert (Q2 : inject_Z n < 2 ^ (ln + 1)).
  { rewrite <- pow2_Z by lia. rewrite <- Zlt_Qlt. now rewrite <- Z.add_1_r in N2. }
  assert (Q3 : 2 ^ ld <= inject_Z (Z.pos d)).
  { rewrite <- pow2_Z by exact Ld. now rewrite <- Zle_Qle. }
  assert (Q4 : inject_Z (Z.pos d) < 2 ^ (ld + 1)).
  { rewrite <- pow2_Z by lia. rewrite <- Zlt_Qlt. now rewrite <- Z.add_1_r in D2. }
  assert (Dp : 0 < inject_Z (Z.pos d)) by reflexivity.
  assert (E : n # d == inject_Z n / inject_Z (Z.pos d)) by apply Qmake_Qdiv.
  assert (U : n # d < 2 ^ (ln - ld + 1)).
  { rewrite E. apply Qlt_shift_div_r; [exact Dp|].
    apply Qlt_le_trans with (2 ^ (ln + 1)); [exact Q2|].
    replace (ln + 1)%Z with ((ln - ld + 1) + ld)%Z by lia. rewrite pow2_plus.
    apply Qmult_le_l; [apply pow2_pos|exact Q3]. }
  assert (L : 2 ^ (ln - ld - 1) < n # d).
  { rewrite E. apply Qlt_shift_div_l; [exact Dp|].
    apply Qlt_le_trans with (2 ^ ln); [|exact Q1].
    replace ln with ((ln - ld - 1) + (ld + 1))%Z at 2 by lia. rewrite pow2_plus.
    apply Qmult_lt_l; [apply pow2_pos|exact Q4]. }
  destruct (Qle_bool (2 ^ (ln - ld)) (n # d)) eqn:B.
  - apply Qle_bool_iff in B. split; [exact B|exact U].
  - split; [now apply Qlt_le_weak|].
    replace (ln - ld - 1 + 1)%Z with (ln - ld)%Z by lia.
    apply Qnot_le_lt. intros C. apply Qle_bool_iff in C. congruence.
Qed.

Lemma ilog2_mono (x y : Q) : 0 < x -> x <= y -> (ilog2 x <= ilog2 y)%Z.
Proof.
  intros Hx H. destruct (ilog2_spec x Hx) as [L _].
  destruct (ilog2_spec y ltac:(lra)) as [_ U].
  assert (2 ^ ilog2 x < 2 ^ (ilog2 y + 1)) by lra.
  apply pow2_lt_inv in H0. lia.
Qed.

Lemma quantum_mono (x y : Q) : 0 < x -> x <= y -> (quantum x <= quantum y)%Z.
Proof. intros Hx H. unfold quantum. pose proof (ilog2_mono x y Hx H). lia. Qed.

(** ** The grid *)

Lemma scaled_le (x y : Q) (u : Z) : x <= y -> x / 2 ^ u <= y / 2 ^ u.
Proof.
  intros H. unfold Qdiv. apply Qmult_le_compat_r; [exact H|].
  apply Qlt_le_weak, Qinv_lt_0_compat, pow2_pos.
Qed.

Lemma on_grid_nonneg (q : Q) : 0 < q -> 0 <= on_grid q.
Proof.
  intros H. unfold on_grid. apply Qmult_le_0_compat.
  - change 0 with (inject_Z 0). rewrite <- Zle_Qle. apply rhe_nonneg.
    apply Qle_shift_div_l; [apply pow2_pos|]. lra.
  - apply Qlt_le_weak, pow2_pos.
Qed.

Lemma pow2_div (a b : Z) : 2 ^ a / 2 ^ b == 2 ^ (a - b).
Proof. symmetry. apply Qpower_minus. discriminate. Qed.

(** Below [2^(u + 53)] the grid value is at most that power. *)
Lemma on_grid_upper (q : Q) : 0 < q -> on_grid q <= 2 ^ (quantum q + 53).
Proof.
  intros H. unfold on_grid. set (u := quantum q).
  destruct (ilog2_spec q H) as [_ U].
  assert (Hu : (ilog2 q + 1 <= u + 53)%Z) by (unfold u, quantum; lia).
  assert (B : q / 2 ^ u <= inject_Z (2 ^ 53)).
  { apply Qle_shift_div_r; [apply pow2_pos|].
    rewrite pow2_Z by lia. rewrite <- pow2_plus.
    apply Qlt_le_weak, Qlt_le_trans with (2 ^ (ilog2 q + 1)); [exact U|].
    apply pow2_le. lia. }
  apply rhe_mono in B. rewrite rhe_Z in B.
  rewrite (Z.add_comm u 53), pow2_plus, <- (pow2_Z 53) by lia.
  apply Qmult_le_compat_r; [|apply Qlt_le_weak, pow2_pos].
  now rewrite <- Zle_Qle.
Qed.

(** A normal number lies at or above [2^(u + 52)], and so does its grid
    value. *)
Lemma on_grid_lower (q : Q) :
  0 < q -> (-1074 < quantum q)%Z -> 2 ^ (quantum q + 52) <= on_grid q.
Proof.
  intros H N. unfold on_grid. set (u := quantum q) in *.
  destruct (ilog2_spec q H) as [L _].
  assert (Hu : (u + 52 = ilog2 q)%Z) by (unfold u, quantum in *; lia).
  assert (B : inject_Z (2 ^ 52) <= q / 2 ^ u).
  { apply Qle_shift_div_l; [apply pow2_pos|].
    rewrite pow2_Z by lia. rewrite <- pow2_plus.
    rewrite (Z.add_comm 52 u), Hu. exact L. }
  apply rhe_mono in B. rewrite rhe_Z in B.
  rewrite (Z.add_comm u 52), pow2_plus, <- (pow2_Z 52) by lia.
  apply Qmult_le_compat_r; [|apply Qlt_le_weak, pow2_pos].
  now rewrite <- Zle_Qle.
Qed.

Lemma on_grid_mono (x y : Q) : 0 < x -> x <= y -> on_grid x <= on_grid y.
Proof.
  intros Hx H. assert (Hy : 0 < y) by lra.
  pose proof (quantum_mono x y Hx H) as Q.
  destruct (Z.eq_dec (quantum x) (quantum y)) as [E|N].
  - unfold on_grid. rewrite E.
    apply Qmult_le_compat_r; [|apply Qlt_le_weak, pow2_pos].
    rewrite <- Zle_Qle. apply rhe_mono, scaled_le, H.
  - apply Qle_trans with (2 ^ (quantum x + 53)); [now apply on_grid_upper|].
    apply Qle_trans with (2 ^ (quantum y + 52)).
    + apply pow2_le. lia.
    + apply on_grid_lower; [exact Hy|].
      assert (-1074 <= quantum x)%Z by (unfold quantum; lia). lia.
Qed.

Lemma round_pos_mono (x y : Q) :
  0 < x -> x <= y -> num_le (round_pos x) (round_pos y).
Proof.
  intros Hx H. pose proof (on_grid_mono x y Hx H) as M. unfold round_pos.
  destruct (Qle_bool two_1024 (on_grid x)) eqn:Bx.
  - apply Qle_bool_iff in Bx.
    assert (By : Qle_bool two_1024 (on_grid y) = true)
      by (apply Qle_bool_iff; lra).
    rewrite By. exact I.
  - destruct (Qle_bool two_1024 (on_grid y)); [exact I|].
    cbn [num_le]. now rewrite !Qred_correct.
Qed.

Lemma round_pos_nonneg (q : Q) : 0 < q -> num_le (Fin 0) (round_pos q).
Proof.
  intros H. unfold round_pos. destruct (Qle_bool _ _); [exact I|].
  cbn [num_le]. rewrite Qred_correct. now apply on_grid_nonneg.
Qed.

Lemma num_le_neg (a b : num) : num_le a b -> num_le (num_neg b) (num_neg a).
Proof.
  destruct a, b; simpl; try tauto. intros H. lra.
Qed.

Lemma num_le_trans (a b c : num) : num_le a b -> num_le b c -> num_le a c.
Proof.
  destruct a, b, c; simpl; try tauto. intros; lra.
Qed.

(** Rounding keeps the order. *)
Lemma fl_mono (x y : Q) : x <= y -> num_le (fl x) (fl y).
Proof.
  intros H. unfold fl.
  destruct (Qcompare_spec x 0) as [Ex|Lx|Gx], (Qcompare_spec y 0) as [Ey|Ly|Gy];
    try (exfalso; lra).
  - simpl. lra.
  - now apply round_pos_nonneg.
  - change (Fin 0) with (num_neg (Fin 0)). apply num_le_neg, round_pos_nonneg. lra.
  - apply num_le_neg, round_pos_mono; lra.
  - apply num_le_trans with (Fin 0).
    + change (Fin 0) with (num_neg (Fin 0)). apply num_le_neg, round_pos_nonneg. lra.
    + now apply round_pos_nonneg.
  - now apply round_pos_mono.
Qed.

Lemma fl_zero (q : Q) : q == 0 -> fl q = Fin 0.
Proof. intros H. unfold fl. apply Qeq_alt in H. now rewrite H. Qed.

(** ** Whole numbers *)

Lemma two_53 : inject_Z (2 ^ 53) == 2 ^ 53.
Proof. apply pow2_Z. lia. Qed.

(** A whole number below [2^53] lies on the grid. *)
Lemma on_grid_Z (z : Z) :
  (0 < z < 2 ^ 53)%Z -> on_grid (inject_Z z) == inject_Z z.
Proof.
  intros [Hz Hb]. set (q := inject_Z z).
  assert (Hq : 0 < q) by (unfold q; change 0 with (inject_Z 0); now rewrite <- Zlt_Qlt).
  assert (H1 : 1 <= q)
    by (unfold q; change 1 with (inject_Z 1); rewrite <- Zle_Qle; lia).
  assert (H53 : q < 2 ^ 53)
    by (rewrite <- two_53; unfold q; now rewrite <- Zlt_Qlt).
  destruct (ilog2_spec q Hq) as [L U].
  assert (E0 : (0 <= ilog2 q)%Z).
  { destruct (Z_lt_le_dec (ilog2 q) 0) as [N|N]; [exfalso|exact N].
    pose proof (pow2_le (ilog2 q + 1) 0 ltac:(lia)) as P.
    change (2 ^ 0) with 1 in P. lra. }
  assert (E52 : (ilog2 q <= 52)%Z).
  { assert (P : 2 ^ ilog2 q < 2 ^ 53) by lra. apply pow2_lt_inv in P. lia. }
  unfold on_grid. replace (quantum q) with (ilog2 q - 52)%Z by (unfold quantum; lia).
  set (u := (ilog2 q - 52)%Z).
  assert (Hu : (0 <= - u)%Z) by (unfold u; lia).
  assert (Inv : 2 ^ u * 2 ^ (- u) == 1).
  { rewrite <- pow2_plus. now replace (u + - u)%Z with 0%Z by lia. }
  assert (Scaled : q / 2 ^ u == inject_Z (z * 2 ^ (- u))).
  { rewrite inject_Z_mult, (pow2_Z _ Hu), Qpower_opp. reflexivity. }
  rewrite (rhe_comp _ _ Scaled), rhe_Z, inject_Z_mult, (pow2_Z _ Hu). fold q.
  rewrite <- Qmult_assoc, (Qmult_comm (2 ^ (- u))), Inv. ring.
Qed.

Lemma round_pos_Z (z : Z) :
  (0 < z < 2 ^ 53)%Z ->
  exists q, round_pos (inject_Z z) = Fin q /\ q == inject_Z z.
Proof.
  intros H. unfold round_pos. cbv zeta.
  pose proof (on_grid_Z z H) as E.
  destruct (Qle_bool two_1024 (on_grid (inject_Z z))) eqn:B.
  - exfalso. apply Qle_bool_iff in B. rewrite E in B.
    assert (T : inject_Z z < inject_Z (2 ^ 53)) by (rewrite <- Zlt_Qlt; lia).
    assert (V : inject_Z (2 ^ 53) <= two_1024) by (vm_compute; discriminate).
    lra.
  - eexists. split; [reflexivity|]. now rewrite Qred_correct.
Qed.

(** The whole numbers of magnitude below [2^53] are binary64 numbers. *)
Lemma fl_integer (z : Z) :
  (Z.abs z < 2 ^ 53)%Z -> exists q, fl (inject_Z z) = Fin q /\ q == inject_Z z.
Proof.
  intros H. unfold fl.
  destruct (Qcompare_spec (inject_Z z) 0) as [E|L|G].
  - exists 0. split; [reflexivity|]. now symmetry.
  - assert (Hz : (z < 0)%Z) by (change 0 with (inject_Z 0) in L; now rewrite <- Zlt_Qlt in L).
    destruct (round_pos_Z (- z) ltac:(lia)) as [q [Eq Hq]].
    rewrite <- inject_Z_opp, Eq. exists (- q). split; [reflexivity|].
    rewrite Hq, inject_Z_opp. ring.
  - assert (Hz : (0 < z)%Z) by (change 0 with (inject_Z 0) in G; now rewrite <- Zlt_Qlt in G).
    apply round_pos_Z. lia.
Qed.

End Rounding.

(** From here on [fl] is computed by [vm_compute] only. *)
Opaque fl.

(** ** Lists *)

Lemma flat_map_nil_on {A B : Type} (f : A -> list B) (l : list A) :
  (forall a, In a l -> f a = []) -> flat_map f l = [].
Proof.
  induction l as [|a l IH]; intros H; simpl; [reflexivity|].
  rewrite (H a (or_introl eq_refl)), IH; [reflexivity|].
  intros b Hb. apply H. now right.
Qed.

Lemma filter_flat_map {A B : Type} (p : B -> bool) (f : A -> list B) (l : list A) :
  filter p (flat_map f l) = flat_map (fun a => filter p (f a)) l.
Proof.
  induction l as [|a l IH]; simpl; [reflexivity|].
  now rewrite filter_app, IH.
Qed.

Lemma flat_map_guard {A B : Type} (c : A -> bool) (f : A -> B) (l : list A) :
  flat_map (fun a => if c a then [f a] else []) l = map f (filter c l).
Proof.
  induction l as [|a l IH]; simpl; [reflexivity|].
  rewrite IH. now destruct (c a).
Qed.

Lemma mapi_from_length {A B : Type} (f : nat -> A -> B) (l : list A) (k : nat) :
  List.length (mapi_from f k l) = List.length l.
Proof.
  revert k. induction l as [|a l IH]; intros k; simpl; [reflexivity|].
  now rewrite IH.
Qed.

Lemma mapi_from_nth {A B : Type} (f : nat -> A -> B) (l : list A) (k i : nat) (d : B) (a : A) :
  i < List.length l ->
  nth i (mapi_from f k l) d = f (k + i) (nth i l a).
Proof.
  revert k i. induction l as [|x l IH]; intros k i Hi; simpl in *; [lia|].
  destruct i as [|i].
  - now rewrite Nat.add_0_r.
  - rewrite IH by lia. f_equal. lia.
Qed.

Lemma rows_of_ERow (rows : list row) : rows_of (map ERow rows) = rows.
Proof.
  induction rows as [|r rows IH]; simpl; [reflexivity|]. now rewrite IH.
Qed.

Lemma column_values_ERow (rows : list row) (c : option string) :
  column_values (map ERow rows) c = Ok (column_of rows c).
Proof.
  unfold column_values, column_of.
  induction rows as [|r rows IH]; simpl; [reflexivity|].
  now rewrite IH.
Qed.

(** ** Short inputs *)

Lemma not_evaluated_below_10 (i : nat) : 1 <= i < 10 -> evaluated i = false.
Proof.
  intros H. unfold evaluated. apply Nat.eqb_neq.
  rewrite Nat.mod_small by lia. lia.
Qed.

Lemma scan2_short c allX allY rows n :
  n < 12 -> Server2.scan c allX allY rows n = [].
Proof.
  intros Hn. unfold Server2.scan. apply flat_map_nil_on.
  intros i Hi. apply in_seq in Hi. unfold Server2.iteration.
  now rewrite not_evaluated_below_10 by lia.
Qed.

Lemma scan1_short c allX allY rows n :
  n < 12 -> Server1.scan c allX allY rows n = [].
Proof.
  intros Hn. unfold Server1.scan. apply flat_map_nil_on.
  intros i Hi. apply in_seq in Hi. unfold Server1.iteration.
  now rewrite not_evaluated_below_10 by lia.
Qed.

(** C10.  On fewer than 12 entries both copies of the detector return the
    empty list of problems, whatever the entries are (a [null] entry
    included): no index in [1, n-2] is a multiple of 10. *)
Theorem short_input_no_problem (dataPoints : list elem) (fmt : format) :
  List.length dataPoints < 12 ->
  Server2.findProblemAreas dataPoints fmt = [] /\
  Server1.findProblemAreas dataPoints fmt = [].
Proof.
  intros Hn. split.
  - unfold Server2.findProblemAreas, Server2.findProblemAreas_try.
    destruct dataPoints as [|first rest]; [reflexivity|].
    destruct (keys_of first) as [headers|]; simpl; [|reflexivity].
    destruct (column_values _ _) as [allX|]; simpl; [|reflexivity].
    destruct (column_values _ _) as [allY|]; simpl; [|reflexivity].
    now apply scan2_short.
  - unfold Server1.findProblemAreas, Server1.findProblemAreas_try.
    destruct dataPoints as [|first rest]; [reflexivity|].
    destruct (keys_of first) as [headers|]; simpl; [|reflexivity].
    destruct (column_values _ _) as [allX|]; simpl; [|reflexivity].
    destruct (column_values _ _) as [allY|]; simpl; [|reflexivity].
    now apply scan1_short.
Qed.

Lemma short_input_no_problem_witness :
  Server2.findProblemAreas [ENull; csv_row [("speed", VNum (of_Z 250))]] csv = [] /\
  Server1.findProblemAreas [ENull; csv_row [("speed", VNum (of_Z 250))]] csv = [].
Proof.
  apply short_input_no_problem. simpl. lia.
Defined.

(** ** The order of the numbers *)

Lemma Qlt_bool_iff (a b : Q) : Qlt_bool a b = true <-> (a < b)%Q.
Proof.
  unfold Qlt_bool. rewrite negb_true_iff. split.
  - intros H. apply Qnot_le_lt. intros L. apply Qle_bool_iff in L. congruence.
  - intros H. destruct (Qle_bool b a) eqn:E; [|reflexivity].
    apply Qle_bool_iff in E. exfalso. apply (Qlt_not_le _ _ H E).
Qed.

Lemma Qlt_bool_false (a b : Q) : Qlt_bool a b = false <-> (b <= a)%Q.
Proof.
  unfold Qlt_bool. rewrite negb_false_iff. apply Qle_bool_iff.
Qed.

Lemma num_lt_spec (a b : num) :
  a <> NaN -> b <> NaN ->
  (num_lt a b = true -> num_le a b) /\ (num_lt a b = false -> num_le b a).
Proof.
  intros Ha Hb. destruct a as [| |x|], b as [| |y|]; try congruence;
    cbn [num_lt num_le]; split; intros H; try exact I; try discriminate H.
  - apply Qlt_bool_iff in H. now apply Qlt_le_weak.
  - now apply Qlt_bool_false in H.
Qed.

Lemma num_le_refl (a : num) : a <> NaN -> num_le a a.
Proof. destruct a; cbn [num_le]; try tauto. intros _. apply Qle_refl. Qed.

Lemma min2_not_nan (a b : num) : a <> NaN -> b <> NaN -> min2 a b <> NaN.
Proof.
  intros Ha Hb. destruct a, b; try congruence; cbn [min2];
    match goal with |- (if ?c then _ else _) <> _ => destruct c end; congruence.
Qed.

Lemma max2_not_nan (a b : num) : a <> NaN -> b <> NaN -> max2 a b <> NaN.
Proof.
  intros Ha Hb. destruct a, b; try congruence; cbn [max2];
    match goal with |- (if ?c then _ else _) <> _ => destruct c end; congruence.
Qed.

Lemma min2_below (a b : num) :
  a <> NaN -> b <> NaN -> num_le (min2 a b) a /\ num_le (min2 a b) b.
Proof.
  intros Ha Hb. destruct (num_lt_spec b a Hb Ha) as [L G].
  assert (E : min2 a b = if num_lt b a then b else a)
    by (destruct a, b; try congruence; reflexivity).
  rewrite E. destruct (num_lt b a).
  - split; [now apply L|now apply num_le_refl].
  - split; [now apply num_le_refl|now apply G].
Qed.

Lemma max2_above (a b : num) :
  a <> NaN -> b <> NaN -> num_le a (max2 a b) /\ num_le b (max2 a b).
Proof.
  intros Ha Hb. destruct (num_lt_spec a b Ha Hb) as [L G].
  assert (E : max2 a b = if num_lt a b then b else a)
    by (destruct a, b; try congruence; reflexivity).
  rewrite E. destruct (num_lt a b).
  - split; [now apply L|now apply num_le_refl].
  - split; [now apply num_le_refl|now apply G].
Qed.

(** The least value of a list is not above the greatest. *)
Lemma extremes_ordered (l : list num) :
  forall lo hi,
    Forall (fun v => v <> NaN) l -> lo <> NaN -> hi <> NaN -> num_le lo hi ->
    num_le (fold_left min2 l lo) (fold_left max2 l hi) /\
    fold_left min2 l lo <> NaN /\ fold_left max2 l hi <> NaN.
Proof.
  induction l as [|v l IH]; intros lo hi F Hlo Hhi H; [now repeat split|].
  apply Forall_cons_iff in F. destruct F as [Hv F]. cbn [fold_left].
  destruct (min2_below lo v Hlo Hv) as [_ A].
  destruct (max2_above hi v Hhi Hv) as [_ B].
  apply IH; [exact F|now apply min2_not_nan|now apply max2_not_nan|].
  exact (num_le_trans _ _ _ A B).
Qed.

Lemma min_le_max (l : list num) :
  l <> [] -> Forall (fun v => v <> NaN) l ->
  num_le (Math_min l) (Math_max l) /\ Math_min l <> NaN /\ Math_max l <> NaN.
Proof.
  intros Hn F. destruct l as [|v l]; [congruence|].
  apply Forall_cons_iff in F. destruct F as [Hv F].
  unfold Math_min, Math_max. cbn [fold_left].
  assert (E1 : min2 PInf v = v) by (destruct v; try congruence; reflexivity).
  assert (E2 : max2 NInf v = v) by (destruct v; try congruence; reflexivity).
  rewrite E1, E2. apply extremes_ordered; try assumption. now apply num_le_refl.
Qed.

Lemma above_or_equal (a b : num) :
  num_le a b -> num_gt b a = negb (num_eqb b a).
Proof.
  destruct a as [| |x|], b as [| |y|]; cbn [num_le num_gt num_lt num_eqb negb];
    try tauto; try reflexivity.
  intros H. destruct (Qeq_bool y x) eqn:E; cbn [negb].
  - apply Qeq_bool_iff in E. apply Qlt_bool_false. lra.
  - apply Qlt_bool_iff. apply Qeq_bool_neq in E. lra.
Qed.

(** ** The position of a problem *)

Lemma or_zero_not_nan (v : jsval) : or_zero v <> NaN.
Proof.
  unfold or_zero. destruct v as [| |[| |q|]]; cbn [truthy ToNumber]; try discriminate.
  destruct (negb _); discriminate.
Qed.

Lemma column_of_not_nan (rows : list row) (c : option string) :
  Forall (fun v => v <> NaN) (column_of rows c).
Proof.
  unfold column_of. apply Forall_forall. intros v Hv.
  apply in_map_iff in Hv. destruct Hv as (r & <- & _). apply or_zero_not_nan.
Qed.

(** The guard [max > min] of the second copy is the test [max == min] of
    the specification, the least value being at most the greatest. *)
Lemma getNorm2_normalized (value : jsval) (rows : list row) (c : option string) :
  rows <> [] ->
  Server2.getNorm value (column_of rows c) = normalized value (column_of rows c).
Proof.
  intros Hn. unfold Server2.getNorm, normalized.
  destruct (min_le_max (column_of rows c)) as [H _].
  - unfold column_of. now destruct rows.
  - apply column_of_not_nan.
  - rewrite (above_or_equal _ _ H). now destruct (num_eqb _ _).
Qed.

Lemma getNorm1_normalized (value : jsval) (vals : list num) :
  num_eqb (Math_max vals) (Math_min vals) = false ->
  Server1.getNorm value vals = normalized value vals.
Proof. intros H. unfold Server1.getNorm, normalized. now rewrite H. Qed.

(** ** The checks of the detector, one by one *)

Lemma findProblemAreas2_rows (rows : list row) (fmt : format) :
  Server2.findProblemAreas (map ERow rows) fmt =
  let c := Server2.resolve (Object_keys (cells (hd empty_row rows))) in
  Server2.scan c (column_of rows (Server2.posX c)) (column_of rows (Server2.posY c))
    rows (List.length rows).
Proof.
  unfold Server2.findProblemAreas, Server2.findProblemAreas_try.
  destruct rows as [|r rows]; [reflexivity|].
  change (map ERow (r :: rows)) with (ERow r :: map ERow rows) at 1.
  cbv beta iota. change (ERow r :: map ERow rows) with (map ERow (r :: rows)).
  unfold keys_of, bind at 1. cbv zeta.
  rewrite !column_values_ERow. cbn [bind catch_empty].
  now rewrite rows_of_ERow, length_map.
Qed.

Lemma findProblemAreas1_rows (rows : list row) (fmt : format) :
  Server1.findProblemAreas (map ERow rows) fmt =
  let c := Server1.resolve (Object_keys (cells (hd empty_row rows))) in
  Server1.scan c (column_of rows (Server1.posX c)) (column_of rows (Server1.posY c))
    rows (List.length rows).
Proof.
  unfold Server1.findProblemAreas, Server1.findProblemAreas_try.
  destruct rows as [|r rows]; [reflexivity|].
  change (map ERow (r :: rows)) with (ERow r :: map ERow rows) at 1.
  cbv beta iota. change (ERow r :: map ERow rows) with (map ERow (r :: rows)).
  unfold keys_of, bind at 1. cbv zeta.
  rewrite !column_values_ERow. cbn [bind catch_empty].
  now rewrite rows_of_ERow, length_map.
Qed.

Lemma filter_guard {A : Type} (p : A -> bool) (b : bool) (a : A) :
  filter p (if b then [a] else []) = if b && p a then [a] else [].
Proof. destruct b; simpl; [now destruct (p a)|reflexivity]. Qed.


Lemma map_flat_map {A B C : Type} (f : B -> C) (g : A -> list B) (l : list A) :
  map f (flat_map g l) = flat_map (fun a => map f (g a)) l.
Proof.
  induction l as [|a l IH]; simpl; [reflexivity|]. now rewrite map_app, IH.
Qed.

Lemma Forall2_map_left {A B : Type} (R : B -> A -> Prop) (f : A -> B) (l : list A) :
  (forall a, In a l -> R (f a) a) -> Forall2 R (map f l) l.
Proof.
  induction l as [|a l IH]; intros H; [constructor|].
  constructor; [apply H; now left|]. apply IH. intros b Hb. apply H. now right.
Qed.

(** What one turn of the loop pushes, by kind. *)
Lemma iteration2_by_kind (c : Server2.columns) allX allY (rows : list row) (i : nat) :
  let position := Server2.position_at c allX allY rows i in
  filter is_harsh (Server2.iteration c allX allY rows i) =
    (if evaluated i && harsh_at (Server2.speed c) (Server2.brake c) rows i
     then [Server2.harsh_braking position (Server2.speedDrop_at c rows i)] else []) /\
  filter is_overlap (Server2.iteration c allX allY rows i) =
    (if evaluated i && overlap_at (Server2.brake c) (Server2.throttle c) rows i
     then [Server2.overlap position] else []) /\
  filter is_late (Server2.iteration c allX allY rows i) =
    (if evaluated i &&
        (found (Server2.gear c) && late_at (Server2.speed c) (Server2.gear c) rows i)
     then [Server2.late_upshift position] else []).
Proof.
  intros position. unfold Server2.iteration. fold position.
  destruct (evaluated i); cbn [negb andb]; [|now repeat split].
  rewrite !filter_app, !filter_guard.
  change (is_harsh (Server2.harsh_braking position (Server2.speedDrop_at c rows i)))
    with true.
  change (is_harsh (Server2.overlap position)) with false.
  change (is_harsh (Server2.late_upshift position)) with false.
  change (is_overlap (Server2.harsh_braking position (Server2.speedDrop_at c rows i)))
    with false.
  change (is_overlap (Server2.overlap position)) with true.
  change (is_overlap (Server2.late_upshift position)) with false.
  change (is_late (Server2.harsh_braking position (Server2.speedDrop_at c rows i)))
    with false.
  change (is_late (Server2.overlap position)) with false.
  change (is_late (Server2.late_upshift position)) with true.
  rewrite !andb_false_r, !andb_true_r, !app_nil_r. cbn [app].
  unfold harsh_at, overlap_at, late_at, cell, Server2.speedDrop_at.
  rewrite <- andb_assoc. now repeat split.
Qed.

Lemma iteration1_by_kind (c : Server1.columns) allX allY (rows : list row) (i : nat) :
  let position := Server1.position_at c allX allY rows i in
  filter is_harsh (Server1.iteration c allX allY rows i) =
    (if evaluated i && harsh_at (Server1.speed c) (Server1.brake c) rows i
     then [Server1.harsh_braking position] else []) /\
  filter is_overlap (Server1.iteration c allX allY rows i) =
    (if evaluated i && overlap_at (Server1.brake c) (Server1.throttle c) rows i
     then [Server1.overlap position] else []) /\
  filter is_late (Server1.iteration c allX allY rows i) =
    (if evaluated i && late_at (Server1.speed c) (Server1.gear c) rows i
     then [Server1.late_upshift position] else []).
Proof.
  intros position. unfold Server1.iteration. fold position.
  destruct (evaluated i); cbn [negb andb]; [|now repeat split].
  rewrite !filter_app, !filter_guard.
  change (is_harsh (Server1.harsh_braking position)) with true.
  change (is_harsh (Server1.overlap position)) with false.
  change (is_harsh (Server1.late_upshift position)) with false.
  change (is_overlap (Server1.harsh_braking position)) with false.
  change (is_overlap (Server1.overlap position)) with true.
  change (is_overlap (Server1.late_upshift position)) with false.
  change (is_late (Server1.harsh_braking position)) with false.
  change (is_late (Server1.overlap position)) with false.
  change (is_late (Server1.late_upshift position)) with true.
  rewrite !andb_false_r, !andb_true_r, !app_nil_r. cbn [app].
  unfold harsh_at, overlap_at, late_at, cell, Server1.speedDrop_at.
  now repeat split.
Qed.

(** The harsh-braking problems of a scan: one for each index that
    qualifies, in the order of the indices. *)
Lemma scan2_harsh (c : Server2.columns) allX allY (rows : list row) (n : nat) :
  filter is_harsh (Server2.scan c allX allY rows n) =
  map (fun i => Server2.harsh_braking (Server2.position_at c allX allY rows i)
                  (Server2.speedDrop_at c rows i))
      (filter (fun i => evaluated i &&
                        harsh_at (Server2.speed c) (Server2.brake c) rows i)
              (seq 1 (n - 2))).
Proof.
  unfold Server2.scan. rewrite filter_flat_map, <- flat_map_guard.
  apply flat_map_ext. intros i. apply (iteration2_by_kind c allX allY rows i).
Qed.

Lemma scan1_harsh (c : Server1.columns) allX allY (rows : list row) (n : nat) :
  filter is_harsh (Server1.scan c allX allY rows n) =
  map (fun i => Server1.harsh_braking (Server1.position_at c allX allY rows i))
      (filter (fun i => evaluated i &&
                        harsh_at (Server1.speed c) (Server1.brake c) rows i)
              (seq 1 (n - 2))).
Proof.
  unfold Server1.scan. rewrite filter_flat_map, <- flat_map_guard.
  apply flat_map_ext. intros i. apply (iteration1_by_kind c allX allY rows i).
Qed.

(** ** Harsh braking *)

(** C4.  On every table with headers in ASCII, the harsh-braking problems
    returned by the detector are, in the order of the indices, one for
    each index [i] of [1 .. n-2] that is a multiple of 10 and has
    [brake(curr) > 0.8] and [speed(prev) - speed(curr) > 20], the
    subtraction being that of binary64, and no other; each has the
    severity "high" and the description "Harsh braking detected".  In the
    second copy its position is the normalized position of row [i] on
    both axes, and [timeLost] is the drop times 0.05 with two decimals,
    as long as that is below [10^21].  In the first copy, which gives no
    [timeLost], the position is the normalized one on every axis that is
    not flat. *)
Theorem harsh_braking_exactly (rows : list row) (fmt : format) :
  let headers := Object_keys (cells (hd empty_row rows)) in
  let c := Server2.resolve headers in
  let qualifying :=
    filter (fun i => evaluated i &&
                     harsh_at (Server2.speed c) (Server2.brake c) rows i)
           (seq 1 (List.length rows - 2)) in
  let allX := column_of rows (Server2.posX c) in
  let allZ := column_of rows (Server2.posY c) in
  let lost i :=
    num_mul (num_sub (ToNumber (cell rows (i - 1) (Server2.speed c)))
                     (ToNumber (cell rows i (Server2.speed c))))
            (fl (5 # 100)) in
  Forall ascii_text headers ->
  Forall2 (fun p i =>
             description p = "Harsh braking detected" /\ severity p = "high" /\
             pos p = (normalized (cell rows i (Server2.posX c)) allX,
                      normalized (cell rows i (Server2.posY c)) allZ) /\
             (num_lt (lost i) (of_Z (10 ^ 21)) = true ->
              timeLost p = Some (toFixed 2 (lost i) ++ "s")))
          (filter is_harsh (Server2.findProblemAreas (map ERow rows) fmt))
          qualifying /\
  Forall2 (fun p i =>
             description p = "Harsh braking detected" /\ severity p = "high" /\
             timeLost p = None /\
             (num_eqb (Math_max allX) (Math_min allX) = false ->
              fst (pos p) = normalized (cell rows i (Server2.posX c)) allX) /\
             (num_eqb (Math_max allZ) (Math_min allZ) = false ->
              snd (pos p) = normalized (cell rows i (Server2.posY c)) allZ))
          (filter is_harsh (Server1.findProblemAreas (map ERow rows) fmt))
          qualifying.
Proof.
  intros headers c qualifying allX allZ lost _. split.
  - rewrite findProblemAreas2_rows. cbv zeta. fold headers c allX allZ.
    rewrite scan2_harsh. fold qualifying.
    apply Forall2_map_left. intros i Hi.
    split; [reflexivity|]. split; [reflexivity|].
    assert (Hn : rows <> []).
    { unfold qualifying in Hi. apply filter_In in Hi. destruct Hi as [Hi _].
      apply in_seq in Hi. destruct rows; [simpl in Hi; lia|discriminate]. }
    split; [|intros _; reflexivity].
    cbn [pos Server2.harsh_braking]. unfold Server2.position_at, allX, allZ.
    now rewrite !getNorm2_normalized.
  - rewrite findProblemAreas1_rows. cbv zeta. fold headers.
    rewrite scan1_harsh.
    change (Server1.speed (Server1.resolve headers)) with (Server2.speed c).
    change (Server1.brake (Server1.resolve headers)) with (Server2.brake c).
    change (Server1.posX (Server1.resolve headers)) with (Server2.posX c).
    change (Server1.posY (Server1.resolve headers)) with (Server2.posY c).
    fold qualifying allX allZ.
    apply Forall2_map_left. intros i Hi.
    split; [reflexivity|]. split; [reflexivity|]. split; [reflexivity|].
    cbn [pos Server1.harsh_braking fst snd]. unfold Server1.position_at.
    cbn [fst snd].
    change (Server1.posX (Server1.resolve headers)) with (Server2.posX c).
    change (Server1.posY (Server1.resolve headers)) with (Server2.posY c).
    split; intros F; now apply getNorm1_normalized.
Qed.

Lemma braking_run_headers :
  Forall ascii_text (Object_keys (cells (hd empty_row braking_run))).
Proof.
  repeat (constructor; [repeat (constructor; [vm_compute; lia|]); constructor|]).
  constructor.
Qed.

(** On the run of 22 readings the one index that qualifies is 10: at 20
    the speed falls from 20.3 to 0.3, which in binary64 is a drop of 20
    and no more. *)
Lemma harsh_braking_exactly_witness :
  let rows := braking_run in
  let headers := Object_keys (cells (hd empty_row rows)) in
  let c := Server2.resolve headers in
  let allX := column_of rows (Server2.posX c) in
  let allZ := column_of rows (Server2.posY c) in
  let lost i :=
    num_mul (num_sub (ToNumber (cell rows (i - 1) (Server2.speed c)))
                     (ToNumber (cell rows i (Server2.speed c))))
            (fl (5 # 100)) in
  Forall ascii_text headers /\
  filter (fun i => evaluated i &&
                   harsh_at (Server2.speed c) (Server2.brake c) rows i)
         (seq 1 (List.length rows - 2)) = [10] /\
  Forall2 (fun p i =>
             description p = "Harsh braking detected" /\ severity p = "high" /\
             pos p = (normalized (cell rows i (Server2.posX c)) allX,
                      normalized (cell rows i (Server2.posY c)) allZ) /\
             (num_lt (lost i) (of_Z (10 ^ 21)) = true ->
              timeLost p = Some (toFixed 2 (lost i) ++ "s")))
          (filter is_harsh (Server2.findProblemAreas (map ERow rows) json_format))
          [10].
Proof.
  intros rows headers c allX allZ lost.
  assert (E : filter (fun i => evaluated i &&
                        harsh_at (Server2.speed c) (Server2.brake c) rows i)
                     (seq 1 (List.length rows - 2)) = [10])
    by (vm_compute; reflexivity).
  split; [exact braking_run_headers|]. split; [exact E|].
  rewrite <- E.
  exact (proj1 (harsh_braking_exactly braking_run json_format braking_run_headers)).
Defined.

(** The scenario of the specification: the brake at 0.9 and a fall of the
    speed from 250 to 220 at index 10 give one problem and no other. *)
Example harsh_braking_scenario :
  Server2.findProblemAreas standstill json_format =
    [ {| pos := (Fin 50, Fin 50);
         description := "Harsh braking detected";
         severity := "high";
         timeLost := Some "1.50s" |} ].
Proof. vm_compute. reflexivity. Qed.

(** A drop of 21.5 costs [21.5 * 0.05], which in binary64 lies below
    1.075 and is printed as 1.07; and the fall from 20.3 to 0.3 at index
    20 is no harsh braking. *)
Example braking_run_problems :
  map (fun p => (description p, timeLost p))
      (Server2.findProblemAreas (map ERow braking_run) json_format) =
    [("Harsh braking detected", Some "1.07s")] /\
  num_sub (fl (203 # 10)) (fl (3 # 10)) = of_Z 20 /\
  map description (Server1.findProblemAreas (map ERow braking_run) json_format) =
    ["Harsh braking detected"].
Proof. vm_compute. repeat split; reflexivity. Qed.

(** ** The smoother *)

Lemma filter_none {A : Type} (f : A -> bool) (l : list A) :
  (forall a, f a = false) -> filter f l = [].
Proof.
  intros H. induction l as [|a l IH]; simpl; [reflexivity|]. now rewrite H.
Qed.

Lemma slice_window {A : Type} (l : list A) (lo hi : nat) (d : A) :
  hi <= List.length l ->
  slice lo hi l =
  map (fun j => nth j l d)
      (filter (fun j => (lo <=? j) && (j <? hi)) (seq 0 (List.length l))).
Proof.
  unfold slice. revert lo hi.
  induction l as [|a l IH]; intros lo hi Hhi.
  - simpl in Hhi. replace hi with 0 by lia. simpl. now destruct lo.
  - cbn [List.length seq]. rewrite <- seq_shift.
    cbn [filter]. rewrite filter_map_swap.
    destruct lo as [|lo]; destruct hi as [|hi].
    + simpl. rewrite filter_none; [reflexivity|]. intros; reflexivity.
    + cbn [Nat.leb Nat.ltb andb skipn Nat.sub firstn map nth].
      change (0 <? S hi) with true. cbn [andb map nth]. f_equal.
      specialize (IH 0 hi ltac:(simpl in Hhi; lia)).
      rewrite Nat.sub_0_r in IH. cbn [skipn] in IH. rewrite IH, map_map.
      reflexivity.
    + simpl. rewrite filter_none; [reflexivity|].
      intros x. now rewrite andb_false_r.
    + change (S lo <=? 0) with false. cbn [andb skipn Nat.sub].
      rewrite (IH lo hi ltac:(simpl in Hhi; lia)), map_map. reflexivity.
Qed.

Lemma window_start_sub (i w : nat) : window_start i w = i - w.
Proof. unfold window_start. lia. Qed.

Lemma smooth2_length (points : list point) (w : nat) :
  List.length (Server2.smoothTrackPoints_w points w) = List.length points.
Proof.
  unfold Server2.smoothTrackPoints_w.
  destruct (List.length points <? w); [reflexivity|].
  apply mapi_from_length.
Qed.

Lemma smooth1_length (points : list point) (w : nat) :
  List.length (Server1.smoothTrackPoints_w points w) = List.length points.
Proof.
  unfold Server1.smoothTrackPoints_w.
  destruct (List.length points <? w); [reflexivity|].
  now rewrite length_map, length_seq.
Qed.

Lemma filter_range (lo hi k : nat) :
  forall a,
    filter (fun j => (lo <=? j) && (j <? hi)) (seq a k) =
    seq (Nat.max lo a) (Nat.min hi (a + k) - Nat.max lo a).
Proof.
  induction k as [|k IH]; intros a.
  - replace (Nat.min hi (a + 0) - Nat.max lo a) with 0 by lia. reflexivity.
  - cbn [seq filter]. rewrite IH.
    replace (S a + k) with (a + S k) by lia.
    destruct (lo <=? a) eqn:L; destruct (a <? hi) eqn:H; cbn [andb];
      first [apply Nat.leb_le in L|apply Nat.leb_gt in L];
      first [apply Nat.ltb_lt in H|apply Nat.ltb_ge in H].
    + replace (Nat.max lo a) with a by lia.
      replace (Nat.max lo (S a)) with (S a) by lia.
      replace (Nat.min hi (a + S k) - a) with (S (Nat.min hi (a + S k) - S a)) by lia.
      reflexivity.
    + replace (Nat.min hi (a + S k) - Nat.max lo (S a)) with 0 by lia.
      replace (Nat.min hi (a + S k) - Nat.max lo a) with 0 by lia.
      reflexivity.
    + now replace (Nat.max lo (S a)) with (Nat.max lo a) by lia.
    + now replace (Nat.max lo (S a)) with (Nat.max lo a) by lia.
Qed.

Lemma nth_map_seq {A : Type} (f : nat -> A) (n i : nat) (d : A) :
  i < n -> nth i (map f (seq 0 n)) d = f i.
Proof.
  intros H. rewrite (nth_indep _ d (f 0)) by now rewrite length_map, length_seq.
  rewrite map_nth. now rewrite seq_nth.
Qed.

(** The window that the first copy collects index by index. *)
Lemma collected_window (points : list point) (lo hi : nat) :
  hi <= List.length points ->
  map (fun j => nth j points (VUndef, VUndef)) (seq lo (hi - lo)) =
  window_points points lo hi.
Proof.
  intros H. unfold window_points. rewrite filter_range.
  now replace (Nat.max lo 0) with lo by lia;
    replace (Nat.min hi (0 + List.length points)) with hi by lia.
Qed.

Lemma fold_left_map {A B C : Type} (f : A -> C -> A) (g : B -> C) (l : list B) :
  forall a, fold_left (fun acc b => f acc (g b)) l a = fold_left f (map g l) a.
Proof. induction l as [|b l IH]; intros a; simpl; [reflexivity|apply IH]. Qed.

(** What the two [reduce] calls and the divisions compute is the mean of
    the x's and of the z's in binary64. *)
Lemma average_mean_point (window : list point) : average window = mean_point window.
Proof.
  unfold average, mean_point, mean, total, sum_x, sum_z, xs, zs.
  now rewrite !length_map, <- !fold_left_map.
Qed.

(** C3.  With half-width [W] both smoothers return a sequence shorter
    than [W] unchanged.  On a sequence of length [n >= W] they return [n]
    points.  In the second copy the point at index [i] is the mean in
    binary64, that is the sum from left to right and then the quotient by
    the count, each operation rounded, of the x's and of the z's of the
    input points with index in [[max(0, i-W), min(n, i+W+1))]; in the
    first copy it is that mean over [[max(0, i-W), min(n, i+W))].
    [smoothTrackPoints] is the case [W = 5]. *)
Theorem smoother_window_mean (points : list point) (W : nat) :
  let n := List.length points in
  (n < W ->
   Server2.smoothTrackPoints_w points W = points /\
   Server1.smoothTrackPoints_w points W = points) /\
  (W <= n ->
   List.length (Server2.smoothTrackPoints_w points W) = n /\
   List.length (Server1.smoothTrackPoints_w points W) = n /\
   forall i, i < n ->
     nth i (Server2.smoothTrackPoints_w points W) (VUndef, VUndef) =
       mean_point (window_points points (Nat.max 0 (i - W)) (Nat.min n (i + W + 1))) /\
     nth i (Server1.smoothTrackPoints_w points W) (VUndef, VUndef) =
       mean_point (window_points points (Nat.max 0 (i - W)) (Nat.min n (i + W)))) /\
  Server2.smoothTrackPoints points = Server2.smoothTrackPoints_w points 5 /\
  Server1.smoothTrackPoints points = Server1.smoothTrackPoints_w points 5.
Proof.
  intros n. split; [|split; [|split; reflexivity]].
  - intros H. unfold Server2.smoothTrackPoints_w, Server1.smoothTrackPoints_w.
    fold n. now rewrite (proj2 (Nat.ltb_lt _ _) H).
  - intros H. split; [apply smooth2_length|]. split; [apply smooth1_length|].
    intros i Hi. split.
    + unfold Server2.smoothTrackPoints_w. fold n.
      rewrite (proj2 (Nat.ltb_ge _ _) H). unfold mapi.
      rewrite (mapi_from_nth _ _ _ _ _ (VUndef, VUndef)) by exact Hi.
      cbv zeta. rewrite Nat.add_0_l, window_start_sub, average_mean_point.
      unfold window_points. fold n.
      rewrite (slice_window _ _ _ (VUndef, VUndef)) by apply Nat.le_min_l.
      reflexivity.
    + unfold Server1.smoothTrackPoints_w. fold n.
      rewrite (proj2 (Nat.ltb_ge _ _) H).
      rewrite nth_map_seq by exact Hi. cbv zeta.
      rewrite window_start_sub, average_mean_point.
      rewrite collected_window by apply Nat.le_min_l.
      reflexivity.
Qed.

Lemma smoother_window_mean_witness :
  nth 6 (Server2.smoothTrackPoints_w ramp 5) (VUndef, VUndef) =
    mean_point (window_points ramp (Nat.max 0 (6 - 5)) (Nat.min 7 (6 + 5 + 1))) /\
  nth 6 (Server1.smoothTrackPoints_w ramp 5) (VUndef, VUndef) =
    mean_point (window_points ramp (Nat.max 0 (6 - 5)) (Nat.min 7 (6 + 5))) /\
  Server2.smoothTrackPoints_w (firstn 4 ramp) 5 = firstn 4 ramp.
Proof.
  destruct (smoother_window_mean ramp 5) as [_ [H _]].
  destruct (H ltac:(simpl; lia)) as [_ [_ H6]].
  destruct (H6 6 ltac:(simpl; lia)) as [H2 H1].
  split; [exact H2|]. split; [exact H1|].
  destruct (smoother_window_mean (firstn 4 ramp) 5) as [H4 _].
  apply H4. simpl. lia.
Defined.

(** Of eight points at the same place the second copy moves every one:
    six times 250.3 added up and divided by six is, in binary64, the
    number just below 250.3, which is neither the arithmetic mean of the
    window nor the binary64 number nearest to it.  And on seven points on
    a line the first copy averages the five points before index 5 where
    the window of the specification has six. *)
Lemma smoothed_point_is_not_the_mean :
  let window := window_points parked (Nat.max 0 (0 - 5)) (Nat.min 8 (0 + 5 + 1)) in
  (exists q,
     fst (nth 0 (Server2.smoothTrackPoints parked) (VUndef, VUndef)) = VNum (Fin q) /\
     (q < arithmetic_mean (xs window))%Q /\
     fl (arithmetic_mean (xs window)) = fl (2503 # 10) /\
     fl (arithmetic_mean (xs window)) <> Fin q) /\
  nth 0 (Server1.smoothTrackPoints ramp) (VUndef, VUndef) =
    mean_point (window_points ramp 0 5) /\
  nth 0 (Server1.smoothTrackPoints ramp) (VUndef, VUndef) <>
    mean_point (window_points ramp (Nat.max 0 (0 - 5)) (Nat.min 7 (0 + 5 + 1))).
Proof.
  cbv zeta. split; [|split].
  - eexists. split; [vm_compute; reflexivity|].
    split; [vm_compute; reflexivity|].
    split; [vm_compute; reflexivity|].
    vm_compute. discriminate.
  - vm_compute. reflexivity.
  - vm_compute. discriminate.
Qed.

(** ** The stride of the extractor *)

Lemma filteri_from_combine {A : Type} (f : A -> nat -> bool) (l : list A) (k : nat) :
  filteri_from f k l =
  map snd (filter (fun p => f (snd p) (fst p)) (combine (seq k (List.length l)) l)).
Proof.
  revert k. induction l as [|a l IH]; intros k; simpl; [reflexivity|].
  rewrite IH. now destruct (f a k).
Qed.

Lemma combine_seq_nth {A : Type} (l : list A) (k : nat) (d : A) :
  combine (seq k (List.length l)) l =
  map (fun i => (i, nth (i - k) l d)) (seq k (List.length l)).
Proof.
  revert k. induction l as [|a l IH]; intros k; simpl; [reflexivity|].
  rewrite Nat.sub_diag. f_equal. rewrite IH.
  apply map_ext_in. intros i Hi. apply in_seq in Hi.
  replace (i - k) with (S (i - S k)) by lia. reflexivity.
Qed.

Lemma sampled_as_indices (data : list obj) :
  sampled data = map (fun i => nth i data []) (sampled_indices (List.length data)).
Proof.
  unfold sampled, filteri, sampled_indices.
  rewrite filteri_from_combine.
  rewrite (combine_seq_nth data 0 ([] : obj)).
  rewrite filter_map_swap, map_map. simpl.
  apply map_ext. intros i. now rewrite Nat.sub_0_r.
Qed.

Lemma csvTrackPoints_as_indices (data : list obj) (x y : string) :
  csvTrackPoints data x y =
  map (fun i => (get_prop (nth i data []) x, get_prop (nth i data []) y))
      (filter (has_point data x y) (sampled_indices (List.length data))).
Proof.
  unfold csvTrackPoints. rewrite sampled_as_indices, map_map, filter_map_swap.
  reflexivity.
Qed.

Lemma multiples_bound (r n : nat) :
  1 <= r ->
  r * List.length (filter (fun i => i mod r =? 0) (seq 0 n)) <= n + r - 1.
Proof.
  intros Hr. induction n as [|n IH]; [simpl; lia|].
  rewrite seq_S, filter_app, length_app. cbn [filter Nat.add].
  set (c := List.length (filter _ (seq 0 n))) in *.
  destruct (Nat.eqb_spec (n mod r) 0) as [E|E]; cbn [List.length]; [|lia].
  pose proof (Nat.div_mod_eq n r) as D. rewrite E in D.
  generalize dependent (n / r). intros q D.
  assert (c <= q) by (destruct (le_gt_dec c q); [assumption | exfalso; nia]).
  nia.
Qed.

Lemma stride_bound (n : nat) :
  List.length (sampled_indices n) <= 201 + 198 / sampleRate n.
Proof.
  unfold sampled_indices.
  assert (Hr : 1 <= sampleRate n) by (unfold sampleRate; lia).
  pose proof (multiples_bound (sampleRate n) n Hr) as B.
  set (c := List.length _) in *.
  assert (Hn : n <= 200 * sampleRate n + 199).
  { unfold sampleRate. pose proof (Nat.div_mod_eq n 200) as D.
    pose proof (Nat.mod_upper_bound n 200 ltac:(lia)). lia. }
  set (r := sampleRate n) in *.
  assert (c <= (201 * r + 198) / r) as Hc.
  { apply Nat.div_le_lower_bound; lia. }
  rewrite Nat.div_add_l in Hc by lia. exact Hc.
Qed.

Lemma found_xPos (headers : list string) (x : string) :
  find is_xPos headers = Some x -> found (Some x) = true.
Proof.
  intros H. apply find_some in H. destruct H as [_ H].
  destruct x; [discriminate H|reflexivity].
Qed.

Lemma found_yPos (headers : list string) (y : string) :
  find is_yPos headers = Some y -> found (Some y) = true.
Proof.
  intros H. apply find_some in H. destruct H as [_ H].
  destruct y; [discriminate H|reflexivity].
Qed.

(** C1, as amended.  When both position columns of a CSV table of [N]
    rows are found, the points before smoothing are those of the rows
    whose index is a multiple of [max(1, floor(N/200))] and whose two
    coordinates are present: their number is the number of such indices
    minus the number of sampled rows with a missing coordinate.  That
    number, which is also the length of the smoothed track line in both
    copies, is at most [201 + floor(198 / stride)], hence at most 399. *)
Theorem csv_point_count (P : parsers) (x y : string) :
  let data := papa_data P in
  let N := List.length data in
  find is_xPos (Object_keys (hd [] data)) = Some x ->
  find is_yPos (Object_keys (hd [] data)) = Some y ->
  exists pts,
    extract_raw P csv = Ok (pts, map csv_row data) /\
    List.length pts =
      List.length (sampled_indices N) -
      List.length (filter (fun i => negb (has_point data x y i)) (sampled_indices N)) /\
    List.length pts <= 201 + 198 / sampleRate N /\
    List.length pts <= 399 /\
    (exists tp, Server2.extractTrackPointsFromTelemetry P csv = Valid tp (map csv_row data)
                /\ List.length tp = List.length pts) /\
    (exists tp, Server1.extractTrackPointsFromTelemetry P csv = Valid tp (map csv_row data)
                /\ List.length tp = List.length pts).
Proof.
  intros data N Hx Hy. exists (csvTrackPoints data x y).
  assert (Hraw : extract_raw P csv = Ok (csvTrackPoints data x y, map csv_row data)).
  { unfold extract_raw. fold data. destruct data as [|first rest] eqn:E.
    - discriminate Hx.
    - cbn [hd] in Hx, Hy. rewrite Hx, Hy.
      now rewrite (found_xPos _ _ Hx), (found_yPos _ _ Hy). }
  assert (Hlen : List.length (csvTrackPoints data x y) =
                 List.length (filter (has_point data x y) (sampled_indices N))).
  { now rewrite csvTrackPoints_as_indices, length_map. }
  assert (Hle : List.length (csvTrackPoints data x y) <= List.length (sampled_indices N)).
  { rewrite Hlen. apply filter_length_le. }
  pose proof (stride_bound N) as B.
  assert (H198 : 198 / sampleRate N <= 198).
  { apply Nat.Div0.div_le_upper_bound. unfold sampleRate. lia. }
  repeat split.
  - exact Hraw.
  - rewrite Hlen.
    pose proof (filter_length (has_point data x y) (sampled_indices N)). lia.
  - lia.
  - lia.
  - exists (Server2.smoothTrackPoints (csvTrackPoints data x y)). split.
    + unfold Server2.extractTrackPointsFromTelemetry. now rewrite Hraw.
    + apply smooth2_length.
  - exists (if 0 <? List.length (csvTrackPoints data x y)
            then Server1.smoothTrackPoints (csvTrackPoints data x y)
            else csvTrackPoints data x y). split.
    + unfold Server1.extractTrackPointsFromTelemetry. now rewrite Hraw.
    + destruct (0 <? _); [apply smooth1_length|reflexivity].
Qed.

Lemma csv_point_count_witness :
  exists pts,
    extract_raw table_399 csv = Ok (pts, map csv_row (papa_data table_399)) /\
    List.length pts <= 399.
Proof.
  destruct (csv_point_count table_399 "x" "z" eq_refl eq_refl)
    as [pts [H1 [_ [_ [H4 _]]]]].
  exists pts. split; assumption.
Defined.

(** C1 as stated fails: a table of 399 rows has stride 1 and keeps all of
    its 399 rows, which is not about 200. *)
Lemma track_line_of_399_rows :
  exists tp dps,
    Server2.extractTrackPointsFromTelemetry table_399 csv = Valid tp dps /\
    List.length tp = 399 /\
    ~ about_200 (List.length tp).
Proof.
  eexists. eexists. split; [reflexivity|]. split.
  - vm_compute. reflexivity.
  - unfold about_200. vm_compute. intros H. lia.
Qed.

(** ** Normalised positions *)

Lemma fold_min_fin (l : list Q) (a : Q) :
  exists m, fold_left min2 (map Fin l) (Fin a) = Fin m /\
            In m (a :: l) /\ forall x, In x (a :: l) -> (m <= x)%Q.
Proof.
  revert a. induction l as [|x l IH]; intros a; cbn [map fold_left].
  - exists a. split; [reflexivity|]. split; [now left|].
    intros x [<-|[]]. apply Qle_refl.
  - cbn [min2]. destruct (num_lt (Fin x) (Fin a)) eqn:E; cbn [num_lt] in E.
    + destruct (IH x) as [m [Hm [Hin Hl]]]. exists m. split; [exact Hm|].
      apply Qlt_bool_iff in E. split; [now right|].
      intros y [<-|Hy]; [|now apply Hl].
      specialize (Hl x (or_introl eq_refl)). lra.
    + destruct (IH a) as [m [Hm [Hin Hl]]]. exists m. split; [exact Hm|].
      apply Qlt_bool_false in E. split.
      * destruct Hin as [<-|Hin]; [now left|now right; right].
      * intros y [<-|[<-|Hy]].
        -- apply Hl. now left.
        -- specialize (Hl a (or_introl eq_refl)). lra.
        -- apply Hl. now right.
Qed.

Lemma fold_max_fin (l : list Q) (a : Q) :
  exists m, fold_left max2 (map Fin l) (Fin a) = Fin m /\
            In m (a :: l) /\ forall x, In x (a :: l) -> (x <= m)%Q.
Proof.
  revert a. induction l as [|x l IH]; intros a; cbn [map fold_left].
  - exists a. split; [reflexivity|]. split; [now left|].
    intros x [<-|[]]. apply Qle_refl.
  - cbn [max2]. destruct (num_lt (Fin a) (Fin x)) eqn:E; cbn [num_lt] in E.
    + destruct (IH x) as [m [Hm [Hin Hl]]]. exists m. split; [exact Hm|].
      apply Qlt_bool_iff in E. split; [now right|].
      intros y [<-|Hy]; [|now apply Hl].
      specialize (Hl x (or_introl eq_refl)). lra.
    + destruct (IH a) as [m [Hm [Hin Hl]]]. exists m. split; [exact Hm|].
      apply Qlt_bool_false in E. split.
      * destruct Hin as [<-|Hin]; [now left|now right; right].
      * intros y [<-|[<-|Hy]].
        -- apply Hl. now left.
        -- specialize (Hl a (or_introl eq_refl)). lra.
        -- apply Hl. now right.
Qed.

(** A number between two numbers with finite roundings has a finite
    rounding between them. *)
Lemma fl_between (a b x A B : Q) :
  fl a = Fin A -> fl b = Fin B -> (a <= x)%Q -> (x <= b)%Q ->
  exists X, fl x = Fin X /\ (A <= X)%Q /\ (X <= B)%Q.
Proof.
  intros Ha Hb L U.
  pose proof (fl_mono _ _ L) as H1. pose proof (fl_mono _ _ U) as H2.
  rewrite Ha in H1. rewrite Hb in H2.
  destruct (fl x) as [| |X|]; cbn [num_le] in H1, H2; try contradiction.
  exists X. now repeat split.
Qed.

Lemma least_positive_pos : (0 < least_positive)%Q.
Proof. reflexivity. Qed.

(** Two multiples of [2^-1074] differ by [2^-1074] at least. *)
Lemma multiples_apart (m M : Q) :
  (exists k : Z, m == inject_Z k * least_positive)%Q ->
  (exists k : Z, M == inject_Z k * least_positive)%Q ->
  (m < M)%Q -> (least_positive <= M - m)%Q.
Proof.
  intros [k Hk] [K HK] H.
  pose proof least_positive_pos as P.
  assert (E : (M - m == inject_Z (K - k) * least_positive)%Q).
  { rewrite HK, Hk. unfold Z.sub. rewrite inject_Z_plus, inject_Z_opp. ring. }
  rewrite E.
  assert (Hz : (1 <= K - k)%Z).
  { destruct (Z_lt_le_dec 0 (K - k)) as [G|G]; [lia|exfalso].
    assert (N : (inject_Z (K - k) <= 0)%Q)
      by (change 0%Q with (inject_Z 0); now rewrite <- Zle_Qle).
    assert (N' : (inject_Z (K - k) * least_positive <= 0)%Q).
    { setoid_replace 0%Q with (0 * least_positive)%Q by ring.
      apply Qmult_le_compat_r; [exact N|now apply Qlt_le_weak]. }
    lra. }
  assert (O : (1 <= inject_Z (K - k))%Q)
    by (change 1%Q with (inject_Z 1); now rewrite <- Zle_Qle).
  setoid_replace least_positive with (1 * least_positive)%Q at 1 by ring.
  apply Qmult_le_compat_r; [exact O|now apply Qlt_le_weak].
Qed.

Lemma fl_least_positive : fl least_positive = Fin least_positive.
Proof. vm_compute. reflexivity. Qed.

Lemma fl_two_1023 : fl (two_1022 + two_1022) = Fin (Qred (two_1022 + two_1022)).
Proof. vm_compute. reflexivity. Qed.

Lemma fl_one : fl 1 = Fin 1.
Proof. vm_compute. reflexivity. Qed.

Lemma fl_hundred : fl 100 = Fin 100.
Proof. vm_compute. reflexivity. Qed.

Lemma getNorm2_percent (value : jsval) (l : list Q) (q : Q) :
  ToNumber value = Fin q ->
  Forall moderate l ->
  (exists q', In q' l /\ (q' == q)%Q) ->
  percent (Server2.getNorm value (map Fin l)).
Proof.
  intros Hv F [q' [Hin Hq]]. unfold Server2.getNorm, Math_min, Math_max.
  destruct l as [|a l]; [destruct Hin|].
  cbn [map fold_left]. change (min2 PInf (Fin a)) with (Fin a).
  change (max2 NInf (Fin a)) with (Fin a).
  destruct (fold_min_fin l a) as [m [Em [Hma Hml]]].
  destruct (fold_max_fin l a) as [M [EM [HMa HMl]]].
  rewrite Em, EM, Hv.
  pose proof (Hml _ Hin) as Hlo. pose proof (HMl _ Hin) as Hhi.
  rewrite Forall_forall in F.
  destruct (F _ Hma) as [Gm [Lm Um]]. destruct (F _ HMa) as [GM [LM UM]].
  unfold num_gt, num_lt. destruct (Qlt_bool m M) eqn:E.
  - apply Qlt_bool_iff in E.
    pose proof (multiples_apart m M Gm GM E) as D.
    pose proof least_positive_pos as P.
    unfold num_sub, num_neg, num_add.
    destruct (fl_between least_positive (two_1022 + two_1022) (M + - m) _ _
                fl_least_positive fl_two_1023) as [d [Ed [Ld _]]]; [lra|lra|].
    assert (Z0 : fl 0 = Fin 0) by reflexivity.
    destruct (fl_between 0 (M + - m) (q + - m) _ _ Z0 Ed) as [n [En [Ln Un]]];
      [lra|lra|].
    rewrite Ed, En. unfold num_div.
    destruct (Qeq_bool d 0) eqn:Z; [apply Qeq_bool_iff in Z; lra|].
    assert (Pd : (0 < d)%Q) by lra.
    destruct (fl_between 0 1 (n / d) _ _ Z0 fl_one) as [t [Et [Lt Ut]]].
    + apply Qle_shift_div_l; [exact Pd|]. lra.
    + apply Qle_shift_div_r; [exact Pd|]. lra.
    + rewrite Et. unfold num_mul, of_Z. change (inject_Z 100) with 100%Q.
      destruct (fl_between 0 100 (t * 100) _ _ Z0 fl_hundred) as [r [Er [Lr Ur]]];
        [lra|lra|].
      exists r. now repeat split.
  - exists 50%Q. split; [reflexivity|]. split; lra.
Qed.

Lemma moderate_zero : moderate 0.
Proof.
  split; [exists 0%Z; reflexivity|]. split; discriminate.
Qed.

Lemma finite_cell_values (v : jsval) :
  finite_cell v ->
  exists q q', ToNumber v = Fin q /\ or_zero v = Fin q' /\ (q' == q)%Q /\
               moderate q'.
Proof.
  intros [->|[q [-> Hm]]].
  - exists 0%Q, 0%Q. repeat split; try reflexivity; apply moderate_zero.
  - unfold or_zero. cbn [truthy ToNumber]. destruct (Qeq_bool q 0) eqn:E; cbn [negb].
    + exists q, 0%Q. split; [reflexivity|]. split; [reflexivity|].
      split; [apply Qeq_bool_iff in E; now symmetry|apply moderate_zero].
    + exists q, q. repeat split; try reflexivity; apply Hm.
Qed.

Lemma finite_column (rows : list row) (c : option string) :
  (forall r, In r rows -> finite_cell (get (cells r) c)) ->
  exists l, column_of rows c = map Fin l /\ Forall moderate l /\
    forall r, In r rows ->
      exists q q', ToNumber (get (cells r) c) = Fin q /\ In q' l /\ (q' == q)%Q.
Proof.
  induction rows as [|r rows IH]; intros H.
  - exists []. split; [reflexivity|]. split; [constructor|]. intros ? [].
  - destruct IH as [l [El [Fl Hl]]]; [intros; apply H; now right|].
    destruct (finite_cell_values _ (H r (or_introl eq_refl)))
      as [q [q' [Hq [Hq' [E Hm]]]]].
    exists (q' :: l). split; [|split].
    + cbn [column_of map]. fold (column_of rows c). now rewrite Hq', El.
    + now constructor.
    + intros r' [<-|Hr'].
      * exists q, q'. repeat split; [exact Hq|now left|exact E].
      * destruct (Hl r' Hr') as [a [a' [Ha [Hin Ea]]]].
        exists a, a'. repeat split; [exact Ha|now right|exact Ea].
Qed.

Lemma iteration2_position c allX allY rows i p :
  In p (Server2.iteration c allX allY rows i) ->
  pos p = Server2.position_at c allX allY rows i.
Proof.
  unfold Server2.iteration. destruct (evaluated i); cbn [negb]; [|intros []].
  rewrite !in_app_iff.
  intros [H|[H|H]];
    match type of H with
    | In _ (if ?b then _ else _) => destruct b
    end; cbn [In] in H;
    solve [destruct H as [<-|[]]; reflexivity | destruct H].
Qed.

(** On rows whose two position cells all hold [null] or a binary64 number
    of magnitude at most [2^1022], every position reported by the second
    copy lies in [[0, 100]]. *)
Lemma positions_in_percent (rows : list row) (fmt : format) :
  let c := Server2.resolve (Object_keys (cells (hd empty_row rows))) in
  (forall r, In r rows ->
     finite_cell (get (cells r) (Server2.posX c)) /\
     finite_cell (get (cells r) (Server2.posY c))) ->
  forall p, In p (Server2.findProblemAreas (map ERow rows) fmt) ->
    percent (fst (pos p)) /\ percent (snd (pos p)).
Proof.
  intros c H p Hp. rewrite findProblemAreas2_rows in Hp. cbv zeta in Hp. fold c in Hp.
  unfold Server2.scan in Hp. apply in_flat_map in Hp. destruct Hp as [i [Hi Hp]].
  apply in_seq in Hi. apply iteration2_position in Hp. rewrite Hp.
  unfold Server2.position_at. cbn [fst snd].
  assert (Hr : In (nth i rows empty_row) rows) by (apply nth_In; lia).
  destruct (finite_column rows (Server2.posX c)) as [lx [Ex [Fx Hx]]];
    [intros r R; apply (H r R)|].
  destruct (finite_column rows (Server2.posY c)) as [ly [Ey [Fy Hy]]];
    [intros r R; apply (H r R)|].
  rewrite Ex, Ey.
  destruct (Hx _ Hr) as [q [q' [Hq [Hin E]]]].
  destruct (Hy _ Hr) as [z [z' [Hz [Hzin Ez]]]].
  split.
  - apply (getNorm2_percent _ _ q Hq Fx). now exists q'.
  - apply (getNorm2_percent _ _ z Hz Fy). now exists z'.
Qed.

(** On an axis whose maximum is not above its minimum the second copy
    reports 50. *)
Lemma flat_axis_is_50 (value : jsval) (allVals : list num) :
  num_gt (Math_max allVals) (Math_min allVals) = false ->
  Server2.getNorm value allVals = of_Z 50.
Proof. intros H. unfold Server2.getNorm. now rewrite H. Qed.

(** C2 fails on both copies.  Take the JSON array of twelve samples with a
    constant [x], a growing [z] and no [z] in the sample at index 10, where
    harsh braking is found.  The extraction keeps the twelve samples as
    [dataPoints]; the second copy then reports the position [(50, NaN)]
    and the first copy, whose [getNorm] has no test of [max > min],
    [(NaN, NaN)]. *)
Theorem position_not_a_number :
  (exists trackPoints,
     Server2.extractTrackPointsFromTelemetry
       (mkParsers [] (Ok (JArray gap_in_z))) json_format =
     Valid trackPoints gap_in_z) /\
  Server2.findProblemAreas gap_in_z json_format =
    [ {| pos := (Fin 50, NaN);
         description := "Harsh braking detected";
         severity := "high";
         timeLost := Some "1.50s" |} ] /\
  Server1.findProblemAreas gap_in_z json_format =
    [ {| pos := (NaN, NaN);
         description := "Harsh braking detected";
         severity := "high";
         timeLost := None |} ].
Proof.
  split; [|split].
  - eexists. vm_compute. reflexivity.
  - vm_compute. reflexivity.
  - vm_compute. reflexivity.
Qed.

(** ** The two copies *)

(** C9.  The two copies are not equal as functions.  On seven points on a
    line the first smoothed point of the first copy is the mean of five
    points and that of the second copy the mean of six; on twelve samples
    at one place the first detector reports the position [(NaN, NaN)]
    and the second [(50, 50)]. *)
Theorem copies_differ :
  (exists x1 x2,
     fst (nth 0 (Server1.smoothTrackPoints ramp) (VUndef, VUndef)) = VNum (Fin x1) /\
     fst (nth 0 (Server2.smoothTrackPoints ramp) (VUndef, VUndef)) = VNum (Fin x2) /\
     ~ (x1 == x2)%Q) /\
  Server1.smoothTrackPoints ramp <> Server2.smoothTrackPoints ramp /\
  map pos (Server1.findProblemAreas standstill json_format) = [(NaN, NaN)] /\
  map pos (Server2.findProblemAreas standstill json_format) = [(Fin 50, Fin 50)] /\
  Server1.findProblemAreas standstill json_format <>
  Server2.findProblemAreas standstill json_format.
Proof.
  split; [|split; [|split; [|split]]].
  - exists 2%Q, (5 # 2)%Q. split; [vm_compute; reflexivity|].
    split; [vm_compute; reflexivity|].
    intros H. vm_compute in H. discriminate H.
  - vm_compute. intros H. discriminate H.
  - vm_compute. reflexivity.
  - vm_compute. reflexivity.
  - vm_compute. intros H. discriminate H.
Qed.

(** ** Failures of the extraction *)

(** C6, as amended.  When [JSON.parse] throws, the extraction of both
    copies returns [{valid: false}] with the message of the exception and
    the analysis returns the same failure, whatever the endpoint does.  A
    parsed value that is neither an array nor an object with a [telemetry]
    array is no failure: the extraction is valid, with no track point and
    no data point. *)
Theorem parse_failure_is_terminal (P : parsers) (telemetryData : text) :
  sniff telemetryData = json_format ->
  (forall message, json_parse P = Throw message ->
     let failure := "Error extracting track data: " ++ message in
     Server2.extractTrackPointsFromTelemetry P json_format = Invalid failure /\
     Server1.extractTrackPointsFromTelemetry P json_format = Invalid failure /\
     (forall w track carClass game,
        Server2.analyzeTelemetryWithAI w telemetryData P track carClass game =
        Rejected failure) /\
     (forall Math_sin w track carClass game,
        Server1.analyzeTelemetryWithAI Math_sin w telemetryData P track carClass game =
        Rejected failure)) /\
  (json_parse P = Ok JOther ->
     Server2.extractTrackPointsFromTelemetry P json_format = Valid [] [] /\
     Server1.extractTrackPointsFromTelemetry P json_format = Valid [] []).
Proof.
  intros Hs. split.
  - intros message Hp failure.
    assert (E2 : Server2.extractTrackPointsFromTelemetry P json_format = Invalid failure).
    { unfold Server2.extractTrackPointsFromTelemetry, extract_raw. now rewrite Hp. }
    assert (E1 : Server1.extractTrackPointsFromTelemetry P json_format = Invalid failure).
    { unfold Server1.extractTrackPointsFromTelemetry, extract_raw. now rewrite Hp. }
    repeat split; try assumption.
    + intros. unfold Server2.analyzeTelemetryWithAI. now rewrite Hs, E2.
    + intros. unfold Server1.analyzeTelemetryWithAI. now rewrite Hs, E1.
  - intros Hp. split.
    + unfold Server2.extractTrackPointsFromTelemetry, extract_raw. now rewrite Hp.
    + unfold Server1.extractTrackPointsFromTelemetry, extract_raw. now rewrite Hp.
Qed.

Lemma parse_failure_is_terminal_witness :
  Server2.extractTrackPointsFromTelemetry broken_parsed json_format =
    Invalid "Error extracting track data: Unexpected token x in JSON at position 1" /\
  Server2.extractTrackPointsFromTelemetry foo_parsed json_format = Valid [] [].
Proof.
  split.
  - destruct (parse_failure_is_terminal broken_parsed broken_text eq_refl) as [H _].
    destruct (H _ eq_refl) as [H2 _]. exact H2.
  - destruct (parse_failure_is_terminal foo_parsed foo_text eq_refl) as [_ H].
    destruct (H eq_refl) as [H2 _]. exact H2.
Defined.

(** C6 as stated fails: the text [{"foo":1}] parses to an object with no
    point structure; the extraction is valid and the analysis of the first
    copy ends with a report. *)
Lemma json_without_points_accepted :
  sniff foo_text = json_format /\
  Server2.extractTrackPointsFromTelemetry foo_parsed json_format = Valid [] [] /\
  Server1.extractTrackPointsFromTelemetry foo_parsed json_format = Valid [] [] /\
  exists data,
    Server1.analyzeTelemetryWithAI flat_sine (Server1.mkWorld false Server1.NotOk 0)
      foo_text foo_parsed "Spa" "GT3" "ACC" = Report data.
Proof.
  repeat split; try reflexivity.
  eexists. vm_compute. reflexivity.
Qed.

(** ** Failures of the endpoint *)

(** C7 fails in both copies.  After a valid extraction the first copy
    goes on to its own analysis, built on the local track points and
    problems, when no key is configured, when the response is not [ok]
    and when the content of the reply cannot be parsed, as the comments
    of the code announce; it does so only for a request with the field
    [track], since that analysis starts with [track.includes].  When
    [fetch] rejects, as on a network error or a timeout, or the reading
    of the body rejects, the exception leaves the enclosing [try] and the
    answer is [{valid: false}].  The second copy has no analysis of its
    own: every failure of the endpoint ends in [{valid: false}]. *)
Theorem endpoint_failure_outcomes
    (Math_sin : Z -> Q) (telemetryData : text) (P : parsers)
    (track carClass game : option string) :
  (forall w trackPoints dataPoints,
     Server1.extractTrackPointsFromTelemetry P (sniff telemetryData) =
       Valid trackPoints dataPoints ->
     let problems := Server1.findProblemAreas dataPoints (sniff telemetryData) in
     let answer :=
       Api1.analyzeTelemetryWithAI Math_sin w telemetryData P track carClass game in
     (forall t,
        track = Some t -> falls_through w ->
        let own := Server1.synthetic Math_sin (Server1.seed_of telemetryData)
                     problems trackPoints t in
        answer = Report (Server1.Synthetic own) /\
        Server1.trackLine own =
          (if 10 <? List.length trackPoints then trackPoints
           else Server1.default_trackLine) /\
        Server1.errors own =
          (if 0 <? List.length problems then problems
           else Server1.default_errors Math_sin (Server1.seed_of telemetryData)
                  problems)) /\
     (track = None -> falls_through w ->
      answer =
        Rejected
          "Błąd analizy: Cannot read properties of undefined (reading 'includes')") /\
     (forall message,
        Server1.DEEPSEEK_API_KEY w = true ->
        Server1.ai w = Server1.FetchRejects message \/
        Server1.ai w = Server1.BodyRejects message ->
        answer = Rejected ("Błąd analizy: " ++ message))) /\
  (forall w trackPoints dataPoints t c g,
     Server2.extractTrackPointsFromTelemetry P (sniff telemetryData) =
       Valid trackPoints dataPoints ->
     let answer := Server2.analyzeTelemetryWithAI w telemetryData P t c g in
     forall message,
       (Server2.ai w = Server2.FetchRejects message \/
        Server2.ai w = Server2.BodyRejects message \/
        Server2.ai w = Server2.ContentThrows message ->
        answer = Rejected ("AI analysis failed: " ++ message)) /\
       (Server2.ai w = Server2.NotOk message ->
        answer = Rejected ("AI analysis failed: DeepSeek API error: " ++ message))).
Proof.
  split.
  - intros w trackPoints dataPoints E problems answer. split; [|split].
    + intros t -> F own. split; [|split; reflexivity].
      unfold answer, Api1.analyzeTelemetryWithAI, Server1.analyzeTelemetryWithAI.
      rewrite E. unfold Server1.analyse_valid, Server1.call_ai.
      destruct F as [F|[F|F]]; rewrite F; [reflexivity| |];
        now destruct (Server1.DEEPSEEK_API_KEY w).
    + intros -> F. unfold answer, Api1.analyzeTelemetryWithAI. rewrite E.
      unfold Server1.call_ai.
      destruct F as [F|[F|F]]; rewrite F; [reflexivity| |];
        now destruct (Server1.DEEPSEEK_API_KEY w).
    + intros message K F.
      unfold answer, Api1.analyzeTelemetryWithAI, Server1.analyzeTelemetryWithAI.
      destruct track; rewrite E;
        unfold Server1.analyse_valid, Server1.call_ai; rewrite K;
        destruct F as [F|F]; now rewrite F.
  - intros w trackPoints dataPoints t c g E answer message.
    unfold answer, Server2.analyzeTelemetryWithAI. rewrite E. unfold Server2.call_ai.
    split.
    + intros [F|[F|F]]; now rewrite F.
    + intros F. now rewrite F.
Qed.

Lemma endpoint_failure_outcomes_witness :
  (exists own,
     Api1.analyzeTelemetryWithAI flat_sine
       (Server1.mkWorld true Server1.NotOk 0)
       small_text small_parsed (Some "Spa") (Some "GT3") (Some "ACC") =
     Report (Server1.Synthetic own)) /\
  Api1.analyzeTelemetryWithAI flat_sine
    (Server1.mkWorld true (Server1.FetchRejects "socket hang up") 0)
    small_text small_parsed (Some "Spa") (Some "GT3") (Some "ACC") =
    Rejected "Błąd analizy: socket hang up" /\
  Server2.analyzeTelemetryWithAI
    (Server2.mkWorld (Server2.NotOk "Unauthorized") 0 "2025-01-01T00:00:00.000Z")
    small_text small_parsed "Spa" "GT3" "ACC" =
    Rejected "AI analysis failed: DeepSeek API error: Unauthorized".
Proof.
  destruct (endpoint_failure_outcomes flat_sine small_text small_parsed
              (Some "Spa") (Some "GT3") (Some "ACC")) as [H1 H2].
  split; [|split].
  - destruct (H1 (Server1.mkWorld true Server1.NotOk 0) _ _ eq_refl) as [H _].
    eexists. apply (H "Spa" eq_refl). right. left. reflexivity.
  - destruct (H1 (Server1.mkWorld true (Server1.FetchRejects "socket hang up") 0)
                 _ _ eq_refl) as [_ [_ H]].
    apply H; [reflexivity|]. left. reflexivity.
  - apply (H2 (Server2.mkWorld (Server2.NotOk "Unauthorized") 0 "2025-01-01T00:00:00.000Z")
              _ _ "Spa" "GT3" "ACC" eq_refl "Unauthorized").
    reflexivity.
Defined.

(** The failing inputs: with a key configured and a valid CSV table, a
    rejected [fetch] ends the analysis of the first copy, and of the
    second, with [{valid: false}]; so does, in the first copy, a response
    that is not [ok] to a request without the field [track]. *)
Lemma network_error_fails_analysis :
  (exists trackPoints dataPoints,
     Server1.extractTrackPointsFromTelemetry small_parsed (sniff small_text) =
     Valid trackPoints dataPoints) /\
  Api1.analyzeTelemetryWithAI flat_sine
    (Server1.mkWorld true (Server1.FetchRejects "network timeout") 0)
    small_text small_parsed (Some "Spa") (Some "GT3") (Some "ACC") =
    Rejected "Błąd analizy: network timeout" /\
  Api1.analyzeTelemetryWithAI flat_sine
    (Server1.mkWorld true Server1.NotOk 0)
    small_text small_parsed None (Some "GT3") (Some "ACC") =
    Rejected "Błąd analizy: Cannot read properties of undefined (reading 'includes')" /\
  Server2.analyzeTelemetryWithAI
    (Server2.mkWorld (Server2.FetchRejects "network timeout") 0 "2025-01-01T00:00:00.000Z")
    small_text small_parsed "Spa" "GT3" "ACC" =
    Rejected "AI analysis failed: network timeout".
Proof.
  split; [|split; [|split]].
  - eexists. eexists. vm_compute. reflexivity.
  - vm_compute. reflexivity.
  - vm_compute. reflexivity.
  - vm_compute. reflexivity.
Qed.

(** ** The narrative of the server *)

(** C8.  In the first copy, two analyses of the same text with the same
    track, car class and game, both with no usable reply of the endpoint,
    return the same result, whatever else differs between the two runs
    (the clock, the reason why the endpoint gave nothing): when the
    extraction is valid it is the narrative computed from the checksum of
    the text, the detected problems, the track points and the track. *)
Theorem synthetic_narrative_deterministic
    (Math_sin : Z -> Q) (w1 w2 : Server1.world) (telemetryData : text)
    (P : parsers) (track carClass game : string) :
  falls_through w1 -> falls_through w2 ->
  Server1.analyzeTelemetryWithAI Math_sin w1 telemetryData P track carClass game =
  Server1.analyzeTelemetryWithAI Math_sin w2 telemetryData P track carClass game /\
  forall trackPoints dataPoints,
    Server1.extractTrackPointsFromTelemetry P (sniff telemetryData) =
      Valid trackPoints dataPoints ->
    Server1.analyzeTelemetryWithAI Math_sin w1 telemetryData P track carClass game =
    Report (Server1.Synthetic
      (Server1.synthetic Math_sin (Server1.seed_of telemetryData)
         (Server1.findProblemAreas dataPoints (sniff telemetryData))
         trackPoints track)).
Proof.
  intros F1 F2.
  assert (G : forall w, falls_through w ->
    forall problems trackPoints,
      Server1.analyse_valid Math_sin (Server1.seed_of telemetryData)
        problems trackPoints track w =
      Report (Server1.Synthetic
        (Server1.synthetic Math_sin (Server1.seed_of telemetryData)
           problems trackPoints track))).
  { intros w F problems trackPoints.
    unfold Server1.analyse_valid, Server1.call_ai.
    destruct F as [F|[F|F]]; rewrite F; [reflexivity| |];
      now destruct (Server1.DEEPSEEK_API_KEY w). }
  split.
  - unfold Server1.analyzeTelemetryWithAI.
    destruct (Server1.extractTrackPointsFromTelemetry P (sniff telemetryData));
      [|reflexivity].
    now rewrite (G w1 F1), (G w2 F2).
  - intros trackPoints dataPoints E.
    unfold Server1.analyzeTelemetryWithAI. rewrite E. now apply G.
Qed.

Lemma synthetic_narrative_deterministic_witness :
  Server1.analyzeTelemetryWithAI flat_sine (Server1.mkWorld false Server1.NotOk 1700000000000)
    small_text small_parsed "Spa" "GT3" "ACC" =
  Server1.analyzeTelemetryWithAI flat_sine (Server1.mkWorld true Server1.ContentThrows 1800000000000)
    small_text small_parsed "Spa" "GT3" "ACC".
Proof.
  destruct (synthetic_narrative_deterministic flat_sine
              (Server1.mkWorld false Server1.NotOk 1700000000000)
              (Server1.mkWorld true Server1.ContentThrows 1800000000000)
              small_text small_parsed "Spa" "GT3" "ACC"
              (or_introl eq_refl) (or_intror (or_intror eq_refl))) as [H _].
  exact H.
Defined.

(** ** Unresolved columns *)



Lemma getColumn_gear_found (headers : list string) (h : string) :
  getColumn headers ["gear"] = Some h -> found (Some h) = true.
Proof.
  unfold getColumn. intros H. apply find_some in H. destruct H as [_ H].
  destruct h; [discriminate H|reflexivity].
Qed.







Lemma flat_map_ext_on {A B : Type} (f g : A -> list B) (l : list A) :
  (forall a, In a l -> f a = g a) -> flat_map f l = flat_map g l.
Proof.
  induction l as [|a l IH]; intros H; simpl; [reflexivity|].
  rewrite (H a (or_introl eq_refl)), IH; [reflexivity|].
  intros b Hb. apply H. now right.
Qed.




Lemma get_unresolved (rows : list row) (i : nat) :
  (forall r, In r rows -> get_prop (cells r) "undefined" = VUndef) ->
  get (cells (nth i rows empty_row)) None = VUndef.
Proof.
  intros H. destruct (Nat.lt_ge_cases i (List.length rows)) as [Hi|Hi].
  - apply H, nth_In, Hi.
  - now rewrite nth_overflow.
Qed.














(** ** The extraction *)

Lemma extract_raw_csv_ok (P : parsers) :
  exists pts dps, extract_raw P csv = Ok (pts, dps).
Proof.
  unfold extract_raw. destruct (papa_data P) as [|first rest]; [now eexists; eexists|].
  destruct (find is_xPos _); [|now eexists; eexists].
  destruct (find is_yPos _); [|now eexists; eexists].
  destruct (found _ && found _); now eexists; eexists.
Qed.

(** X1.  The CSV branch never ends in [{valid: false}]: in both copies the
    extraction of a text taken as CSV is valid, whatever the table that
    [Papa.parse] makes of it. *)
Theorem csv_extraction_always_valid (P : parsers) :
  (exists trackPoints dataPoints,
     Server2.extractTrackPointsFromTelemetry P csv = Valid trackPoints dataPoints) /\
  (exists trackPoints dataPoints,
     Server1.extractTrackPointsFromTelemetry P csv = Valid trackPoints dataPoints).
Proof.
  destruct (extract_raw_csv_ok P) as [pts [dps E]]. split.
  - unfold Server2.extractTrackPointsFromTelemetry. rewrite E. now eexists; eexists.
  - unfold Server1.extractTrackPointsFromTelemetry. rewrite E. now eexists; eexists.
Qed.

Lemma smooth2_nil : Server2.smoothTrackPoints [] = [].
Proof. reflexivity. Qed.

(** X2.  When the header row has no column for x or none for z, the table is
    dropped altogether: no track point, no data point, and so no problem
    can be detected, whatever the speed and brake columns hold. *)
Theorem csv_without_position_detects_nothing (P : parsers) :
  find is_xPos (Object_keys (hd [] (papa_data P))) = None \/
  find is_yPos (Object_keys (hd [] (papa_data P))) = None ->
  Server2.extractTrackPointsFromTelemetry P csv = Valid [] [] /\
  Server1.extractTrackPointsFromTelemetry P csv = Valid [] [] /\
  (forall telemetryData w track carClass game data,
     sniff telemetryData = csv ->
     Server2.analyzeTelemetryWithAI w telemetryData P track carClass game = Report data ->
     Server2.trackPoints data = [] /\ Server2.errors data = []) /\
  (forall Math_sin telemetryData w track carClass game,
     sniff telemetryData = csv ->
     falls_through w ->
     exists n,
       Server1.analyzeTelemetryWithAI Math_sin w telemetryData P track carClass game =
         Report (Server1.Synthetic n) /\
       Server1.trackLine n = Server1.default_trackLine /\
       Server1.errors n =
         Server1.default_errors Math_sin (Server1.seed_of telemetryData) []).
Proof.
  intros H.
  assert (E : extract_raw P csv = Ok ([], [])).
  { unfold extract_raw. destruct (papa_data P) as [|first rest]; [reflexivity|].
    cbn [hd] in H. destruct H as [H|H]; rewrite H; [reflexivity|].
    now destruct (find is_xPos _). }
  assert (E2 : Server2.extractTrackPointsFromTelemetry P csv = Valid [] []).
  { unfold Server2.extractTrackPointsFromTelemetry. now rewrite E. }
  assert (E1 : Server1.extractTrackPointsFromTelemetry P csv = Valid [] []).
  { unfold Server1.extractTrackPointsFromTelemetry. now rewrite E. }
  split; [exact E2|]. split; [exact E1|]. split.
  - intros telemetryData w track carClass game data Hs R.
    unfold Server2.analyzeTelemetryWithAI in R. rewrite Hs, E2 in R.
    unfold Server2.call_ai in R.
    destruct (Server2.ai w); try discriminate R.
    unfold Server2.build_result in R.
    destruct (Server2.lapAnalysis a) as [[c p]|]; [|discriminate R].
    cbn in R. destruct (Server2.ai_brakingPoints a); [|discriminate R].
    injection R as <-. split; reflexivity.
  - intros Math_sin telemetryData w track carClass game Hs F.
    exists (Server1.synthetic Math_sin (Server1.seed_of telemetryData) [] [] track).
    split; [|split; reflexivity].
    unfold Server1.analyzeTelemetryWithAI. rewrite Hs, E1.
    unfold Server1.analyse_valid, Server1.call_ai.
    destruct F as [F|[F|F]]; rewrite F; [reflexivity| |];
      now destruct (Server1.DEEPSEEK_API_KEY w).
Qed.

Lemma filterM_null (f : elem -> result bool) (items : list elem) (m : string) :
  f ENull = Throw m ->
  (forall r, exists b, f (ERow r) = Ok b) ->
  In ENull items ->
  filterM f items = Throw m.
Proof.
  intros Hn Hr. induction items as [|e items IH]; intros Hin; [destruct Hin|].
  simpl. destruct e as [|r].
  - now rewrite Hn.
  - destruct (Hr r) as [b Hb]. rewrite Hb. simpl.
    rewrite IH; [reflexivity|]. destruct Hin as [Hin|Hin]; [discriminate Hin|exact Hin].
Qed.

(** X3.  One [null] element in the parsed array, or in the [telemetry] array,
    makes the extraction of both copies fail, and with it the whole
    analysis: nothing of the other elements is reported. *)
Theorem null_element_rejects_the_upload (P : parsers) (items : list elem) :
  In ENull items ->
  (json_parse P = Ok (JArray items) ->
   let reason := "Error extracting track data: Cannot read properties of null (reading 'x')" in
   Server2.extractTrackPointsFromTelemetry P json_format = Invalid reason /\
   Server1.extractTrackPointsFromTelemetry P json_format = Invalid reason) /\
  (json_parse P = Ok (JTelemetry items) ->
   let reason :=
     "Error extracting track data: Cannot read properties of null (reading 'position')" in
   Server2.extractTrackPointsFromTelemetry P json_format = Invalid reason /\
   Server1.extractTrackPointsFromTelemetry P json_format = Invalid reason).
Proof.
  intros Hin. split; intros Hp reason.
  - assert (E : extract_raw P json_format =
                Throw "Cannot read properties of null (reading 'x')").
    { unfold extract_raw. rewrite Hp. cbn [bind].
      rewrite (filterM_null _ items "Cannot read properties of null (reading 'x')");
        [reflexivity|reflexivity| |exact Hin].
      intros r. simpl. destruct (not_nullish _); eexists; reflexivity. }
    unfold Server2.extractTrackPointsFromTelemetry,
      Server1.extractTrackPointsFromTelemetry. now rewrite E.
  - assert (E : extract_raw P json_format =
                Throw "Cannot read properties of null (reading 'position')").
    { unfold extract_raw. rewrite Hp. cbn [bind].
      rewrite (filterM_null _ items
                 "Cannot read properties of null (reading 'position')");
        [reflexivity|reflexivity| |exact Hin].
      intros r. simpl. destruct (position r); simpl;
        [destruct (not_nullish _)|]; eexists; reflexivity. }
    unfold Server2.extractTrackPointsFromTelemetry,
      Server1.extractTrackPointsFromTelemetry. now rewrite E.
Qed.

Lemma filterM_rows (f : elem -> result bool) (g : row -> bool) (rows : list row) :
  (forall r, f (ERow r) = Ok (g r)) ->
  filterM f (map ERow rows) = Ok (map ERow (filter g rows)).
Proof.
  intros H. induction rows as [|r rows IH]; simpl; [reflexivity|].
  rewrite H, IH. simpl. now destruct (g r).
Qed.

Lemma mapM_rows {B : Type} (h : elem -> result B) (h' : row -> B) (rows : list row) :
  (forall r, h (ERow r) = Ok (h' r)) ->
  mapM h (map ERow rows) = Ok (map h' rows).
Proof.
  intros H. induction rows as [|r rows IH]; simpl; [reflexivity|].
  now rewrite H, IH.
Qed.

Lemma extract_raw_array (P : parsers) (rows : list row) :
  json_parse P = Ok (JArray (map ERow rows)) ->
  extract_raw P json_format =
  Ok (map (fun r => (get_prop (cells r) "x", get_prop (cells r) "z")) (filter has_xz rows),
      map ERow rows).
Proof.
  intros Hp. unfold extract_raw. rewrite Hp. cbn [bind].
  rewrite (filterM_rows _ has_xz).
  - cbn [bind].
    rewrite (mapM_rows _ (fun r => (get_prop (cells r) "x", get_prop (cells r) "z")));
      reflexivity.
  - intros r. unfold has_xz. simpl. now destruct (not_nullish _).
Qed.

Lemma extract_raw_telemetry (P : parsers) (rows : list row) :
  json_parse P = Ok (JTelemetry (map ERow rows)) ->
  extract_raw P json_format =
  Ok (map (fun r => (position_prop r "x", position_prop r "z")) (filter has_position rows),
      map ERow rows).
Proof.
  intros Hp. unfold extract_raw. rewrite Hp. cbn [bind].
  rewrite (filterM_rows _ has_position).
  - cbn [bind].
    rewrite (mapM_rows _ (fun r => (position_prop r "x", position_prop r "z")));
      [reflexivity|].
    intros r. unfold position_prop. simpl. now destruct (position r).
  - intros r. unfold has_position, position_prop. simpl.
    destruct (position r); simpl; [now destruct (not_nullish _)|reflexivity].
Qed.

Lemma extraction_lengths (P : parsers) (fmt : format) (pts : list point) (dps : list elem) :
  extract_raw P fmt = Ok (pts, dps) ->
  (exists tp, Server2.extractTrackPointsFromTelemetry P fmt = Valid tp dps /\
              List.length tp = List.length pts) /\
  (exists tp, Server1.extractTrackPointsFromTelemetry P fmt = Valid tp dps /\
              List.length tp = List.length pts).
Proof.
  intros E. split.
  - exists (Server2.smoothTrackPoints pts). split.
    + unfold Server2.extractTrackPointsFromTelemetry. now rewrite E.
    + apply smooth2_length.
  - eexists. split.
    + unfold Server1.extractTrackPointsFromTelemetry. rewrite E. reflexivity.
    + destruct (0 <? _); [apply smooth1_length|reflexivity].
Qed.

(** X4.  The JSON branch is not sampled: in both copies an array of objects,
    flat or under [telemetry], gives one track point for each object that
    has both coordinates, however many there are, and [dataPoints] is the
    array itself. *)
Theorem json_is_not_sampled (P : parsers) (rows : list row) :
  (json_parse P = Ok (JArray (map ERow rows)) ->
   (exists tp, Server2.extractTrackPointsFromTelemetry P json_format =
                 Valid tp (map ERow rows) /\
               List.length tp = List.length (filter has_xz rows)) /\
   (exists tp, Server1.extractTrackPointsFromTelemetry P json_format =
                 Valid tp (map ERow rows) /\
               List.length tp = List.length (filter has_xz rows))) /\
  (json_parse P = Ok (JTelemetry (map ERow rows)) ->
   (exists tp, Server2.extractTrackPointsFromTelemetry P json_format =
                 Valid tp (map ERow rows) /\
               List.length tp = List.length (filter has_position rows)) /\
   (exists tp, Server1.extractTrackPointsFromTelemetry P json_format =
                 Valid tp (map ERow rows) /\
               List.length tp = List.length (filter has_position rows))).
Proof.
  split; intros Hp.
  - pose proof (extraction_lengths _ _ _ _ (extract_raw_array P rows Hp)) as H.
    rewrite length_map in H. exact H.
  - pose proof (extraction_lengths _ _ _ _ (extract_raw_telemetry P rows Hp)) as H.
    rewrite length_map in H. exact H.
Qed.

Lemma filterM_kept {A : Type} (f : A -> result bool) (l kept : list A) :
  filterM f l = Ok kept -> forall a, In a kept -> f a = Ok true.
Proof.
  revert kept. induction l as [|x l IH]; intros kept H a Ha; simpl in H.
  - injection H as <-. destruct Ha.
  - destruct (f x) as [b|] eqn:Ex; [|discriminate H]. simpl in H.
    destruct (filterM f l) as [r|]; [|discriminate H]. simpl in H.
    injection H as <-. destruct b.
    + destruct Ha as [<-|Ha]; [exact Ex|]. now apply (IH r).
    + now apply (IH r).
Qed.

Lemma mapM_image {A B : Type} (h : A -> result B) (l : list A) (out : list B) :
  mapM h l = Ok out -> forall b, In b out -> exists a, In a l /\ h a = Ok b.
Proof.
  revert out. induction l as [|x l IH]; intros out H b Hb; simpl in H.
  - injection H as <-. destruct Hb.
  - destruct (h x) as [y|] eqn:Ex; [|discriminate H]. simpl in H.
    destruct (mapM h l) as [r|]; [|discriminate H]. simpl in H.
    injection H as <-. destruct Hb as [<-|Hb].
    + exists x. split; [now left|exact Ex].
    + destruct (IH r eq_refl b Hb) as [a [Ha Hh]]. exists a. split; [now right|exact Hh].
Qed.

Lemma not_nullish_number (v : jsval) : not_nullish v = true -> exists n, v = VNum n.
Proof. destruct v; try discriminate. intros _. now eexists. Qed.

Lemma numeric_pair (x z : jsval) :
  not_nullish x && not_nullish z = true -> numeric_point (x, z).
Proof.
  intros H. apply andb_true_iff in H. destruct H as [Hx Hz].
  destruct (not_nullish_number _ Hx) as [a ->].
  destruct (not_nullish_number _ Hz) as [b ->]. now exists a, b.
Qed.

Lemma extract_raw_numeric (P : parsers) (fmt : format) (pts : list point) (dps : list elem) :
  extract_raw P fmt = Ok (pts, dps) -> Forall numeric_point pts.
Proof.
  unfold extract_raw. destruct fmt.
  - destruct (papa_data P) as [|first rest].
    + intros H. injection H as <- <-. constructor.
    + destruct (find is_xPos _) as [x|]; [|intros H; injection H as <- <-; constructor].
      destruct (find is_yPos _) as [y|]; [|intros H; injection H as <- <-; constructor].
      destruct (found _ && found _); intros H; injection H as <- <-; [|constructor].
      apply Forall_forall. intros [a b] Hp. unfold csvTrackPoints in Hp.
      apply filter_In in Hp. destruct Hp as [_ Hp]. now apply numeric_pair.
  - destruct (json_parse P) as [data|]; [|discriminate]. cbn [bind].
    destruct data as [items|items| |]; try discriminate.
    + destruct (filterM _ items) as [kept|] eqn:Ek; [|discriminate]. cbn [bind].
      destruct (mapM _ kept) as [out|] eqn:Em; [|discriminate]. cbn [bind].
      intros H. injection H as <- <-. apply Forall_forall. intros p Hp.
      destruct (mapM_image _ _ _ Em p Hp) as [e [He Hh]].
      pose proof (filterM_kept _ _ _ Ek e He) as Hf.
      destruct e as [|r]; [discriminate Hf|]. simpl in Hf, Hh.
      injection Hh as <-. apply numeric_pair.
      destruct (not_nullish (get_prop (cells r) "x")); [|discriminate Hf].
      simpl in *. now injection Hf.
    + destruct (filterM _ items) as [kept|] eqn:Ek; [|discriminate]. cbn [bind].
      destruct (mapM _ kept) as [out|] eqn:Em; [|discriminate]. cbn [bind].
      intros H. injection H as <- <-. apply Forall_forall. intros p Hp.
      destruct (mapM_image _ _ _ Em p Hp) as [e [He Hh]].
      pose proof (filterM_kept _ _ _ Ek e He) as Hf.
      destruct e as [|r]; [discriminate Hf|]. simpl in Hf, Hh.
      destruct (position r) as [o|]; simpl in Hf, Hh; [|discriminate Hf].
      injection Hh as <-. apply numeric_pair.
      destruct (not_nullish (get_prop o "x")); [|discriminate Hf].
      simpl in *. now injection Hf.
    + intros H. injection H as <- <-. constructor.
Qed.

Lemma mapi_from_Forall {A B : Type} (Q : B -> Prop) (f : nat -> A -> B) (l : list A) (k : nat) :
  (forall i a, Q (f i a)) -> Forall Q (mapi_from f k l).
Proof.
  intros H. revert k. induction l as [|a l IH]; intros k; simpl; constructor; auto.
Qed.

Lemma smooth2_numeric (pts : list point) :
  Forall numeric_point pts -> Forall numeric_point (Server2.smoothTrackPoints pts).
Proof.
  intros H. unfold Server2.smoothTrackPoints, Server2.smoothTrackPoints_w.
  destruct (_ <? 5); [exact H|]. apply mapi_from_Forall.
  intros i a. unfold average. now eexists; eexists.
Qed.

Lemma smooth1_numeric (pts : list point) :
  Forall numeric_point pts -> Forall numeric_point (Server1.smoothTrackPoints pts).
Proof.
  intros H. unfold Server1.smoothTrackPoints, Server1.smoothTrackPoints_w.
  destruct (_ <? 5); [exact H|]. apply Forall_forall. intros p Hp.
  apply in_map_iff in Hp. destruct Hp as [i [<- _]].
  unfold average. now eexists; eexists.
Qed.

(** X5.  Every track point of a valid extraction, in both copies and both
    formats, has two numbers as coordinates: no [null] and no [undefined]
    reaches the track line, neither from a row nor through the smoother
    (the cells being numbers, [null] or absent). *)
Theorem track_points_are_numbers (P : parsers) (fmt : format)
    (trackPoints : list point) (dataPoints : list elem) :
  Server2.extractTrackPointsFromTelemetry P fmt = Valid trackPoints dataPoints \/
  Server1.extractTrackPointsFromTelemetry P fmt = Valid trackPoints dataPoints ->
  Forall numeric_point trackPoints.
Proof.
  intros [H|H].
  - unfold Server2.extractTrackPointsFromTelemetry in H.
    destruct (extract_raw P fmt) as [[pts dps]|] eqn:E; [|discriminate H].
    injection H as <- <-. apply smooth2_numeric. now apply (extract_raw_numeric P fmt pts dps).
  - unfold Server1.extractTrackPointsFromTelemetry in H.
    destruct (extract_raw P fmt) as [[pts dps]|] eqn:E; [|discriminate H].
    injection H as <- <-. pose proof (extract_raw_numeric P fmt pts dps E) as N.
    destruct (0 <? _); [now apply smooth1_numeric|exact N].
Qed.

(** ** The column resolver *)

Lemma prefix_app_iff (k s : string) :
  prefix k s = true <-> exists b, s = k ++ b.
Proof.
  revert s. induction k as [|c k IH]; intros s.
  - split; [intros _; now exists s|]. intros _. now destruct s.
  - destruct s as [|d s]; simpl.
    + split; [discriminate|]. intros [b H]. discriminate H.
    + destruct (Ascii.ascii_dec c d) as [->|N].
      * rewrite IH. split; intros [b H]; exists b; [now rewrite H|].
        now injection H.
      * split; [discriminate|]. intros [b H]. injection H as H _. congruence.
Qed.

Lemma includes_iff (s k : string) :
  includes s k = true <-> exists a b, s = a ++ k ++ b.
Proof.
  split.
  - induction s as [|c s IH]; cbn [includes]; rewrite orb_true_iff; intros [H|H].
    + apply prefix_app_iff in H. destruct H as [b H]. now exists "", b.
    + discriminate H.
    + apply prefix_app_iff in H. destruct H as [b H]. now exists "", b.
    + destruct (IH H) as [a [b E]]. exists (String c a), b. simpl. now rewrite E.
  - intros [a [b E]]. subst s. induction a as [|c a IH].
    + change ("" ++ k ++ b) with (k ++ b).
      assert (P : prefix k (k ++ b) = true) by (apply prefix_app_iff; now exists b).
      destruct (k ++ b); cbn [includes]; rewrite P; reflexivity.
    + change (String c a ++ k ++ b) with (String c (a ++ k ++ b)).
      cbn [includes]. rewrite IH. apply orb_true_r.
Qed.

Lemma append_assoc (a b c : string) : (a ++ b) ++ c = a ++ (b ++ c).
Proof. induction a as [|x a IH]; simpl; [reflexivity|now rewrite IH]. Qed.

Lemma includes_trans (s k k' : string) :
  includes s k = true -> includes k k' = true -> includes s k' = true.
Proof.
  rewrite !includes_iff. intros [a [b ->]] [a' [b' ->]].
  exists (a ++ a'), (b' ++ b). now rewrite !append_assoc.
Qed.

Lemma existsb_collapse (s k : string) (keywords : list string) :
  In k keywords ->
  (forall k', In k' keywords -> includes k' k = true) ->
  existsb (fun k' => includes s k') keywords = includes s k.
Proof.
  intros Hin Hall. destruct (includes s k) eqn:E.
  - apply existsb_exists. now exists k.
  - destruct (existsb _ keywords) eqn:X; [|reflexivity].
    apply existsb_exists in X. destruct X as [k' [Hk' Hi]].
    rewrite (includes_trans s k' k Hi (Hall k' Hk')) in E. discriminate E.
Qed.

Lemma getColumn_collapse (headers keywords : list string) (k : string) :
  In k keywords ->
  (forall k', In k' keywords -> includes k' k = true) ->
  getColumn headers keywords = find (fun h => includes (toLowerCase h) k) headers.
Proof.
  intros Hin Hall. unfold getColumn.
  induction headers as [|h headers IH]; simpl; [reflexivity|].
  now rewrite (existsb_collapse _ k keywords Hin Hall), IH.
Qed.

Ltac keyword_cases :=
  intros k' H; simpl in H;
  repeat (destruct H as [<-|H]; [reflexivity|]); destruct H.

Lemma x_keywords_collapse (headers : list string) :
  getColumn headers ["position_x"; "x_pos"; "x"; "worldpositionx"] =
  find (fun h => includes (toLowerCase h) "x") headers.
Proof. apply getColumn_collapse; [simpl; tauto|keyword_cases]. Qed.

Lemma z_keywords_collapse (headers : list string) :
  getColumn headers ["position_z"; "z_pos"; "z"; "worldpositionz"] =
  find (fun h => includes (toLowerCase h) "z") headers.
Proof. apply getColumn_collapse; [simpl; tauto|keyword_cases]. Qed.

(** X6.  In both copies the detector takes as x column the first header that
    contains the letter x, in either case, and as z column the first that
    contains the letter z: the four keywords of each list all contain
    that letter, and the letter is itself a keyword. *)
Theorem position_column_is_first_with_letter (headers : list string) :
  Server2.posX (Server2.resolve headers) =
    find (fun h => includes (toLowerCase h) "x") headers /\
  Server2.posY (Server2.resolve headers) =
    find (fun h => includes (toLowerCase h) "z") headers /\
  Server1.posX (Server1.resolve headers) =
    find (fun h => includes (toLowerCase h) "x") headers /\
  Server1.posY (Server1.resolve headers) =
    find (fun h => includes (toLowerCase h) "z") headers.
Proof.
  unfold Server2.resolve, Server1.resolve.
  cbn [Server2.posX Server2.posY Server1.posX Server1.posY].
  split; [|split; [|split]].
  - apply x_keywords_collapse.
  - apply z_keywords_collapse.
  - apply x_keywords_collapse.
  - apply z_keywords_collapse.
Qed.

Lemma is_xPos_has_letter (h : string) :
  is_xPos h = true -> includes (toLowerCase h) "x" = true.
Proof.
  unfold is_xPos. rewrite !orb_true_iff. intros [[[H|H]|H]|H].
  - now apply (includes_trans _ _ "x" H).
  - now apply (includes_trans _ _ "x" H).
  - apply String.eqb_eq in H. now subst h.
  - now apply (includes_trans _ _ "x" H).
Qed.

Lemma is_yPos_has_letter (h : string) :
  is_yPos h = true -> includes (toLowerCase h) "z" = true.
Proof.
  unfold is_yPos. rewrite !orb_true_iff. intros [[[H|H]|H]|H].
  - now apply (includes_trans _ _ "z" H).
  - now apply (includes_trans _ _ "z" H).
  - apply String.eqb_eq in H. now subst h.
  - now apply (includes_trans _ _ "z" H).
Qed.

Lemma weaker_test_finds_earlier (p q : string -> bool) (headers : list string) (x : string) :
  (forall h, p h = true -> q h = true) ->
  find p headers = Some x ->
  exists h, find q headers = Some h /\ (h = x \/ p h = false).
Proof.
  intros W. induction headers as [|h0 l IH]; simpl; [discriminate|].
  destruct (p h0) eqn:Ep.
  - intros H. injection H as <-. rewrite (W _ Ep). exists h0. split; [reflexivity|now left].
  - destruct (q h0) eqn:Eq.
    + intros _. exists h0. split; [reflexivity|now right].
    + exact IH.
Qed.

(** X7.  The extractor and the detector look for the position columns with
    different tests.  Whenever the extractor finds its x column, the
    detector finds one too, and it is either the same header or an earlier
    one that the extractor had passed over; likewise for z.  So the track
    line and the positions of the problems may come from different
    columns of one table. *)
Theorem detector_column_at_or_before_extractor (headers : list string) (x : string) :
  (find is_xPos headers = Some x ->
   exists h, Server2.posX (Server2.resolve headers) = Some h /\
             (h = x \/ is_xPos h = false)) /\
  (find is_yPos headers = Some x ->
   exists h, Server2.posY (Server2.resolve headers) = Some h /\
             (h = x \/ is_yPos h = false)).
Proof.
  unfold Server2.resolve. cbn [Server2.posX Server2.posY].
  rewrite x_keywords_collapse, z_keywords_collapse. split; intros H.
  - exact (weaker_test_finds_earlier _ _ _ _ is_xPos_has_letter H).
  - exact (weaker_test_finds_earlier _ _ _ _ is_yPos_has_letter H).
Qed.

Lemma detector_column_at_or_before_extractor_witness :
  find is_xPos ["max_rpm"; "position_x"; "position_z"] = Some "position_x" /\
  exists h,
    Server2.posX (Server2.resolve ["max_rpm"; "position_x"; "position_z"]) = Some h /\
    (h = "position_x" \/ is_xPos h = false).
Proof.
  split; [reflexivity|].
  destruct (detector_column_at_or_before_extractor
              ["max_rpm"; "position_x"; "position_z"] "position_x") as [H _].
  exact (H eq_refl).
Defined.

(** ** The detector *)

Lemma column_values_null (dataPoints : list elem) (c : option string) :
  In ENull dataPoints ->
  column_values dataPoints c = Throw "Cannot read properties of null".
Proof.
  unfold column_values.
  induction dataPoints as [|e l IH]; intros Hin; [destruct Hin|].
  simpl. destruct e as [|r]; [reflexivity|]. simpl.
  rewrite IH; [reflexivity|]. destruct Hin as [Hin|Hin]; [discriminate Hin|exact Hin].
Qed.

(** X8.  One [null] entry anywhere in [dataPoints] silences the detector of
    both copies: the exception it raises is caught and the result is the
    empty list, whatever the other entries would have shown. *)
Theorem null_entry_silences_detector (dataPoints : list elem) (fmt : format) :
  In ENull dataPoints ->
  Server2.findProblemAreas dataPoints fmt = [] /\
  Server1.findProblemAreas dataPoints fmt = [].
Proof.
  intros Hin. split.
  - unfold Server2.findProblemAreas, Server2.findProblemAreas_try.
    destruct dataPoints as [|first rest]; [reflexivity|].
    destruct (keys_of first) as [headers|]; [|reflexivity]. cbn [bind].
    now rewrite (column_values_null _ _ Hin).
  - unfold Server1.findProblemAreas, Server1.findProblemAreas_try.
    destruct dataPoints as [|first rest]; [reflexivity|].
    destruct (keys_of first) as [headers|]; [|reflexivity]. cbn [bind].
    now rewrite (column_values_null _ _ Hin).
Qed.

Lemma null_entry_silences_detector_witness :
  Server2.findProblemAreas (standstill ++ [ENull]) json_format = [] /\
  Server1.findProblemAreas (standstill ++ [ENull]) json_format = [].
Proof.
  apply null_entry_silences_detector. apply in_or_app. right. now left.
Defined.

Lemma flat_map_length_bound {A B : Type} (f : A -> list B) (c : A -> bool) (k : nat)
    (l : list A) :
  (forall a, c a = false -> f a = []) ->
  (forall a, List.length (f a) <= k) ->
  List.length (flat_map f l) <= k * List.length (filter c l).
Proof.
  intros Hz Hk. induction l as [|a l IH]; simpl; [lia|].
  rewrite length_app. destruct (c a) eqn:E; simpl.
  - specialize (Hk a). lia.
  - rewrite (Hz a E). simpl. lia.
Qed.

Lemma evaluated_count (m : nat) :
  List.length (filter evaluated (seq 1 m)) <= m / 10.
Proof.
  pose proof (multiples_bound 10 (S m) ltac:(lia)) as B.
  change (seq 0 (S m)) with (0 :: seq 1 m) in B.
  cbn [filter] in B. change (0 mod 10 =? 0) with true in B. cbn [List.length] in B.
  apply Nat.div_le_lower_bound; [lia|].
  unfold evaluated. lia.
Qed.

Lemma three_guards_length {A : Type} (b1 b2 b3 : bool) (a1 a2 a3 : A) :
  List.length ((if b1 then [a1] else []) ++ (if b2 then [a2] else []) ++
               (if b3 then [a3] else [])) <= 3.
Proof. destruct b1, b2, b3; simpl; lia. Qed.

(** X9.  The detector of both copies returns at most three problems for each
    index of [1 .. n-2] that is a multiple of 10, hence at most
    [3 * floor((n - 2) / 10)] problems on [n] entries. *)
Theorem problem_count_bound (dataPoints : list elem) (fmt : format) :
  List.length (Server2.findProblemAreas dataPoints fmt)
    <= 3 * ((List.length dataPoints - 2) / 10) /\
  List.length (Server1.findProblemAreas dataPoints fmt)
    <= 3 * ((List.length dataPoints - 2) / 10).
Proof.
  split.
  - unfold Server2.findProblemAreas, Server2.findProblemAreas_try.
    destruct dataPoints as [|first rest]; [simpl; lia|].
    destruct (keys_of first) as [headers|]; [|simpl; lia]. cbn [bind].
    destruct (column_values _ _) as [allX|]; [|simpl; lia]. cbn [bind].
    destruct (column_values _ _) as [allY|]; [|simpl; lia]. cbn [bind catch_empty].
    unfold Server2.scan.
    etransitivity; [apply (flat_map_length_bound _ evaluated 3)|].
    + intros i E. unfold Server2.iteration. now rewrite E.
    + intros i. unfold Server2.iteration. destruct (evaluated i); [|simpl; lia].
      apply three_guards_length.
    + apply Nat.mul_le_mono_l. apply evaluated_count.
  - unfold Server1.findProblemAreas, Server1.findProblemAreas_try.
    destruct dataPoints as [|first rest]; [simpl; lia|].
    destruct (keys_of first) as [headers|]; [|simpl; lia]. cbn [bind].
    destruct (column_values _ _) as [allX|]; [|simpl; lia]. cbn [bind].
    destruct (column_values _ _) as [allY|]; [|simpl; lia]. cbn [bind catch_empty].
    unfold Server1.scan.
    etransitivity; [apply (flat_map_length_bound _ evaluated 3)|].
    + intros i E. unfold Server1.iteration. now rewrite E.
    + intros i. unfold Server1.iteration. destruct (evaluated i); [|simpl; lia].
      apply three_guards_length.
    + apply Nat.mul_le_mono_l. apply evaluated_count.
Qed.

Lemma fold_min_zeros (l : list row) (f : row -> num) :
  (forall r, In r l -> f r = Fin 0) ->
  fold_left min2 (map f l) (Fin 0) = Fin 0.
Proof.
  induction l as [|r l IH]; intros H; simpl; [reflexivity|].
  rewrite (H r (or_introl eq_refl)). simpl. apply IH. intros; apply H; now right.
Qed.

Lemma fold_max_zeros (l : list row) (f : row -> num) :
  (forall r, In r l -> f r = Fin 0) ->
  fold_left max2 (map f l) (Fin 0) = Fin 0.
Proof.
  induction l as [|r l IH]; intros H; simpl; [reflexivity|].
  rewrite (H r (or_introl eq_refl)). simpl. apply IH. intros; apply H; now right.
Qed.

Lemma getNorm2_unresolved (rows : list row) (value : jsval) :
  (forall r, In r rows -> get_prop (cells r) "undefined" = VUndef) ->
  Server2.getNorm value (column_of rows None) = of_Z 50.
Proof.
  intros U. apply flat_axis_is_50. unfold column_of, Math_min, Math_max.
  assert (Z0 : forall r, In r rows -> or_zero (get (cells r) None) = Fin 0).
  { intros r Hr. simpl. now rewrite (U r Hr). }
  destruct rows as [|r rows]; [reflexivity|].
  cbn [map fold_left]. rewrite (Z0 r (or_introl eq_refl)).
  change (min2 PInf (Fin 0)) with (Fin 0). change (max2 NInf (Fin 0)) with (Fin 0).
  rewrite fold_min_zeros, fold_max_zeros; [reflexivity| |];
    intros; apply Z0; now right.
Qed.

Lemma iteration1_position c allX allY rows i p :
  In p (Server1.iteration c allX allY rows i) ->
  pos p = Server1.position_at c allX allY rows i.
Proof.
  unfold Server1.iteration. destruct (evaluated i); simpl; [|intros []].
  rewrite !in_app_iff.
  intros [H|[H|H]];
    match type of H with
    | In _ (if ?b then _ else _) => destruct b
    end; simpl in H;
    solve [destruct H as [<-|[]]; reflexivity | destruct H].
Qed.

(** X10.  When no header contains the letter x and no row has a property named
    "undefined", every problem of the second copy is placed at x = 50 and
    every problem of the first copy at x = NaN; likewise for z. *)
Theorem unresolved_position_column (rows : list row) (fmt : format) :
  (forall r, In r rows -> get_prop (cells r) "undefined" = VUndef) ->
  let headers := Object_keys (cells (hd empty_row rows)) in
  (Server2.posX (Server2.resolve headers) = None ->
   (forall p, In p (Server2.findProblemAreas (map ERow rows) fmt) ->
      fst (pos p) = Fin 50) /\
   (forall p, In p (Server1.findProblemAreas (map ERow rows) fmt) ->
      fst (pos p) = NaN)) /\
  (Server2.posY (Server2.resolve headers) = None ->
   (forall p, In p (Server2.findProblemAreas (map ERow rows) fmt) ->
      snd (pos p) = Fin 50) /\
   (forall p, In p (Server1.findProblemAreas (map ERow rows) fmt) ->
      snd (pos p) = NaN)).
Proof.
  intros U headers. split; intros N; split; intros p Hp.
  - rewrite findProblemAreas2_rows in Hp. cbv zeta in Hp. fold headers in Hp.
    rewrite N in Hp. unfold Server2.scan in Hp.
    apply in_flat_map in Hp. destruct Hp as [i [_ Hp]].
    apply iteration2_position in Hp. rewrite Hp.
    unfold Server2.position_at. cbn [fst]. rewrite N.
    now rewrite getNorm2_unresolved.
  - rewrite findProblemAreas1_rows in Hp. cbv zeta in Hp. fold headers in Hp.
    unfold Server2.resolve in N. cbn [Server2.posX] in N.
    unfold Server1.scan in Hp.
    apply in_flat_map in Hp. destruct Hp as [i [_ Hp]].
    apply iteration1_position in Hp. rewrite Hp.
    unfold Server1.position_at, Server1.resolve. cbn [fst Server1.posX]. rewrite N.
    unfold Server1.getNorm. rewrite (get_unresolved rows i U). reflexivity.
  - rewrite findProblemAreas2_rows in Hp. cbv zeta in Hp. fold headers in Hp.
    rewrite N in Hp. unfold Server2.scan in Hp.
    apply in_flat_map in Hp. destruct Hp as [i [_ Hp]].
    apply iteration2_position in Hp. rewrite Hp.
    unfold Server2.position_at. cbn [snd]. rewrite N.
    now rewrite getNorm2_unresolved.
  - rewrite findProblemAreas1_rows in Hp. cbv zeta in Hp. fold headers in Hp.
    unfold Server2.resolve in N. cbn [Server2.posY] in N.
    unfold Server1.scan in Hp.
    apply in_flat_map in Hp. destruct Hp as [i [_ Hp]].
    apply iteration1_position in Hp. rewrite Hp.
    unfold Server1.position_at, Server1.resolve. cbn [snd Server1.posY]. rewrite N.
    unfold Server1.getNorm. rewrite (get_unresolved rows i U). reflexivity.
Qed.

Lemma csv_without_position_detects_nothing_witness :
  Server2.extractTrackPointsFromTelemetry blind_table csv = Valid [] [] /\
  Server1.extractTrackPointsFromTelemetry blind_table csv = Valid [] [].
Proof.
  destruct (csv_without_position_detects_nothing blind_table (or_introl eq_refl))
    as (H2 & H1 & _).
  split; [exact H2|exact H1].
Defined.

Lemma null_element_rejects_the_upload_witness :
  Server2.extractTrackPointsFromTelemetry holed_array json_format =
  Invalid "Error extracting track data: Cannot read properties of null (reading 'x')".
Proof.
  destruct (null_element_rejects_the_upload holed_array
              [ERow (sample 1 2 250 0); ENull; ERow (sample 3 4 250 0)]
              (or_intror (or_introl eq_refl))) as [H _].
  exact (proj1 (H eq_refl)).
Defined.

Lemma json_is_not_sampled_witness :
  exists tp,
    Server2.extractTrackPointsFromTelemetry
      (mkParsers [] (Ok (JArray (map ERow long_array)))) json_format =
      Valid tp (map ERow long_array) /\
    List.length tp = 400.
Proof.
  destruct (json_is_not_sampled (mkParsers [] (Ok (JArray (map ERow long_array))))
              long_array) as [H _].
  destruct (H eq_refl) as [[tp [E L]] _].
  exists tp. split; [exact E|]. rewrite L. reflexivity.
Defined.

Lemma track_points_are_numbers_witness :
  Forall numeric_point [(VNum (of_Z 1), VNum (of_Z 2))].
Proof.
  eapply (track_points_are_numbers small_parsed csv).
  left. vm_compute. reflexivity.
Defined.

Lemma unresolved_position_column_witness :
  Forall (fun p => pos p = (Fin 50, Fin 50))
         (Server2.findProblemAreas (map ERow blind) csv) /\
  List.length (Server2.findProblemAreas (map ERow blind) csv) = 1.
Proof.
  split; [|reflexivity].
  assert (U : forall r, In r blind -> get_prop (cells r) "undefined" = VUndef).
  { intros r Hr. unfold blind in Hr. apply in_app_or in Hr.
    destruct Hr as [Hr|[<-|[<-|[]]]]; [|reflexivity|reflexivity].
    apply repeat_spec in Hr. now subst r. }
  destruct (unresolved_position_column blind csv U) as [HX HY].
  destruct (HX eq_refl) as [HX2 _]. destruct (HY eq_refl) as [HY2 _].
  apply Forall_forall. intros p Hp.
  specialize (HX2 p Hp). specialize (HY2 p Hp).
  destruct (pos p) as [a b]. cbn [fst snd] in *. now subst.
Defined.

(** ** The smoothers *)

Lemma slice_incl {A : Type} (l : list A) (lo hi : nat) (x : A) :
  hi <= List.length l -> In x (slice lo hi l) -> In x l.
Proof.
  intros Hhi H. rewrite (slice_window l lo hi x Hhi) in H.
  apply in_map_iff in H. destruct H as [j [<- Hj]].
  apply filter_In in Hj. destruct Hj as [Hj _]. apply in_seq in Hj.
  apply nth_In. lia.
Qed.

Lemma slice_length {A : Type} (l : list A) (lo hi : nat) :
  hi <= List.length l -> List.length (slice lo hi l) = hi - lo.
Proof.
  intros H. unfold slice. rewrite length_firstn, length_skipn. lia.
Qed.

Lemma mapi_from_In {A B : Type} (f : nat -> A -> B) (l : list A) (k : nat) (b : B) :
  In b (mapi_from f k l) ->
  exists i a, i < List.length l /\ b = f (k + i) a.
Proof.
  revert k. induction l as [|x l IH]; intros k H; simpl in H; [destruct H|].
  destruct H as [<-|H].
  - exists 0, x. split; [simpl; lia|]. now rewrite Nat.add_0_r.
  - destruct (IH _ H) as [i [a [Hi E]]]. exists (S i), a. split; [simpl; lia|].
    rewrite E. f_equal. lia.
Qed.

(** The sum of a window inside a box with whole corners: after [k]
    points it lies between [k * a] and [k * b], which are binary64
    numbers, so that no rounding leaves the interval. *)
Lemma sum_in_range (read : point -> num) (a b : Z) (w : list point) :
  forall (k : nat) (s0 : Q),
    (Z.of_nat (k + List.length w) * Z.max (Z.abs a) (Z.abs b) < 2 ^ 53)%Z ->
    Forall (fun p => exists x, read p = Fin x /\
                               (inject_Z a <= x)%Q /\ (x <= inject_Z b)%Q) w ->
    (inject_Z (Z.of_nat k * a) <= s0)%Q -> (s0 <= inject_Z (Z.of_nat k * b))%Q ->
    exists s,
      fold_left (fun sum p => num_add sum (read p)) w (Fin s0) = Fin s /\
      (inject_Z (Z.of_nat (k + List.length w) * a) <= s)%Q /\
      (s <= inject_Z (Z.of_nat (k + List.length w) * b))%Q.
Proof.
  induction w as [|p w IH]; intros k s0 Hb Hw L U.
  - exists s0. cbn [List.length fold_left]. rewrite Nat.add_0_r. now repeat split.
  - apply Forall_cons_iff in Hw. destruct Hw as [[x [Ex [Ha Hx]]] Hw].
    cbn [fold_left]. rewrite Ex. cbn [num_add].
    cbn [List.length] in *.
    destruct (fl_integer (Z.of_nat (S k) * a)) as [A [EA HA]]; [nia|].
    destruct (fl_integer (Z.of_nat (S k) * b)) as [B [EB HB]]; [nia|].
    assert (Sa : (inject_Z (Z.of_nat (S k) * a) ==
                  inject_Z (Z.of_nat k * a) + inject_Z a)%Q).
    { rewrite <- inject_Z_plus. apply inject_Z_injective. lia. }
    assert (Sb : (inject_Z (Z.of_nat (S k) * b) ==
                  inject_Z (Z.of_nat k * b) + inject_Z b)%Q).
    { rewrite <- inject_Z_plus. apply inject_Z_injective. lia. }
    destruct (fl_between _ _ (s0 + x) _ _ EA EB) as [X [EX [LX UX]]]; [lra|lra|].
    rewrite EX.
    destruct (IH (S k) X) as [s [Es [Ls Us]]]; [| exact Hw | lra | lra |].
    + replace (S k + List.length w) with (k + S (List.length w)) by lia. exact Hb.
    + exists s. replace (k + S (List.length w)) with (S k + List.length w) by lia.
      now repeat split.
Qed.

Lemma mean_in_range (s : Q) (a b : Z) (n : nat) :
  0 < n ->
  (Z.of_nat n * Z.max (Z.abs a) (Z.abs b) < 2 ^ 53)%Z ->
  (inject_Z (Z.of_nat n * a) <= s)%Q -> (s <= inject_Z (Z.of_nat n * b))%Q ->
  exists q, num_div (Fin s) (of_nat n) = Fin q /\
            (inject_Z a <= q)%Q /\ (q <= inject_Z b)%Q.
Proof.
  intros Hn Hb L U. unfold num_div, of_nat.
  assert (P : (0 < inject_Z (Z.of_nat n))%Q).
  { change 0%Q with (inject_Z 0). rewrite <- Zlt_Qlt. lia. }
  destruct (Qeq_bool (inject_Z (Z.of_nat n)) 0) eqn:E;
    [apply Qeq_bool_iff in E; lra|].
  rewrite inject_Z_mult in L, U.
  destruct (fl_integer a) as [A [EA HA]]; [nia|].
  destruct (fl_integer b) as [B [EB HB]]; [nia|].
  destruct (fl_between _ _ (s / inject_Z (Z.of_nat n)) _ _ EA EB) as [q [Eq [Lq Uq]]].
  - apply Qle_shift_div_l; [exact P|]. lra.
  - apply Qle_shift_div_r; [exact P|]. lra.
  - exists q. split; [exact Eq|]. split; lra.
Qed.

Lemma average_in_box (a b c d : Z) (w : list point) :
  0 < List.length w ->
  (Z.of_nat (List.length w) * Z.max (Z.abs a) (Z.abs b) < 2 ^ 53)%Z ->
  (Z.of_nat (List.length w) * Z.max (Z.abs c) (Z.abs d) < 2 ^ 53)%Z ->
  Forall (in_box (inject_Z a) (inject_Z b) (inject_Z c) (inject_Z d)) w ->
  in_box (inject_Z a) (inject_Z b) (inject_Z c) (inject_Z d) (average w).
Proof.
  intros Hn Hx Hz H. unfold average.
  destruct (sum_in_range (fun p => ToNumber (fst p)) a b w 0 0) as [sx [Ex [Lx Ux]]];
    [exact Hx| |discriminate|discriminate|].
  { apply Forall_forall. intros p Hp.
    destruct (proj1 (Forall_forall _ _) H p Hp) as [x [z [-> [A [B _]]]]].
    exists x. now repeat split. }
  destruct (sum_in_range (fun p => ToNumber (snd p)) c d w 0 0) as [sz [Ez [Lz Uz]]];
    [exact Hz| |discriminate|discriminate|].
  { apply Forall_forall. intros p Hp.
    destruct (proj1 (Forall_forall _ _) H p Hp) as [x [z [-> [_ [_ [C D]]]]]].
    exists z. now repeat split. }
  change (sum_x w = Fin sx) in Ex. change (sum_z w = Fin sz) in Ez.
  rewrite Ex, Ez. cbn [Nat.add] in *.
  destruct (mean_in_range sx a b _ Hn Hx Lx Ux) as [qx [Eqx [Ax Bx]]].
  destruct (mean_in_range sz c d _ Hn Hz Lz Uz) as [qz [Eqz [Cz Dz]]].
  rewrite Eqx, Eqz. exists qx, qz. repeat split; assumption.
Qed.

(** X11.  Smoothing keeps the track inside a box with whole corners: when
    every input point has finite coordinates with [a <= x <= b] and
    [c <= z <= d], for whole numbers [a], [b], [c] and [d] whose
    [2W + 1]-fold is below [2^53] in magnitude, so has every smoothed
    point, in the second copy for every half-width and in the first for
    every half-width of at least 1.  The sums of a window then stay
    between whole multiples of the corners, which are binary64 numbers;
    between other bounds the rounding can carry a mean outside. *)
Theorem smoothing_stays_in_box (points : list point) (W : nat) (a b c d : Z) :
  let box := in_box (inject_Z a) (inject_Z b) (inject_Z c) (inject_Z d) in
  (Z.of_nat (2 * W + 1) * Z.max (Z.abs a) (Z.abs b) < 2 ^ 53)%Z ->
  (Z.of_nat (2 * W + 1) * Z.max (Z.abs c) (Z.abs d) < 2 ^ 53)%Z ->
  Forall box points ->
  Forall box (Server2.smoothTrackPoints_w points W) /\
  (1 <= W -> Forall box (Server1.smoothTrackPoints_w points W)).
Proof.
  intros box Hx Hz H. split.
  - unfold Server2.smoothTrackPoints_w.
    destruct (Nat.ltb_spec (List.length points) W) as [L|L]; [exact H|].
    apply Forall_forall. intros p Hp. unfold mapi in Hp.
    apply mapi_from_In in Hp. destruct Hp as [i [_ [Hi ->]]]. cbn [Nat.add].
    assert (Hlen : List.length (slice (window_start i W)
                     (Nat.min (List.length points) (i + W + 1)) points) =
                   Nat.min (List.length points) (i + W + 1) - (i - W))
      by (rewrite slice_length by apply Nat.le_min_l; now rewrite window_start_sub).
    apply average_in_box.
    + rewrite Hlen. lia.
    + rewrite Hlen. nia.
    + rewrite Hlen. nia.
    + apply Forall_forall. intros q Hq.
      apply slice_incl in Hq; [|apply Nat.le_min_l].
      exact (proj1 (Forall_forall _ _) H q Hq).
  - intros HW. unfold Server1.smoothTrackPoints_w.
    destruct (Nat.ltb_spec (List.length points) W) as [L|L]; [exact H|].
    apply Forall_forall. intros p Hp.
    apply in_map_iff in Hp. destruct Hp as [i [<- Hi]]. apply in_seq in Hi.
    rewrite window_start_sub. apply average_in_box.
    + rewrite length_map, length_seq. lia.
    + rewrite length_map, length_seq. nia.
    + rewrite length_map, length_seq. nia.
    + apply Forall_forall. intros q Hq.
      apply in_map_iff in Hq. destruct Hq as [j [<- Hj]]. apply in_seq in Hj.
      apply (proj1 (Forall_forall _ _) H). apply nth_In. lia.
Qed.

(** Eight points at [(3, 4)] stay there; the eight points at
    [(250.3, 4)] do not stay at 250.3, which is no whole number. *)
Lemma smoothing_stays_in_box_witness :
  Forall (in_box 3 3 4 4)
    (Server2.smoothTrackPoints_w (repeat (VNum (Fin 3), VNum (Fin 4)) 8) 5) /\
  Forall (in_box 3 3 4 4)
    (Server1.smoothTrackPoints_w (repeat (VNum (Fin 3), VNum (Fin 4)) 8) 5).
Proof.
  assert (H : Forall (in_box (inject_Z 3) (inject_Z 3) (inject_Z 4) (inject_Z 4))
                (repeat (VNum (Fin 3), VNum (Fin 4)) 8)).
  { apply Forall_forall. intros p Hp. apply repeat_spec in Hp. subst p.
    exists 3%Q, 4%Q. repeat split; discriminate. }
  destruct (smoothing_stays_in_box _ 5 3 3 4 4 ltac:(reflexivity) ltac:(reflexivity) H)
    as [H2 H1].
  split; [exact H2|]. apply H1. lia.
Defined.

Lemma skipn_as_nth {A : Type} (l : list A) (lo : nat) (d : A) :
  skipn lo l = map (fun j => nth j l d) (seq lo (List.length l - lo)).
Proof.
  revert lo. induction l as [|a l IH]; intros lo.
  - now destruct lo.
  - destruct lo as [|lo].
    + cbn [skipn List.length Nat.sub seq map nth]. f_equal.
      rewrite <- seq_shift, map_map. cbn [nth].
      specialize (IH 0). rewrite Nat.sub_0_r in IH. exact IH.
    + cbn [skipn List.length Nat.sub]. rewrite IH, <- seq_shift, map_map. reflexivity.
Qed.

Lemma slice_to_end {A : Type} (l : list A) (lo : nat) (d : A) :
  slice lo (List.length l) l =
  map (fun j => nth j l d) (seq lo (List.length l - lo)).
Proof.
  unfold slice. rewrite firstn_all2; [apply skipn_as_nth|].
  rewrite length_skipn. lia.
Qed.

(** X12.  The window of the second copy reaches one index further than
    that of the first, which makes no difference at the end of the track:
    at every index [i] with [i + W >= n], where both windows end at the
    last point, the two smoothers return the same point. *)
Theorem smoothers_agree_near_the_end (points : list point) (W i : nat) :
  i < List.length points ->
  List.length points <= i + W ->
  nth i (Server1.smoothTrackPoints_w points W) (VUndef, VUndef) =
  nth i (Server2.smoothTrackPoints_w points W) (VUndef, VUndef).
Proof.
  intros Hi Hend.
  unfold Server1.smoothTrackPoints_w, Server2.smoothTrackPoints_w.
  destruct (List.length points <? W); [reflexivity|].
  rewrite nth_map_seq by exact Hi. unfold mapi.
  rewrite (mapi_from_nth _ _ _ _ _ (VUndef, VUndef)) by exact Hi. cbn [Nat.add].
  rewrite !Nat.min_l by lia.
  now rewrite (slice_to_end points _ (VUndef, VUndef)).
Qed.

Lemma smoothers_agree_near_the_end_witness :
  nth 2 (Server1.smoothTrackPoints_w ramp 5) (VUndef, VUndef) =
  nth 2 (Server2.smoothTrackPoints_w ramp 5) (VUndef, VUndef).
Proof.
  apply smoothers_agree_near_the_end; simpl; lia.
Defined.

(** ** The narrative of the first copy *)





(** X14.  The checksum reads the text at the indices 0, 100, ..., 900 only: two
    texts of the same length that agree at those indices have the same
    checksum, whatever they hold elsewhere. *)
Theorem checksum_reads_ten_positions (t1 t2 : text) :
  List.length t1 = List.length t2 ->
  (forall k, k < 10 -> nth (100 * k) t1 0 = nth (100 * k) t2 0) ->
  Server1.seed_of t1 = Server1.seed_of t2.
Proof.
  intros Hl Hs. unfold Server1.seed_of. f_equal. f_equal.
  unfold Server1.telemetryHash. rewrite Hl. f_equal.
  apply map_ext_in. intros i Hi. apply filter_In in Hi. destruct Hi as [Hi _].
  apply in_map_iff in Hi. destruct Hi as [k [<- Hk]]. apply in_seq in Hk.
  now rewrite Hs by lia.
Qed.

Lemma checksum_reads_ten_positions_witness :
  Server1.seed_of small_text =
  Server1.seed_of (firstn 1 small_text ++ repeat 48 (List.length small_text - 1))%list.
Proof.
  apply checksum_reads_ten_positions.
  - reflexivity.
  - intros k Hk. destruct k as [|k]; [reflexivity|].
    rewrite !nth_overflow; [reflexivity| |]; simpl; lia.
Defined.

(** ** The statistics of the report *)

Lemma report_statistics (w : Server2.world) (telemetryData : text) (P : parsers)
    (track carClass game : string) (data : Server2.result2)
    (trackPoints : list point) (dataPoints : list elem) :
  Server2.extractTrackPointsFromTelemetry P (sniff telemetryData) =
    Valid trackPoints dataPoints ->
  Server2.analyzeTelemetryWithAI w telemetryData P track carClass game = Report data ->
  exists speeds throttles,
    Server2.literal_values "speed" dataPoints = Ok speeds /\
    Server2.literal_values "throttle" dataPoints = Ok throttles /\
    Server2.topSpeed data = Math_max speeds /\
    Server2.avgSpeed data =
      num_div (Server2.sum_num speeds) (of_nat (List.length dataPoints)) /\
    Server2.throttleUsage data =
      num_mul (num_div (Server2.sum_num throttles) (of_nat (List.length dataPoints)))
              (of_Z 100).
Proof.
  intros E. unfold Server2.analyzeTelemetryWithAI. rewrite E.
  unfold Server2.call_ai, Server2.build_result.
  destruct (Server2.ai w) as [| | | |a]; try discriminate.
  destruct (Server2.lapAnalysis a) as [[currentTime potentialImprovement]|];
    [|discriminate].
  destruct (Server2.literal_values "speed" dataPoints) as [speeds|]; [|discriminate].
  destruct (Server2.literal_values "throttle" dataPoints) as [throttles|];
    [|discriminate].
  cbn [bind]. destruct (Server2.ai_brakingPoints a); [|discriminate].
  intros [= <-]. exists speeds, throttles. repeat split.
Qed.

(** X15.  When the extraction leaves no data point, as it does for a CSV table
    without position columns, a report of the second copy has the top
    speed [-Infinity] and the average speed and the throttle usage [NaN]:
    the maximum of no number and 0 / 0. *)
Theorem empty_data_statistics (w : Server2.world) (telemetryData : text) (P : parsers)
    (track carClass game : string) (data : Server2.result2) (trackPoints : list point) :
  Server2.extractTrackPointsFromTelemetry P (sniff telemetryData) = Valid trackPoints [] ->
  Server2.analyzeTelemetryWithAI w telemetryData P track carClass game = Report data ->
  Server2.topSpeed data = NInf /\ Server2.avgSpeed data = NaN /\
  Server2.throttleUsage data = NaN /\
  toFixed 1 (Server2.avgSpeed data) = "NaN".
Proof.
  intros E R.
  destruct (report_statistics _ _ _ _ _ _ _ _ _ E R)
    as (speeds & throttles & [= <-] & [= <-] & -> & -> & ->).
  repeat split.
Qed.

Lemma empty_data_statistics_witness :
  exists data,
    Server2.analyzeTelemetryWithAI replying blind_text blind_table "Spa" "GT3" "ACC" =
      Report data /\
    Server2.topSpeed data = NInf /\ Server2.avgSpeed data = NaN.
Proof.
  eexists. split; [vm_compute; reflexivity|].
  destruct (empty_data_statistics replying blind_text blind_table "Spa" "GT3" "ACC"
              _ [] eq_refl eq_refl) as (H1 & H2 & _).
  split; [exact H1|exact H2].
Defined.

Lemma sum_zeros (l : list num) :
  Forall (fun n => n = Fin 0) l -> Server2.sum_num l = Fin 0.
Proof.
  unfold Server2.sum_num. induction 1 as [|n l -> _ IH]; [reflexivity|exact IH].
Qed.

Lemma max_zeros (l : list num) :
  l <> [] -> Forall (fun n => n = Fin 0) l -> Math_max l = Fin 0.
Proof.
  unfold Math_max. intros Hn H. destruct H as [|n l -> H]; [congruence|].
  cbn [fold_left]. change (max2 NInf (Fin 0)) with (Fin 0). clear Hn.
  induction H as [|n' l' -> _ IH]; [reflexivity|exact IH].
Qed.

Lemma zero_over_count (n : nat) :
  n <> 0 -> exists q, num_div (Fin 0) (of_nat n) = Fin q /\ q == 0.
Proof.
  intros Hn. unfold num_div, of_nat.
  destruct (Qeq_bool (inject_Z (Z.of_nat n)) 0) eqn:E.
  - apply Qeq_bool_eq in E. unfold Qeq, inject_Z in E. simpl in E. lia.
  - exists 0%Q. split; [|reflexivity]. apply fl_zero. unfold Qdiv. apply Qmult_0_l.
Qed.

(** X16.  The statistics read the property named [speed] and nothing else: on
    rows without a property of that name, whatever the column the detector
    takes for the speed, the report of the second copy has the top speed 0
    and the average speed 0. *)
Theorem statistics_read_speed_literally
    (w : Server2.world) (telemetryData : text) (P : parsers)
    (track carClass game : string) (data : Server2.result2)
    (trackPoints : list point) (rows : list row) :
  rows <> [] ->
  (forall r, In r rows -> get_prop (cells r) "speed" = VUndef) ->
  Server2.extractTrackPointsFromTelemetry P (sniff telemetryData) =
    Valid trackPoints (map ERow rows) ->
  Server2.analyzeTelemetryWithAI w telemetryData P track carClass game = Report data ->
  Server2.topSpeed data = Fin 0 /\
  exists q, Server2.avgSpeed data = Fin q /\ q == 0.
Proof.
  intros Hn Hs E R.
  destruct (report_statistics _ _ _ _ _ _ _ _ _ E R)
    as (speeds & throttles & Es & _ & -> & -> & _).
  assert (Z0 : speeds = map (fun _ => Fin 0) rows).
  { unfold Server2.literal_values in Es.
    assert (M : forall l : list row,
               (forall r, In r l -> get_prop (cells r) "speed" = VUndef) ->
               mapM (fun e => bind (elem_prop e "speed") (fun v => Ok (or_zero v)))
                    (map ERow l) = Ok (map (fun _ => Fin 0) l)).
    { induction l as [|r l IH]; intros H; [reflexivity|].
      cbn [map mapM elem_prop bind]. rewrite (H r (or_introl eq_refl)).
      rewrite IH by (intros; apply H; now right). reflexivity. }
    rewrite (M rows Hs) in Es. now injection Es as <-. }
  assert (F : Forall (fun n => n = Fin 0) speeds).
  { subst speeds. apply Forall_forall. intros n Hin. apply in_map_iff in Hin.
    now destruct Hin as (_ & <- & _). }
  split.
  - apply max_zeros; [|exact F]. subst speeds. now destruct rows.
  - rewrite (sum_zeros _ F). apply zero_over_count. rewrite length_map.
    now destruct rows.
Qed.

Lemma statistics_read_speed_literally_witness :
  exists data,
    Server2.analyzeTelemetryWithAI replying kmh_text kmh_table "Spa" "GT3" "ACC" =
      Report data /\
    Server2.speed
      (Server2.resolve (Object_keys (hd [] (papa_data kmh_table)))) = Some "Speed_kmh" /\
    Server2.topSpeed data = Fin 0.
Proof.
  eexists. split; [vm_compute; reflexivity|]. split; [reflexivity|].
  refine (proj1 (statistics_read_speed_literally replying kmh_text kmh_table
                   "Spa" "GT3" "ACC" _ _ (map (fun c => mkRow c None) (papa_data kmh_table))
                   _ _ _ eq_refl)).
  - discriminate.
  - intros r Hr. simpl in Hr. destruct Hr as [<-|[<-|[<-|[]]]]; reflexivity.
  - vm_compute. reflexivity.
Defined.

(** ** The detectors of the two copies *)

Lemma iteration_kinds (headers : list string) (rows : list row)
    (allX1 allY1 allX2 allY2 : list num) (i : nat) :
  (forall r, In r rows -> get_prop (cells r) "undefined" = VUndef) ->
  map kind (Server1.iteration (Server1.resolve headers) allX1 allY1 rows i) =
  map kind (Server2.iteration (Server2.resolve headers) allX2 allY2 rows i).
Proof.
  intros U. unfold Server1.iteration, Server2.iteration.
  destruct (evaluated i); cbn [negb]; [|reflexivity].
  unfold Server1.speedDrop_at, Server2.speedDrop_at, Server1.resolve, Server2.resolve.
  cbn [Server1.speed Server1.brake Server1.throttle Server1.gear
       Server2.speed Server2.brake Server2.throttle Server2.gear].
  rewrite !map_app. f_equal; [|f_equal].
  - now destruct (_ && _).
  - now destruct (_ && _).
  - destruct (getColumn headers ["gear"]) as [h|] eqn:G.
    + rewrite (getColumn_gear_found headers h G). cbn [andb].
      now destruct (_ && _).
    + rewrite (get_unresolved rows i U). cbn [found andb].
      change (js_lt VUndef (of_Z 5)) with false. now rewrite andb_false_r.
Qed.

(** X17.  When no row has a property named "undefined", the detectors of the
    two copies report the same problems in the same order, as far as the
    description and the severity go; where they differ is the position
    (the first copy does not guard a flat axis) and [timeLost] (the first
    copy has none). *)
Theorem detectors_agree_on_kinds (rows : list row) (fmt : format) :
  (forall r, In r rows -> get_prop (cells r) "undefined" = VUndef) ->
  map kind (Server1.findProblemAreas (map ERow rows) fmt) =
  map kind (Server2.findProblemAreas (map ERow rows) fmt).
Proof.
  intros U. rewrite findProblemAreas1_rows, findProblemAreas2_rows. cbv zeta.
  unfold Server1.scan, Server2.scan. rewrite !map_flat_map.
  apply flat_map_ext. intros i. now apply iteration_kinds.
Qed.

Lemma detectors_agree_on_kinds_witness :
  map kind (Server1.findProblemAreas standstill json_format) =
  map kind (Server2.findProblemAreas standstill json_format) /\
  map kind (Server2.findProblemAreas standstill json_format) =
    [("Harsh braking detected", "high")].
Proof.
  split; [|reflexivity].
  apply (detectors_agree_on_kinds
           (repeat (sample 5 7 250 0) 10 ++
            [sample 5 7 220 (9 # 10); sample 5 7 220 0])%list json_format).
  intros r Hr. apply in_app_or in Hr.
  destruct Hr as [Hr|[<-|[<-|[]]]]; [|reflexivity|reflexivity].
  apply repeat_spec in Hr. now subst r.
Defined.

(** X18.  Every problem that the detector reports is of one of three kinds,
    each with its own severity; the second copy always gives [timeLost],
    a text that ends in [s], and the first copy never does. *)
Theorem problems_are_of_three_kinds (dataPoints : list elem) (fmt : format) :
  (forall p, In p (Server2.findProblemAreas dataPoints fmt) ->
     (kind p = ("Harsh braking detected", "high") \/
      kind p = ("Overlapping throttle and brake", "medium") \/
      kind p = ("Late upshift detected", "low")) /\
     exists t, timeLost p = Some (t ++ "s")) /\
  (forall p, In p (Server1.findProblemAreas dataPoints fmt) ->
     (kind p = ("Harsh braking detected", "high") \/
      kind p = ("Overlapping throttle and brake", "medium") \/
      kind p = ("Late upshift detected", "low")) /\
     timeLost p = None).
Proof.
  split; intros p Hp.
  - unfold Server2.findProblemAreas, catch_empty in Hp.
    destruct (Server2.findProblemAreas_try dataPoints) as [l|] eqn:E; [|destruct Hp].
    unfold Server2.findProblemAreas_try in E.
    destruct dataPoints as [|first rest]; [injection E as <-; destruct Hp|].
    destruct (keys_of first) as [headers|]; [|discriminate E]. cbn [bind] in E.
    destruct (column_values _ _) as [allX|]; [|discriminate E]. cbn [bind] in E.
    destruct (column_values _ _) as [allY|]; [|discriminate E]. cbn [bind] in E.
    injection E as <-. unfold Server2.scan in Hp.
    apply in_flat_map in Hp. destruct Hp as [i [_ Hp]].
    unfold Server2.iteration in Hp. destruct (evaluated i); [|destruct Hp].
    cbn [negb] in Hp. rewrite !in_app_iff in Hp.
    destruct Hp as [H|[H|H]];
      match type of H with
      | In _ (if ?b then _ else _) => destruct b
      end; simpl in H; try contradiction; destruct H as [<-|[]].
    + split; [now left|]. eexists. reflexivity.
    + split; [right; now left|]. now exists "0.2".
    + split; [right; now right|]. now exists "0.1".
  - unfold Server1.findProblemAreas, catch_empty in Hp.
    destruct (Server1.findProblemAreas_try dataPoints) as [l|] eqn:E; [|destruct Hp].
    unfold Server1.findProblemAreas_try in E.
    destruct dataPoints as [|first rest]; [injection E as <-; destruct Hp|].
    destruct (keys_of first) as [headers|]; [|discriminate E]. cbn [bind] in E.
    destruct (column_values _ _) as [allX|]; [|discriminate E]. cbn [bind] in E.
    destruct (column_values _ _) as [allY|]; [|discriminate E]. cbn [bind] in E.
    injection E as <-. unfold Server1.scan in Hp.
    apply in_flat_map in Hp. destruct Hp as [i [_ Hp]].
    unfold Server1.iteration in Hp. destruct (evaluated i); [|destruct Hp].
    cbn [negb] in Hp. rewrite !in_app_iff in Hp.
    destruct Hp as [H|[H|H]];
      match type of H with
      | In _ (if ?b then _ else _) => destruct b
      end; simpl in H; try contradiction; destruct H as [<-|[]].
    + split; [now left|reflexivity].
    + split; [right; now left|reflexivity].
    + split; [right; now right|reflexivity].
Qed.

(** ** The format of the upload *)

Lemma sniff_csv (telemetryData : text) :
  (forall k, k < 20 -> nth k telemetryData 0 <> 123) -> sniff telemetryData = csv.
Proof.
  intros H. unfold sniff.
  destruct (existsb (Nat.eqb 123) (firstn 20 telemetryData)) eqn:E; [|reflexivity].
  apply existsb_exists in E. destruct E as (x & Hx & E).
  apply Nat.eqb_eq in E. subst x.
  apply (In_nth _ _ 0) in Hx. destruct Hx as (k & Hk & Hn).
  rewrite length_firstn in Hk. rewrite nth_firstn in Hn.
  destruct (Nat.ltb_spec k 20) as [L|L]; [|lia].
  now contradiction (H k L).
Qed.

(** X19.  The format is read off the first 20 code units of the text and off
    nothing else.  A text with no opening brace among them is taken as
    CSV, whatever it is: [JSON.parse] is not consulted, the extraction of
    both copies is valid, and the analysis of both copies depends on the
    parsers through the table of [Papa.parse] alone. *)
Theorem brace_after_twenty_is_csv (telemetryData : text) (P P' : parsers) :
  (forall k, k < 20 -> nth k telemetryData 0 <> 123) ->
  papa_data P = papa_data P' ->
  sniff telemetryData = csv /\
  (forall w track carClass game,
     Server2.analyzeTelemetryWithAI w telemetryData P track carClass game =
     Server2.analyzeTelemetryWithAI w telemetryData P' track carClass game) /\
  (forall Math_sin w track carClass game,
     Server1.analyzeTelemetryWithAI Math_sin w telemetryData P track carClass game =
     Server1.analyzeTelemetryWithAI Math_sin w telemetryData P' track carClass game) /\
  (forall reason,
     Server2.extractTrackPointsFromTelemetry P (sniff telemetryData) <> Invalid reason /\
     Server1.extractTrackPointsFromTelemetry P (sniff telemetryData) <> Invalid reason).
Proof.
  intros H E. pose proof (sniff_csv telemetryData H) as S.
  assert (R : extract_raw P csv = extract_raw P' csv).
  { unfold extract_raw. now rewrite E. }
  split; [exact S|]. split; [|split].
  - intros. unfold Server2.analyzeTelemetryWithAI,
      Server2.extractTrackPointsFromTelemetry. now rewrite S, R.
  - intros. unfold Server1.analyzeTelemetryWithAI,
      Server1.extractTrackPointsFromTelemetry. now rewrite S, R.
  - intros reason. rewrite S.
    unfold Server2.extractTrackPointsFromTelemetry,
      Server1.extractTrackPointsFromTelemetry.
    assert (V : exists pts dps, extract_raw P csv = Ok (pts, dps)).
    { unfold extract_raw. destruct (papa_data P) as [|first rest]; [now eexists; eexists|].
      destruct (find is_xPos _); [|now eexists; eexists].
      destruct (find is_yPos _); [|now eexists; eexists].
      destruct (found _ && found _); now eexists; eexists. }
    destruct V as (pts & dps & ->). split; discriminate.
Qed.

Lemma brace_after_twenty_is_csv_witness :
  sniff pairs_text = csv /\
  Server2.analyzeTelemetryWithAI
    (Server2.mkWorld (Server2.NotOk "Unauthorized") 0 "2025-01-01T00:00:00.000Z")
    pairs_text (mkParsers [] (Ok (JArray []))) "Spa" "GT3" "ACC" =
  Server2.analyzeTelemetryWithAI
    (Server2.mkWorld (Server2.NotOk "Unauthorized") 0 "2025-01-01T00:00:00.000Z")
    pairs_text (mkParsers [] (Throw "Unexpected end of JSON input")) "Spa" "GT3" "ACC".
Proof.
  assert (H : forall k, k < 20 -> nth k pairs_text 0 <> 123).
  { intros k Hk. do 20 (destruct k as [|k]; [discriminate|]). lia. }
  destruct (brace_after_twenty_is_csv pairs_text
              (mkParsers [] (Ok (JArray [])))
              (mkParsers [] (Throw "Unexpected end of JSON input")) H eq_refl)
    as (S & A2 & _).
  split; [exact S|apply A2].
Defined.

(** ** The routes and the store of the second copy *)

Import Api2.

(** ** The rate limiter *)

Lemma Map_get_set {V : Type} (m : Map V) (k k' : string) (v : V) :
  Map_get (Map_set m k v) k' = if String.eqb k k' then Some v else Map_get m k'.
Proof.
  induction m as [|[k0 v0] m IH]; simpl.
  - reflexivity.
  - destruct (String.eqb_spec k0 k) as [->|N]; simpl.
    + now destruct (String.eqb k k').
    + rewrite IH. destruct (String.eqb_spec k0 k') as [->|N'].
      * destruct (String.eqb_spec k k'); [congruence|reflexivity].
      * reflexivity.
Qed.

Lemma in_window_later (now now' : Z) (l : list Z) :
  (now <= now')%Z -> in_window now' (in_window now l) = in_window now' l.
Proof.
  intros H. unfold in_window. induction l as [|t l IH]; simpl; [reflexivity|].
  destruct (Z.ltb_spec (now - t) RATE_LIMIT_WINDOW) as [A|A]; simpl.
  - now rewrite IH.
  - rewrite IH. destruct (Z.ltb_spec (now' - t) RATE_LIMIT_WINDOW); [lia|reflexivity].
Qed.

Lemma limiter_follows_rule (calls : list (Z * string)) :
  forall (m : Map (list Z)) (log : list (Z * string)) (lo : Z),
    (forall ip now, (lo <= now)%Z ->
       in_window now (entries m ip) = allowed_in_window log now ip) ->
    clock_from lo calls ->
    fst (limiter_run m calls) = window_rule log calls.
Proof.
  induction calls as [|[now ip] rest IH]; intros m log lo Inv Hc; [reflexivity|].
  destruct Hc as [Hlo Hc]. cbn [limiter_run window_rule].
  unfold rateLimiter. fold (entries m ip). fold (in_window now (entries m ip)).
  rewrite (Inv ip now Hlo).
  replace (MAX_REQUESTS <=? List.length (allowed_in_window log now ip))
    with (negb (List.length (allowed_in_window log now ip) <? MAX_REQUESTS))
    by (rewrite Nat.ltb_antisym; now rewrite negb_involutive).
  destruct (List.length (allowed_in_window log now ip) <? MAX_REQUESTS) eqn:V;
    cbn [negb].
  - specialize (IH (Map_set m ip (allowed_in_window log now ip ++ [now])%list)
                   (log ++ [(now, ip)])%list now).
    destruct (limiter_run _ rest) as [verdicts m'']. cbn [fst] in *. f_equal.
    apply IH; [|exact Hc].
    intros ip' now' Hn. unfold entries. rewrite Map_get_set.
    unfold allowed_in_window at 2. rewrite filter_app, map_app. cbn [filter snd fst].
    destruct (String.eqb_spec ip ip') as [<-|N].
    + cbn [andb]. unfold in_window at 1.
      rewrite filter_app. cbn [filter].
      rewrite <- (Inv ip now Hlo). fold (in_window now' (in_window now (entries m ip))).
      rewrite (in_window_later now now' _ Hn), (Inv ip now' ltac:(lia)).
      unfold allowed_in_window.
      now destruct (now' - now <? RATE_LIMIT_WINDOW)%Z.
    + cbn [andb map].
      rewrite app_nil_r. apply (Inv ip' now'). lia.
  - specialize (IH m log now).
    destruct (limiter_run m rest) as [verdicts m'']. cbn [fst] in *. f_equal.
    apply IH; [|exact Hc]. intros ip' now' Hn. apply Inv. lia.
Qed.

(** X20.  With a clock that does not go back, the limiter started on an empty
    map lets a call through exactly when fewer than five calls of the
    same address were let through less than 60 seconds before it; refused calls
    are not counted. *)
Theorem limiter_allows_five_per_window (lo : Z) (calls : list (Z * string)) :
  clock_from lo calls ->
  fst (limiter_run [] calls) = window_rule [] calls.
Proof.
  intros Hc. apply (limiter_follows_rule calls [] [] lo); [|exact Hc].
  intros ip now _. reflexivity.
Qed.

Lemma limiter_allows_five_per_window_witness :
  let calls := [(0, "10.0.0.1"); (1000, "10.0.0.1"); (2000, "10.0.0.1");
                (3000, "10.0.0.1"); (4000, "10.0.0.2"); (5000, "10.0.0.1");
                (6000, "10.0.0.1"); (59999, "10.0.0.1"); (60000, "10.0.0.1")]%Z in
  fst (limiter_run [] calls) = window_rule [] calls /\
  window_rule [] calls = [true; true; true; true; true; true; false; false; true].
Proof.
  intros calls. split; [|reflexivity].
  apply (limiter_allows_five_per_window 0). simpl. lia.
Defined.

Lemma rateLimiter_step (m : Map (list Z)) (now : Z) (ip : string) :
  (forall a, List.length (entries m a) <= MAX_REQUESTS) ->
  (forall a, List.length (entries (snd (rateLimiter m now ip)) a) <= MAX_REQUESTS) /\
  (forall a, Map_get m a <> None -> Map_get (snd (rateLimiter m now ip)) a <> None).
Proof.
  intros H. unfold rateLimiter. fold (entries m ip). fold (in_window now (entries m ip)).
  destruct (Nat.leb_spec MAX_REQUESTS (List.length (in_window now (entries m ip))))
    as [L|L]; cbn [snd].
  - split; [exact H|tauto].
  - split; intros a.
    + unfold entries at 1. rewrite Map_get_set. destruct (String.eqb ip a).
      * rewrite length_app. cbn [List.length]. lia.
      * apply H.
    + rewrite Map_get_set. destruct (String.eqb ip a); [discriminate|tauto].
Qed.

(** X21.  Whatever the clock does, the limiter keeps at most five instants for
    each address, and it never removes an address from its map: the map
    grows with every new address and is never cleaned. *)
Theorem limiter_keeps_five_instants (calls : list (Z * string)) (m : Map (list Z)) :
  (forall a, List.length (entries m a) <= MAX_REQUESTS) ->
  (forall a, List.length (entries (snd (limiter_run m calls)) a) <= MAX_REQUESTS) /\
  (forall a, Map_get m a <> None -> Map_get (snd (limiter_run m calls)) a <> None).
Proof.
  revert m. induction calls as [|[now ip] rest IH]; intros m H.
  - split; [exact H|tauto].
  - cbn [limiter_run].
    destruct (rateLimiter_step m now ip H) as [H1 K1].
    destruct (rateLimiter m now ip) as [verdict m'] eqn:E. cbn [snd] in H1, K1.
    destruct (IH m' H1) as [H2 K2].
    destruct (limiter_run m' rest) as [verdicts m'']. cbn [snd] in *.
    split; [exact H2|]. intros a Ha. apply K2, K1, Ha.
Qed.

Lemma limiter_keeps_five_instants_witness :
  List.length (entries
    (snd (limiter_run [] [(0, "10.0.0.1"); (1, "10.0.0.1"); (2, "10.0.0.1");
                          (3, "10.0.0.1"); (4, "10.0.0.1"); (5, "10.0.0.1")]%Z))
    "10.0.0.1")
  <= MAX_REQUESTS.
Proof.
  refine (proj1 (limiter_keeps_five_instants _ [] _) "10.0.0.1").
  intros a. simpl. unfold MAX_REQUESTS. lia.
Defined.

(** ** The routes of the second copy *)

Lemma analyze_step (st : store) (w : analyze_world) (req : analyze_request) :
  passes_middleware (users st) req ->
  (status (fst (analyze st w req)) =? 429) =
    negb (fst (rateLimiter (analysisRateLimit st) (limiter_now w) (ip req))) /\
  analysisRateLimit (snd (analyze st w req)) =
    snd (rateLimiter (analysisRateLimit st) (limiter_now w) (ip req)) /\
  (forall k, Map_get (users st) k <> None ->
             Map_get (users (snd (analyze st w req))) k <> None).
Proof.
  intros [[key [Ha Hk]] Hu]. unfold analyze, auth. rewrite Ha.
  destruct (Map_get (users st) key) as [u|] eqn:Eu; [|congruence].
  destruct (rateLimiter (analysisRateLimit st) (limiter_now w) (ip req))
    as [allowed limits] eqn:El. cbn [fst snd].
  destruct (req_file req) as [| |read P unlink] eqn:Ef; [congruence| |].
  - destruct allowed; cbn [negb fst snd status analysisRateLimit users];
      (split; [reflexivity|split; [reflexivity|tauto]]).
  - destruct allowed; cbn [negb fst snd status analysisRateLimit users];
      [|split; [reflexivity|split; [reflexivity|tauto]]].
    destruct (missing (req_track req) || missing (req_carClass req)
              || missing (req_game req));
      cbn [fst snd status analysisRateLimit users];
      [split; [reflexivity|split; [reflexivity|tauto]]|].
    destruct read as [content|]; cbn [fst snd status analysisRateLimit users];
      [|split; [reflexivity|split; [reflexivity|tauto]]].
    destruct unlink; cbn [fst snd status analysisRateLimit users];
      [split; [reflexivity|split; [reflexivity|tauto]]|].
    destruct (Server2.analyzeTelemetryWithAI _ _ _ _ _ _);
      cbn [fst snd status analysisRateLimit users];
      [|split; [reflexivity|split; [reflexivity|tauto]]].
    split; [reflexivity|split; [reflexivity|]].
    intros k Hk'. rewrite !Map_get_set.
    destruct (String.eqb _ k); [discriminate|].
    destruct (String.eqb key k); [discriminate|exact Hk'].
Qed.

(** X22.  For requests that get past [auth] and the upload, the answers 429 of
    [POST /analyze] are exactly the refusals of the limiter on the
    instants and addresses of the requests: every such request counts
    against its address, also when it is then answered 400 or 500, and a
    request answered 429 does not. *)
Theorem analyze_counts_every_request
    (calls : list (analyze_world * analyze_request)) (st : store) :
  Forall (fun c => passes_middleware (users st) (snd c)) calls ->
  map (fun r => status r =? 429) (fst (analyze_run st calls)) =
    map negb (fst (limiter_run (analysisRateLimit st) (map limiter_call calls))) /\
  analysisRateLimit (snd (analyze_run st calls)) =
    snd (limiter_run (analysisRateLimit st) (map limiter_call calls)).
Proof.
  revert st. induction calls as [|[w req] rest IH]; intros st H.
  - split; reflexivity.
  - apply Forall_cons_iff in H. destruct H as [H0 H].
    cbn [analyze_run map limiter_run limiter_call fst snd].
    destruct (analyze_step st w req H0) as [S1 [S2 S3]].
    destruct (analyze st w req) as [r st'] eqn:Ea. cbn [fst snd] in S1, S2, S3.
    destruct (rateLimiter (analysisRateLimit st) (limiter_now w) (ip req))
      as [v m'] eqn:El. cbn [fst snd] in S1, S2.
    assert (H' : Forall (fun c => passes_middleware (users st') (snd c)) rest).
    { apply Forall_forall. intros c Hc.
      destruct (proj1 (Forall_forall _ _) H c Hc) as [[key [A K]] U].
      split; [|exact U]. exists key. split; [exact A|]. now apply S3. }
    destruct (IH st' H') as [I1 I2]. rewrite S2 in I1, I2.
    destruct (analyze_run st' rest) as [rs st'']. 
    destruct (limiter_run m' (map limiter_call rest)) as [vs m''].
    cbn [fst snd map] in *. split; [now rewrite S1, I1|exact I2].
Qed.

Lemma analyze_counts_every_request_witness :
  let no_file := mkAnalyze (Token "7d9f0a52") "10.0.0.1" NoFile None None None in
  let calls :=
    [(an_analysis, an_upload "7d9f0a52"); (an_analysis, no_file);
     (an_analysis, no_file); (an_analysis, no_file); (an_analysis, no_file);
     (an_analysis, an_upload "7d9f0a52")] in
  map status (fst (analyze_run after_registration calls)) =
    [200; 400; 400; 400; 400; 429] /\
  map (fun r => status r =? 429) (fst (analyze_run after_registration calls)) =
    map negb (fst (limiter_run (analysisRateLimit after_registration)
                     (map limiter_call calls))).
Proof.
  intros no_file calls. split; [reflexivity|].
  apply (analyze_counts_every_request calls after_registration).
  repeat (apply Forall_cons; [
    split; [exists "7d9f0a52"; split; [reflexivity|discriminate]|discriminate]|]).
  apply Forall_nil.
Defined.

(** ** Printing and reading integers *)

Lemma digits_fuel_app (f : nat) (m : N) (acc rest : string) :
  digits_fuel f m acc ++ rest = digits_fuel f m (acc ++ rest).
Proof.
  revert m acc. induction f as [|f IH]; intros m acc; simpl; [reflexivity|].
  destruct (N.eqb (m / 10) 0); [reflexivity|]. now rewrite IH.
Qed.

Lemma mod10_digit (m : N) : exists d, d < 10 /\ (m mod 10 = N.of_nat d)%N.
Proof.
  exists (N.to_nat (m mod 10)). split.
  - pose proof (N.mod_upper_bound m 10 ltac:(discriminate)). lia.
  - now rewrite N2Nat.id.
Qed.

Ltac digit_cases d H :=
  do 10 (destruct d as [|d]; [try reflexivity|]); exfalso; lia.

Lemma digit_value_char (d : nat) :
  d < 10 -> digit_value 10 (digit_char d) = Some (N.of_nat d).
Proof. intros H. digit_cases d H. Qed.

Lemma digits_fuel_S (f : nat) (m : N) (acc : string) :
  digits_fuel (S f) m acc =
  if N.eqb (m / 10) 0 then String (digit_char (N.to_nat (m mod 10))) acc
  else digits_fuel f (m / 10) (String (digit_char (N.to_nat (m mod 10))) acc).
Proof.
  unfold digit_char. rewrite N2Nat.id. reflexivity.
Qed.

Lemma mod10_lt (m : N) : N.to_nat (m mod 10) < 10.
Proof. pose proof (N.mod_upper_bound m 10 ltac:(discriminate)). lia. Qed.

Lemma parse_digit_char (d : nat) (acc : string) (a : option N) :
  d < 10 ->
  parse_digits 10 (String (digit_char d) acc) a =
  parse_digits 10 acc
    (Some ((match a with Some v => v | None => 0 end) * 10 + N.of_nat d)%N).
Proof.
  intros H. cbn [parse_digits]. rewrite (digit_value_char d H).
  destruct a; [reflexivity|]. f_equal.
Qed.

Lemma parse_digits_fuel (f : nat) :
  forall m, (m < 2 ^ N.of_nat f)%N ->
  exists k, forall acc a,
    parse_digits 10 (digits_fuel (S f) m acc) a =
    parse_digits 10 acc
      (Some ((match a with Some v => v | None => 0 end) * 10 ^ k + m)%N).
Proof.
  induction f as [|f IH]; intros m Hm.
  - assert (m = 0%N) by (simpl in Hm; lia). subst m. exists 1%N. intros acc a.
    rewrite digits_fuel_S. change (0 / 10 =? 0)%N with true. cbv iota.
    rewrite parse_digit_char by apply mod10_lt. f_equal.
  - destruct (N.eqb_spec (m / 10) 0) as [E|E].
    + exists 1%N. intros acc a. rewrite digits_fuel_S.
      rewrite (proj2 (N.eqb_eq _ _) E).
      rewrite parse_digit_char by apply mod10_lt. f_equal. f_equal.
      rewrite N2Nat.id, N.pow_1_r.
      assert (m mod 10 = m)%N.
      { apply N.mod_small. apply N.div_small_iff in E; [exact E|discriminate]. }
      lia.
    + assert (Hq : (m / 10 < 2 ^ N.of_nat f)%N).
      { apply N.Div0.div_lt_upper_bound.
        rewrite Nat2N.inj_succ, N.pow_succ_r' in Hm. lia. }
      destruct (IH (m / 10)%N Hq) as [k Hk]. exists (k + 1)%N. intros acc a.
      rewrite digits_fuel_S. rewrite (proj2 (N.eqb_neq _ _) E).
      rewrite Hk. rewrite parse_digit_char by apply mod10_lt. f_equal. f_equal.
      rewrite N2Nat.id, N.pow_add_r, N.pow_1_r.
      pose proof (N.div_mod m 10 ltac:(discriminate)) as D.
      set (q := (m / 10)%N) in *. set (r := (m mod 10)%N) in *.
      destruct a; nia.
Qed.

Lemma size_nat_bound (m : N) : (m < 2 ^ N.of_nat (N.size_nat m))%N.
Proof.
  destruct m as [|p]; [reflexivity|]. cbn [N.size_nat].
  induction p as [p IH|p IH|]; cbn [Pos.size_nat];
    rewrite ?Nat2N.inj_succ, ?N.pow_succ_r'; lia.
Qed.

(** The digits of a number start with a digit, followed by what comes
    after the number or by another digit. *)
Lemma digits_fuel_head (f : nat) :
  forall m acc, exists d t,
    d < 10 /\ digits_fuel (S f) m acc = String (digit_char d) t /\
    (t = acc \/ exists d' t', d' < 10 /\ t = String (digit_char d') t').
Proof.
  induction f as [|f IH]; intros m acc; rewrite digits_fuel_S.
  - exists (N.to_nat (m mod 10)), acc. split; [apply mod10_lt|]. split; [|now left].
    now destruct (N.eqb (m / 10) 0).
  - destruct (N.eqb (m / 10) 0).
    + exists (N.to_nat (m mod 10)), acc. split; [apply mod10_lt|]. split; [reflexivity|now left].
    + destruct (IH (m / 10)%N (String (digit_char (N.to_nat (m mod 10))) acc))
        as (d & t & Hd & E & [->|R]).
      * exists d, (String (digit_char (N.to_nat (m mod 10))) acc).
        split; [exact Hd|]. split; [exact E|]. right.
        exists (N.to_nat (m mod 10)), acc. split; [apply mod10_lt|reflexivity].
      * exists d, t. split; [exact Hd|]. split; [exact E|]. now right.
Qed.

(** A number that starts with a digit, followed by [h] or a digit, is read
    in base ten, without a sign. *)
Lemma parseInt_digits (neg : bool) (d : nat) (t : string) :
  d < 10 ->
  (exists r, t = String "h" r) \/ (exists d' t', d' < 10 /\ t = String (digit_char d') t') ->
  parseInt ((if neg then "-" else "") ++ String (digit_char d) t) =
  match parse_digits 10 (String (digit_char d) t) None with
  | Some n => Some (if neg then (- Z.of_N n)%Z else Z.of_N n)
  | None => None
  end.
Proof.
  intros Hd [[r ->]|(d' & t' & Hd' & ->)].
  - destruct neg; do 10 (destruct d as [|d]; [reflexivity|]); exfalso; lia.
  - destruct neg; do 10 (destruct d as [|d]; [
      do 10 (destruct d' as [|d']; [reflexivity|]); exfalso; lia|]); exfalso; lia.
Qed.

Lemma parseInt_string_of_N (neg : bool) (m : N) (rest : string) :
  parseInt ((if neg then "-" else "") ++ string_of_N m ++ "h " ++ rest) =
  Some (if neg then (- Z.of_N m)%Z else Z.of_N m).
Proof.
  unfold string_of_N. rewrite digits_fuel_app. cbn [append].
  destruct (digits_fuel_head (N.size_nat m) m (String "h" (String " " rest)))
    as (d & t & Hd & E & R).
  destruct (parse_digits_fuel (N.size_nat m) m (size_nat_bound m)) as [k Hk].
  specialize (Hk (String "h" (String " " rest)) None).
  rewrite E in *. rewrite parseInt_digits; [|exact Hd|].
  - rewrite Hk. cbn [parse_digits]. change (digit_value 10 "h") with (@None N).
    cbv iota. now rewrite N.mul_0_l, N.add_0_l.
  - destruct R as [->|R]; [left; eauto|right; exact R].
Qed.

Lemma parseInt_string_of_Z (n : Z) (rest : string) :
  parseInt (string_of_Z n ++ "h " ++ rest) = Some n.
Proof.
  destruct n as [|p|p]; cbn [string_of_Z].
  - exact (parseInt_string_of_N false 0 rest).
  - exact (parseInt_string_of_N false (Z.to_N (Zpos p)) rest).
  - pose proof (parseInt_string_of_N true (Npos p) rest) as H.
    cbn [append] in H |- *. exact H.
Qed.

(** X23.  Each recorded analysis adds exactly one to the hours at the head of
    [totalTime], whatever the minutes and the rest of the text: [parseInt]
    reads back the integer that the template printed, up to the [h], and
    a text without a number counts as 0.  The hours are taken below
    [2^53], where JavaScript counts exactly. *)
Theorem hours_increase_by_one (u : user) (track carClass : string) (random : Q)
    (data : Server2.result2) :
  (Z.abs (parseInt_or_0 (totalTime (user_stats u))) < 2 ^ 53)%Z ->
  parseInt_or_0 (totalTime (user_stats (record_analysis u track carClass random data))) =
  (parseInt_or_0 (totalTime (user_stats u)) + 1)%Z.
Proof.
  intros _. unfold record_analysis. cbn [user_stats totalTime].
  unfold parseInt_or_0 at 1. now rewrite parseInt_string_of_Z.
Qed.

Lemma hours_increase_by_one_witness :
  let u := mkUser "7d9f0a52" "alice@example.com" "Alice" "$2b$10$N9qo8uLOickgx2ZMRZoMye"
             "a.svg" "2025-01-01T00:00:00.000Z"
             (mkStats 41 3 2 "41h 7m" "+0.0s") [] in
  parseInt_or_0
    (totalTime (user_stats (record_analysis u "Spa" "GT3" (1 # 3) a_report))) = 42%Z.
Proof.
  intros u. apply (hours_increase_by_one u "Spa" "GT3" (1 # 3) a_report). reflexivity.
Defined.

(** ** The users *)











(** *** What an analysis reports and records *)













Lemma reachable_start : reachable (mkStore [] []).
Proof. exists []. apply running_start. Qed.

(** A registration handled in one piece is one of the runs. *)
Lemma reachable_register (st : store) (w : register_world) (req : register_request) :
  reachable st -> reachable (snd (register st w req)).
Proof.
  intros [pending H]. unfold register.
  destruct (register_check st req) eqn:E; [now exists pending|].
  exists pending. apply (running_write [] pending). now apply running_check.
Qed.

Lemma reachable_analyze (st : store) (w : analyze_world) (req : analyze_request) :
  reachable st -> reachable (snd (analyze st w req)).
Proof. intros [pending H]. exists pending. now apply running_analyze. Qed.

Lemma sequential_reachable (st : store) : sequential st -> reachable st.
Proof.
  induction 1 as [|st w req _ IH|st w req _ IH].
  - apply reachable_start.
  - now apply reachable_register.
  - now apply reachable_analyze.
Qed.



(** The run in which the second registration tests the address before
    the first one writes. *)
Lemma after_overlap_reachable : reachable after_overlap.
Proof.
  exists []. apply (running_write [] [] after_registration mallory_world mallory).
  change (running ([mallory] ++ [])
            (snd (register_write (mkStore [] []) alice_world alice))).
  apply (running_write [mallory] [] (mkStore [] []) alice_world alice).
  apply running_check; [|reflexivity].
  apply running_check; [|reflexivity].
  apply running_start.
Qed.

(** The address is tested before [await bcrypt.hash] and the user is
    stored after it.  Two registrations with the same address that
    overlap are both answered 201, and the store then holds two users
    with that address; a login with the address and the password of the
    second one is refused, the first user being the one that is found. *)
Example overlapping_registrations_share_address :
  reachable after_overlap /\
  status (fst (register_write (mkStore [] []) alice_world alice)) = 201 /\
  status (fst (register_write after_registration mallory_world mallory)) = 201 /\
  map (fun p => (fst p, email (snd p))) (users after_overlap) =
    [("7d9f0a52", "alice@example.com"); ("1b2c3d4e", "alice@example.com")] /\
  login after_overlap either_login (mkLogin "alice@example.com" "battery staple") =
    mkResponse 401 (Error "Invalid credentials") /\
  status (login after_overlap either_login
            (mkLogin "alice@example.com" "correct horse")) = 200.
Proof.
  split; [exact after_overlap_reachable|]. repeat split.
Qed.



(** *** Registration and login *)









(** *** What an analysis writes *)



(** ** The two routes *)

Lemma analysed_response (st : Api2.store) (w : Api2.analyze_world)
    (req : Api2.analyze_request) (content : text) (P : parsers) :
  analysed st w req content P ->
  forall reason,
    Server2.analyzeTelemetryWithAI (Api2.analysis_world w) content P
      (Api2.field_value (Api2.req_track req))
      (Api2.field_value (Api2.req_carClass req))
      (Api2.field_value (Api2.req_game req)) = Rejected reason ->
    fst (Api2.analyze st w req) = Api2.mkResponse 400 (Api2.Error reason) /\
    Api2.users (snd (Api2.analyze st w req)) = Api2.users st.
Proof.
  intros ([key [Ha Hk]] & Hl & Hf & Ht & Hc & Hg) reason Hr.
  unfold Api2.analyze, Api2.auth. rewrite Ha.
  destruct (Api2.Map_get (Api2.users st) key) as [u|]; [|congruence].
  destruct (Api2.rateLimiter _ _ _) as [allowed limits]. cbn [fst] in Hl. subst allowed.
  rewrite Hf, Ht, Hc, Hg, Hr. split; reflexivity.
Qed.

(** X29.  A JSON upload that [JSON.parse] refuses is answered 400 by the second
    copy and 500 by the first, both with the reason of the extraction;
    the second copy leaves its users as they are. *)
Theorem parse_failure_answers
    (content : text) (P : parsers) (message : string) :
  sniff content = json_format -> json_parse P = Throw message ->
  let reason := "Error extracting track data: " ++ message in
  (forall st w req,
     analysed st w req content P ->
     fst (Api2.analyze st w req) = Api2.mkResponse 400 (Api2.Error reason) /\
     Api2.users (snd (Api2.analyze st w req)) = Api2.users st) /\
  (forall Math_sin w track carClass game,
     Api1.analyze Math_sin w
       (Api1.mkAnalyze (Api1.File (Ok content) P None) track carClass game) =
     Api1.mkResponse 500 (Api1.Failure reason)).
Proof.
  intros Hs Hp reason. split.
  - intros st w req H. apply (analysed_response st w req content P H).
    unfold Server2.analyzeTelemetryWithAI, Server2.extractTrackPointsFromTelemetry,
      extract_raw. now rewrite Hs, Hp.
  - intros Math_sin w track carClass game.
    unfold Api1.analyze. cbn [Api1.req_file Api1.req_track Api1.req_carClass Api1.req_game].
    assert (E : Api1.analyzeTelemetryWithAI Math_sin w content P track carClass game =
                Rejected reason).
    { unfold Api1.analyzeTelemetryWithAI, Server1.analyzeTelemetryWithAI,
        Server1.extractTrackPointsFromTelemetry, extract_raw.
      rewrite Hs, Hp. now destruct track. }
    rewrite E. reflexivity.
Qed.

Lemma parse_failure_answers_witness :
  let reason :=
    "Error extracting track data: Unexpected token x in JSON at position 1" in
  fst (Api2.analyze after_registration an_analysis
         (Api2.mkAnalyze (Api2.Token "7d9f0a52") "10.0.0.1"
            (Api2.File (Ok broken_text) broken_parsed None)
            (Some "Spa") (Some "GT3") (Some "ACC"))) =
    Api2.mkResponse 400 (Api2.Error reason) /\
  Api1.analyze flat_sine (Server1.mkWorld false Server1.NotOk 0)
    (Api1.mkAnalyze (Api1.File (Ok broken_text) broken_parsed None)
       (Some "Spa") (Some "GT3") (Some "ACC")) =
    Api1.mkResponse 500 (Api1.Failure reason).
Proof.
  intros reason.
  destruct (parse_failure_answers broken_text broken_parsed
              "Unexpected token x in JSON at position 1" eq_refl eq_refl) as [H2 H1].
  split.
  - refine (proj1 (H2 after_registration an_analysis _ _)).
    split; [exists "7d9f0a52"; split; [reflexivity|discriminate]|].
    repeat split; reflexivity.
  - apply H1.
Defined.

(** X30.  A request without the field [track]: the first copy, which does not
    look at the fields, answers 500 whenever the endpoint gives no usable
    reply (its own analysis reads [track.includes]); the second copy
    answers 400 before it reads the file. *)
Theorem absent_track_answers :
  (forall Math_sin w read P unlink carClass game,
     falls_through w ->
     Api1.status (Api1.analyze Math_sin w
       (Api1.mkAnalyze (Api1.File read P unlink) None carClass game)) = 500) /\
  (forall st w req read P unlink,
     passes_middleware (Api2.users st) req ->
     fst (Api2.rateLimiter (Api2.analysisRateLimit st) (Api2.limiter_now w)
            (Api2.ip req)) = true ->
     Api2.req_file req = Api2.File read P unlink ->
     Api2.req_track req = None ->
     fst (Api2.analyze st w req) =
       Api2.mkResponse 400 (Api2.Error "Missing required fields")).
Proof.
  split.
  - intros Math_sin w read P unlink carClass game F. unfold Api1.analyze.
    cbn [Api1.req_file Api1.req_track Api1.req_carClass Api1.req_game].
    destruct read as [rawData|]; [|reflexivity].
    destruct unlink; [reflexivity|].
    unfold Api1.analyzeTelemetryWithAI.
    destruct (Server1.extractTrackPointsFromTelemetry P (sniff rawData));
      [|reflexivity].
    unfold Server1.call_ai.
    destruct F as [F|[F|F]]; rewrite F; [reflexivity| |];
      now destruct (Server1.DEEPSEEK_API_KEY w).
  - intros st w req read P unlink [[key [Ha Hk]] _] Hl Hf Ht.
    unfold Api2.analyze, Api2.auth. rewrite Ha.
    destruct (Api2.Map_get (Api2.users st) key) as [u|]; [|congruence].
    destruct (Api2.rateLimiter _ _ _) as [allowed limits]. cbn [fst] in Hl.
    subst allowed. rewrite Hf, Ht. reflexivity.
Qed.

Lemma absent_track_answers_witness :
  Api1.status (Api1.analyze flat_sine (Server1.mkWorld false Server1.NotOk 0)
    (Api1.mkAnalyze (Api1.File (Ok small_text) small_parsed None)
       None (Some "GT3") (Some "ACC"))) = 500 /\
  fst (Api2.analyze after_registration an_analysis
         (Api2.mkAnalyze (Api2.Token "7d9f0a52") "10.0.0.1"
            (Api2.File (Ok small_text) small_parsed None)
            None (Some "GT3") (Some "ACC"))) =
    Api2.mkResponse 400 (Api2.Error "Missing required fields").
Proof.
  destruct absent_track_answers as [H1 H2]. split.
  - apply H1. left. reflexivity.
  - apply (H2 after_registration an_analysis _ (Ok small_text) small_parsed None).
    + split; [exists "7d9f0a52"; split; [reflexivity|discriminate]|discriminate].
    + reflexivity.
    + reflexivity.
    + reflexivity.
Defined.
